(** * gpsmon: the packet monitor's dispatch and session-control engine

    A shallow embedding of [gpsmon.c] and of the NMEA handler in
    [monitor_nmea0183.c].  C strings live in byte buffers that are read and
    written by offset, the process-wide globals are one record threaded
    through every function, calls to collaborators are recorded in a trace,
    and [longjmp], a failed [assert] and accesses outside an array are
    outcomes of their own.

    Modelled: the visualization helpers, the monitor registry and
    [switch_type], [select_packet_monitor], the per-packet hook,
    [do_command], the shutdown path of [main], and [nmea_update].  What a
    collaborator does to the session beyond the fields written out here is
    not modelled; none of these functions reads the session after such a
    call, except for the sample [json_toff_read] stores. *)

From Stdlib Require Import ZArith NArith Lia Ascii String List Bool.
From stdpp Require Import base option list strings.

Local Open Scope nat_scope.

(** ** Characters and <ctype.h> in the "C" locale *)

Definition NUL : ascii := "000"%char.
Definition TAB : ascii := "009"%char.
Definition LF : ascii := "010"%char.
Definition CR : ascii := "013"%char.
Definition SPACE : ascii := " "%char.

Definition chr (c : ascii) : nat := nat_of_ascii c.

Definition isprint (c : ascii) : bool := (32 <=? chr c) && (chr c <=? 126).

Definition isspace (c : ascii) : bool :=
  (chr c =? 32) || ((9 <=? chr c) && (chr c <=? 13)).

Definition is_char (c d : ascii) : bool := Ascii.eqb c d.

(** A string literal of the source, as the bytes before its terminator. *)
Definition lit (s : string) : list ascii := list_ascii_of_string s.

(** ** Byte buffers

    A buffer is the array a [char *] points into, from the pointer on.  A
    read beyond it yields NUL; a write beyond it is an error of its own
    ([None]), so that a function that returns [Some] has stayed inside. *)

Definition peek (b : list ascii) (i : nat) : ascii := default NUL (b !! i).

Definition poke (b : list ascii) (i : nat) (c : ascii) : option (list ascii) :=
  if decide (i < length b) then Some (<[i:=c]> b) else None.

Fixpoint store (b : list ascii) (off : nat) (l : list ascii)
  : option (list ascii) :=
  match l with
  | [] => Some b
  | c :: l' => b' ← poke b off c; store b' (S off) l'
  end.

(** [strlen]: the number of bytes before the first NUL; [None] when the scan
    leaves the array. *)
Fixpoint strlen_from (b : list ascii) : option nat :=
  match b with
  | [] => None
  | c :: b' => if decide (c = NUL) then Some 0 else S <$> strlen_from b'
  end.

Definition strlen (b : list ascii) (off : nat) : option nat :=
  strlen_from (drop off b).

(** The C string held at an offset: the bytes up to the first NUL. *)
Fixpoint until_nul (b : list ascii) : list ascii :=
  match b with
  | [] => []
  | c :: b' => if decide (c = NUL) then [] else c :: until_nul b'
  end.

Definition c_str (b : list ascii) (off : nat) : list ascii :=
  until_nul (drop off b).

(** [size_t] arithmetic wraps modulo 2^64. *)
Definition SIZE_MOD : N := (2 ^ 64)%N.

Definition size_sub (a b : N) : N := ((a + SIZE_MOD - b mod SIZE_MOD) mod SIZE_MOD)%N.

(** [snprintf(b + off, size, ...)] once the format is expanded to [s]: at
    most [size - 1] bytes of [s], then the terminator; nothing for size 0. *)
Definition truncate (size : N) (s : list ascii) : list ascii :=
  if (N.of_nat (length s) <? size)%N then s else take (N.to_nat (size - 1)) s.

Definition snprintf (b : list ascii) (off : nat) (size : N) (s : list ascii)
  : option (list ascii) :=
  if (size =? 0)%N then Some b else store b off (truncate size s ++ [NUL]).

(** ["%02x"] of [(unsigned)(c & 0xff)]: two lower-case hex digits. *)
Definition hexdigit (n : nat) : ascii :=
  nth n (lit "0123456789abcdef") "0"%char.

Definition fmt_02x (c : ascii) : list ascii :=
  [hexdigit (chr c / 16); hexdigit (chr c mod 16)].

(** ["\\x%02x"] *)
Definition hex_escape (c : ascii) : list ascii := lit "\x" ++ fmt_02x c.

(** ** Visualization helpers *)

(** [visibilize(buf2, len2, buf)].  The loop walks [sp] over the source;
    [sp[1]] and [sp[2]] are the next bytes of what is left of it. *)
Fixpoint visibilize_loop (len2 : nat) (sp : list ascii) (buf2 : list ascii)
  : option (list ascii) :=
  match sp with
  | [] => Some buf2
  | c :: rest =>
      if is_char c NUL then Some buf2 else
      n ← strlen buf2 0;
      if decide (n + 4 < len2) then
        b ← (if isprint c
                || (is_char c LF && is_char (peek rest 0) NUL)
                || (is_char c CR && is_char (peek rest 1) NUL)
             then k ← strlen buf2 0; snprintf buf2 k 2 [c]
             else k ← strlen buf2 0; snprintf buf2 k 6 (hex_escape c));
        visibilize_loop len2 rest b
      else Some buf2
  end.

Definition visibilize (buf2 : list ascii) (len2 : nat) (buf : list ascii)
  : option (list ascii) :=
  b ← poke buf2 0 NUL; visibilize_loop len2 buf b.

(** What [visibilize] appends for one source byte, and the text it builds as
    a function of the source alone. *)
Definition visibilize_piece (c : ascii) (rest : list ascii) : list ascii :=
  if isprint c
     || (is_char c LF && is_char (peek rest 0) NUL)
     || (is_char c CR && is_char (peek rest 1) NUL)
  then [c] else hex_escape c.

Fixpoint visibilize_text (len2 : nat) (sp : list ascii) (acc : list ascii)
  : list ascii :=
  match sp with
  | [] => acc
  | c :: rest =>
      if is_char c NUL then acc
      else if decide (length acc + 4 < len2)
           then visibilize_text len2 rest (acc ++ visibilize_piece c rest)
           else acc
  end.

(** ** Predicates on buffers *)

Definition nonnul (c : ascii) : Prop := c <> NUL.

(** Modelled from the spec: [str_appendf] (strfuncs.h is not among the
    sources) appends the formatted text to the string the buffer holds,
    truncated to what is left of the allocation size. *)
Definition str_appendf (str : list ascii) (alloc_size : nat) (s : list ascii)
  : option (list ascii) :=
  k ← strlen str 0;
  snprintf str k (size_sub (N.of_nat alloc_size) (N.of_nat k)) s.

(** The first loop of [cond_hexdump]: [printable] stays true iff every one
    of the [len] bytes is printable or white space. *)
Definition all_printable (buf : list ascii) (len : nat) : bool :=
  forallb (fun i => isprint (peek buf i) || isspace (peek buf i)) (seq 0 len).

(** The loop of the printable branch.  [n] counts the iterations left, so
    that [i < len] is [n <> 0]; [textual] is
    [TEXTUAL_PACKET_TYPE(session.lexer.type)]. *)
Fixpoint printable_loop (textual : bool) (len2 : nat) (buf : list ascii)
    (len n i j : nat) (buf2 : list ascii) : option (list ascii) :=
  match n with
  | 0 => Some buf2
  | S n' =>
      if (N.of_nat j <? size_sub (N.of_nat len2) 1)%N then
        let c := peek buf i in
        if isprint c then
          b ← poke buf2 j c;
          b' ← poke b (S j) NUL;
          printable_loop textual len2 buf len n' (S i) (S j) b'
        else if textual && (N.of_nat i =? size_sub (N.of_nat len) 1)%N
                && is_char c LF then
          printable_loop textual len2 buf len n' (S i) j buf2
        else if textual && (N.of_nat i =? size_sub (N.of_nat len) 2)%N
                && is_char c CR then
          printable_loop textual len2 buf len n' (S i) j buf2
        else
          k ← strlen buf2 0;
          b ← snprintf buf2 j (size_sub (N.of_nat len2) (N.of_nat k)) (hex_escape c);
          j' ← strlen b 0;
          printable_loop textual len2 buf len n' (S i) j' b
      else Some buf2
  end.

Fixpoint hexdump_loop (len2 : nat) (buf : list ascii) (n i : nat)
    (buf2 : list ascii) : option (list ascii) :=
  match n with
  | 0 => Some buf2
  | S n' =>
      b ← str_appendf buf2 len2 (fmt_02x (peek buf i));
      hexdump_loop len2 buf n' (S i) b
  end.

(** [cond_hexdump(buf2, len2, buf, len)] *)
Definition cond_hexdump (textual : bool) (buf2 : list ascii) (len2 : nat)
    (buf : list ascii) (len : nat) : option (list ascii) :=
  if all_printable buf len then printable_loop textual len2 buf len len 0 0 buf2
  else b ← poke buf2 0 NUL; hexdump_loop len2 buf len 0 b.

(** The text the printable branch builds when nothing is cut short, as a
    function of the input alone: a byte is the last one when nothing
    follows it, the last but one when one byte follows it. *)
Definition render_piece (textual : bool) (c : ascii) (rest : list ascii)
  : list ascii :=
  if isprint c then [c]
  else if textual && (length rest =? 0) && is_char c LF then []
  else if textual && (length rest =? 1) && is_char c CR then []
  else hex_escape c.

Fixpoint render_text (textual : bool) (x : list ascii) : list ascii :=
  match x with
  | [] => []
  | c :: rest => render_piece textual c rest ++ render_text textual rest
  end.

(** ** More of <string.h> and <stdlib.h>, on the C string at an offset *)

(** [strcmp(a, b) == 0] *)
Definition streq (a b : list ascii) : bool := bool_decide (a = b).

(** [strchr(set, c) != NULL] for a literal [set]: the terminator counts as
    part of the string. *)
Definition strchr_in (set : string) (c : ascii) : bool :=
  existsb (is_char c) (lit set) || is_char c NUL.

(** [strchr(s, c)] for [c] other than NUL, as an offset from [s]. *)
Fixpoint index_of (c : ascii) (s : list ascii) : option nat :=
  match s with
  | [] => None
  | d :: s' => if is_char d c then Some 0 else S <$> index_of c s'
  end.

(** [strcspn(s, reject)] *)
Fixpoint strcspn (s : list ascii) (reject : list ascii) : nat :=
  match s with
  | [] => 0
  | d :: s' => if existsb (is_char d) reject then 0 else S (strcspn s' reject)
  end.

(** [str_starts_with(s, prefix)] *)
Fixpoint str_starts_with (s prefix : list ascii) : bool :=
  match prefix, s with
  | [], _ => true
  | p :: prefix', d :: s' => is_char d p && str_starts_with s' prefix'
  | _ :: _, [] => false
  end.

(** [strstr(haystack, needle) != NULL] *)
Fixpoint strstr (haystack needle : list ascii) : bool :=
  str_starts_with haystack needle
  || match haystack with
     | [] => false
     | _ :: h' => strstr h' needle
     end.

(** [atoi], as the C library computes it: [(int) strtol(s, NULL, 10)].
    [strtol] reads white space, an optional sign and decimal digits; its
    value is the number read when that fits a [long] of 64 bits, and
    [LONG_MAX] or [LONG_MIN] when it does not.  The conversion to [int]
    keeps the low 32 bits.  (For a number outside [int] the C standard
    leaves the result of [atoi] open; this is what the library does.) *)
Fixpoint skip_space (s : list ascii) : list ascii :=
  match s with
  | c :: s' => if isspace c then skip_space s' else s
  | [] => []
  end.

Definition digit_val (c : ascii) : option Z :=
  if (48 <=? chr c) && (chr c <=? 57) then Some (Z.of_nat (chr c - 48)) else None.

Fixpoint digits (s : list ascii) (acc : Z) : Z :=
  match s with
  | c :: s' =>
      match digit_val c with
      | Some d => digits s' (10 * acc + d)%Z
      | None => acc
      end
  | [] => acc
  end.

Definition LONG_MAX : Z := 9223372036854775807.

Definition LONG_MIN : Z := -9223372036854775808.

Definition strtol (s : list ascii) : Z :=
  let v :=
    match skip_space s with
    | c :: s' =>
        if is_char c "-" then (- digits s' 0)%Z
        else if is_char c "+" then digits s' 0
        else digits (c :: s') 0
    | [] => 0%Z
    end in
  if (LONG_MAX <? v)%Z then LONG_MAX
  else if (v <? LONG_MIN)%Z then LONG_MIN
  else v.

(** Conversion of a [long] to [int]. *)
Definition int_of_long (z : Z) : Z :=
  ((z + 2147483648) mod 4294967296 - 2147483648)%Z.

Definition atoi (s : list ascii) : Z := int_of_long (strtol s).

(** Conversion to [unsigned int]. *)
Definition to_unsigned (z : Z) : Z := (z mod 2 ^ 32)%Z.

(** ** Data model *)

Record timespec := { tv_sec : Z; tv_nsec : Z }.

Record timedelta_t := { real : timespec; clock : timespec }.

(** The value [strtod] converts to is not modelled: a rate is carried as the
    text it was read from. *)
Definition double : Type := list ascii.

(** [struct gps_type_t], as far as the monitor reads it.  A method is a
    function pointer that may be NULL; what the driver does to the device is
    an event of the trace, what it answers is the function. *)
Record gps_type_t := {
  type_name : list ascii;
  flags : Z;
  mode_switcher : bool;
  speed_switcher : option (Z -> ascii -> Z -> bool);
  rate_switcher : option (double -> bool);
  control_send : option (list ascii -> Z);
}.

(** The functions a monitor object may install as its hooks, by name. *)
Inductive hook :=
| fn_nmea_initialize | fn_nmea_update | fn_nmea_wrap | fn_ashtech_command.

(** [struct monitor_object_t] *)
Record monitor_object_t := {
  initialize : option hook;
  update : option hook;
  command : option hook;
  wrap : option hook;
  min_y : Z;
  min_x : Z;
  driver : gps_type_t;
}.

(** An argument of a printf-style message. *)
Inductive arg := AStr (s : list ascii) | AInt (z : Z) | AChar (c : ascii).

(** Calls that leave the monitor, in the order they are made. *)
Inductive event :=
| Call (h : hook)
| Complain (fmt : string) (args : list arg)
| AnnounceLog (fmt : string) (args : list arg)
| Stdout (what : string)
| Stderr (text : string)
| Clearok
| Clear
| RefreshStatwin
| RefreshCmdwin
| ModeSwitcher (drv : list ascii) (mode : Z)
| SpeedSwitcher (drv : list ascii) (speed : Z) (parity : ascii) (stopbits : Z)
| RateSwitcher (drv : list ascii) (rate : double)
| ControlSend (drv : list ascii) (bytes : list ascii)
| GpsdWrite (bytes : list ascii)
| Tcdrain
| Nanosleep (nsec : Z)
| GpsdSetSpeed (speed : Z) (parity : ascii) (stopbits : Z)
| GpsdSwitchDriver (name : list ascii)
| Fclose (path : list ascii)
| Fopen (path : list ascii) (mode : string)
| Fwrite (bytes : list ascii)
| ReportLock
| ReportUnlock
| NtpLatch (td : timedelta_t)
| PpsThreadDeactivate
| GpsdClose
| TcsetattrCooked
| Exit (status : Z).

(** [struct gps_device_t session], as far as the monitor reads and writes
    it. *)
Record gps_device_t := {
  device_type : option gps_type_t;
  lexer_type : Z;
  lexer_counter : Z;
  lexer_outbuffer : list ascii;
  lexer_outbuflen : nat;
  dev_parity : ascii;
  dev_stopbits : Z;
  gpsdata_toff : timedelta_t;
  newdata_time : timespec;
  fix_in : timedelta_t;
  pps_out : timedelta_t;
  ppsout_count : Z;
}.

(** The globals of gpsmon.c, with [LINES] and [COLS] of curses and the
    trace of calls made so far (latest last). *)
Record gpsmon := {
  session : gps_device_t;
  readonly : bool;                    (* context.readonly *)
  serial : bool;
  curses_active : bool;
  logfile : option (list ascii);      (* the open log, by its path *)
  fallback : option gps_type_t;
  active : option monitor_object_t;
  last_type : Z;                      (* static in select_packet_monitor *)
  time_offset : timedelta_t;
  LINES : Z;
  COLS : Z;
  trace : list event;
}.

(** What is declared outside the two source files: constants and macros of
    gpsd.h, the build configuration, the driver tables, and the answers of
    the library and of the operating system. *)
Record externals := {
  BAD_PACKET : Z;
  NMEA_PACKET : Z;
  DRIVER_STICKY : Z;
  TEXTUAL_PACKET_TYPE : Z -> bool;
  SOCKET_EXPORT_ENABLE : bool;
  driver_nmea0183 : gps_type_t;
  driver_json_passthrough : gps_type_t;
  gpsd_drivers : list gps_type_t;
  fopen_ok : list ascii -> string -> bool;
  fwrite_count : list ascii -> Z;
  json_toff_read : list ascii -> Z * timedelta_t;
  json_pps_read : list ascii -> Z * timedelta_t;
  gpsd_hexpack : list ascii -> Z * list ascii;
  gpsd_write : list ascii -> Z;
}.

(** ** Control flow: normal return, [longjmp(terminate, code)], a failed
    [assert], and undefined behaviour *)

Inductive outcome (S A : Type) : Type :=
| Ret (a : A) (s : S)
| Longjmp (code : Z) (s : S)
| Abort (s : S)
| Fault.

Arguments Ret {S A} a s.
Arguments Longjmp {S A} code s.
Arguments Abort {S A} s.
Arguments Fault {S A}.

Definition M (A : Type) : Type := gpsmon -> outcome gpsmon A.

#[global] Instance M_ret : MRet M := fun A a s => Ret a s.

#[global] Instance M_bind : MBind M := fun A B f m s =>
  match m s with
  | Ret a s' => f a s'
  | Longjmp code s' => Longjmp code s'
  | Abort s' => Abort s'
  | Fault => Fault
  end.

Definition get : M gpsmon := fun s => Ret s s.

Definition modify (f : gpsmon -> gpsmon) : M unit := fun s => Ret tt (f s).

Definition longjmp (code : Z) : M unit := fun s => Longjmp code s.

Definition abort : M unit := fun s => Abort s.

Definition fault {A : Type} : M A := fun _ => Fault.

Definition skip : M unit := mret tt.

(** Field updates *)

Definition with_session (f : gps_device_t -> gps_device_t) (s : gpsmon) : gpsmon :=
  {| session := f (session s); readonly := readonly s; serial := serial s;
     curses_active := curses_active s; logfile := logfile s;
     fallback := fallback s; active := active s; last_type := last_type s;
     time_offset := time_offset s; LINES := LINES s; COLS := COLS s;
     trace := trace s |}.

Definition with_readonly (v : bool) (s : gpsmon) : gpsmon :=
  {| session := session s; readonly := v; serial := serial s;
     curses_active := curses_active s; logfile := logfile s;
     fallback := fallback s; active := active s; last_type := last_type s;
     time_offset := time_offset s; LINES := LINES s; COLS := COLS s;
     trace := trace s |}.

Definition with_logfile (v : option (list ascii)) (s : gpsmon) : gpsmon :=
  {| session := session s; readonly := readonly s; serial := serial s;
     curses_active := curses_active s; logfile := v;
     fallback := fallback s; active := active s; last_type := last_type s;
     time_offset := time_offset s; LINES := LINES s; COLS := COLS s;
     trace := trace s |}.

Definition with_fallback (v : option gps_type_t) (s : gpsmon) : gpsmon :=
  {| session := session s; readonly := readonly s; serial := serial s;
     curses_active := curses_active s; logfile := logfile s;
     fallback := v; active := active s; last_type := last_type s;
     time_offset := time_offset s; LINES := LINES s; COLS := COLS s;
     trace := trace s |}.

Definition with_active (v : option monitor_object_t) (s : gpsmon) : gpsmon :=
  {| session := session s; readonly := readonly s; serial := serial s;
     curses_active := curses_active s; logfile := logfile s;
     fallback := fallback s; active := v; last_type := last_type s;
     time_offset := time_offset s; LINES := LINES s; COLS := COLS s;
     trace := trace s |}.

Definition with_last_type (v : Z) (s : gpsmon) : gpsmon :=
  {| session := session s; readonly := readonly s; serial := serial s;
     curses_active := curses_active s; logfile := logfile s;
     fallback := fallback s; active := active s; last_type := v;
     time_offset := time_offset s; LINES := LINES s; COLS := COLS s;
     trace := trace s |}.

Definition with_time_offset (v : timedelta_t) (s : gpsmon) : gpsmon :=
  {| session := session s; readonly := readonly s; serial := serial s;
     curses_active := curses_active s; logfile := logfile s;
     fallback := fallback s; active := active s; last_type := last_type s;
     time_offset := v; LINES := LINES s; COLS := COLS s;
     trace := trace s |}.

Definition with_trace (v : list event) (s : gpsmon) : gpsmon :=
  {| session := session s; readonly := readonly s; serial := serial s;
     curses_active := curses_active s; logfile := logfile s;
     fallback := fallback s; active := active s; last_type := last_type s;
     time_offset := time_offset s; LINES := LINES s; COLS := COLS s;
     trace := v |}.

Definition with_lexer_counter (v : Z) (d : gps_device_t) : gps_device_t :=
  {| device_type := device_type d; lexer_type := lexer_type d;
     lexer_counter := v; lexer_outbuffer := lexer_outbuffer d;
     lexer_outbuflen := lexer_outbuflen d; dev_parity := dev_parity d;
     dev_stopbits := dev_stopbits d; gpsdata_toff := gpsdata_toff d;
     newdata_time := newdata_time d; fix_in := fix_in d;
     pps_out := pps_out d; ppsout_count := ppsout_count d |}.

Definition with_gpsdata_toff (v : timedelta_t) (d : gps_device_t) : gps_device_t :=
  {| device_type := device_type d; lexer_type := lexer_type d;
     lexer_counter := lexer_counter d; lexer_outbuffer := lexer_outbuffer d;
     lexer_outbuflen := lexer_outbuflen d; dev_parity := dev_parity d;
     dev_stopbits := dev_stopbits d; gpsdata_toff := v;
     newdata_time := newdata_time d; fix_in := fix_in d;
     pps_out := pps_out d; ppsout_count := ppsout_count d |}.

Definition with_pps_out (v : timedelta_t) (n : Z) (d : gps_device_t) : gps_device_t :=
  {| device_type := device_type d; lexer_type := lexer_type d;
     lexer_counter := lexer_counter d; lexer_outbuffer := lexer_outbuffer d;
     lexer_outbuflen := lexer_outbuflen d; dev_parity := dev_parity d;
     dev_stopbits := dev_stopbits d; gpsdata_toff := gpsdata_toff d;
     newdata_time := newdata_time d; fix_in := fix_in d;
     pps_out := v; ppsout_count := n |}.

Definition emit (e : event) : M unit :=
  modify (fun s => with_trace (trace s ++ [e]) s).

(** [complain] and [monitor_complain] *)
Definition complain (fmt : string) (args : list arg) : M unit :=
  emit (Complain fmt args).

(** [announce_log]: the line reaches the log only when one is open. *)
Definition announce_log (fmt : string) (args : list arg) : M unit :=
  s ← get;
  match logfile s with
  | Some _ => emit (AnnounceLog fmt args)
  | None => skip
  end.

(** ** gpsmon.c *)

Section Gpsmon.

Variable E : externals.

(** Termination codes *)
Definition TERM_SELECT_FAILED : Z := 1.
Definition TERM_DRIVER_SWITCH : Z := 2.
Definition TERM_EMPTY_READ : Z := 3.
Definition TERM_READ_ERROR : Z := 4.
Definition TERM_SIGNAL : Z := 5.
Definition TERM_QUIT : Z := 6.

Definition EXIT_SUCCESS : Z := 0.
Definition EXIT_FAILURE : Z := 1.

(** Window sizes of monitor_nmea0183.c *)
Definition WIDTH_L : Z := 25.
Definition WIDTH_M : Z := 27.
Definition WIDTH_R : Z := 30.
Definition WIDTH : Z := WIDTH_L + WIDTH_M + WIDTH_R - 2.
Definition HEIGHT_1 : Z := 3.
Definition HEIGHT_2 : Z := 3.
Definition HEIGHT_3 : Z := 9.
Definition HEIGHT_4 : Z := 6.
Definition HEIGHT : Z := HEIGHT_1 + HEIGHT_2 + HEIGHT_3 + HEIGHT_4.
Definition MAXSATS : Z := HEIGHT_3 + HEIGHT_4 - 3.

Definition nmea_mmt : monitor_object_t :=
  {| initialize := Some fn_nmea_initialize;
     update := Some fn_nmea_update;
     command := None;
     wrap := Some fn_nmea_wrap;
     min_y := HEIGHT; min_x := WIDTH;
     driver := driver_nmea0183 E |}.

Definition json_mmt : monitor_object_t :=
  {| initialize := None;
     update := None;
     command := None;
     wrap := None;
     min_y := 0; min_x := 80;
     driver := driver_json_passthrough E |}.

Definition monitor_objects : list monitor_object_t := [nmea_mmt; json_mmt].

(** The search loop of [switch_type]: the first object whose driver has the
    wanted type name. *)
Fixpoint find_monitor (trial : list monitor_object_t) (name : list ascii)
  : option monitor_object_t :=
  match trial with
  | [] => None
  | o :: trial' =>
      if streq (type_name (driver o)) name then Some o
      else find_monitor trial' name
  end.

(** A call through a hook pointer that may be NULL, for hooks that do
    [run_hook] when they are called: a hook runs in the state it is called
    in and leaves a state of its own, or does not return. *)
Definition call_hook (run_hook : hook -> M unit) (h : option hook) : M unit :=
  match h with
  | Some f => run_hook f
  | None => skip
  end.

(** The hook as a test double: the call is recorded and nothing else
    happens. *)
Definition record_call (h : hook) : M unit := emit (Call h).

(** [switch_type(devtype)] *)
Definition switch_type_with (run_hook : hook -> M unit) (devtype : gps_type_t)
  : M bool :=
  match find_monitor monitor_objects (type_name devtype) with
  | Some newobject =>
      s ← get;
      (if (LINES s <? min_y newobject + 1)%Z || (COLS s <? min_x newobject)%Z
       then
         complain "%s requires %dx%d screen"
           [AStr (type_name (driver newobject)); AInt (min_x newobject);
            AInt (min_y newobject + 1)]
       else
         match active s with
         | Some a => call_hook run_hook (wrap a)
         | None => skip
         end;;
         modify (with_active (Some newobject));;
         emit Clearok;;
         emit Clear);;
      mret true
  | None =>
      complain "No monitor matches %s." [AStr (type_name devtype)];;
      mret false
  end.

(** [switch_type] with the hooks recorded in the trace. *)
Definition switch_type : gps_type_t -> M bool := switch_type_with record_call.

(** The device type [select_packet_monitor] looks a monitor up for. *)
Definition lookup_target (device : gps_device_t) (dt : gps_type_t) : gps_type_t :=
  if (NMEA_PACKET E =? lexer_type device)%Z
     && negb (Z.land (flags dt) (DRIVER_STICKY E) =? 0)%Z
  then driver_nmea0183 E
  else dt.

(** The call of the update hook at the end of [select_packet_monitor]. *)
Definition update_call (run_hook : hook -> M unit) : M unit :=
  s ← get;
  match active s with
  | Some a =>
      if (0 <? lexer_outbuflen (session s)) then call_hook run_hook (update a) else skip
  | None => skip
  end.

(** [select_packet_monitor(device)], with [device] the session.  A NULL
    [device->device_type] is dereferenced where the source dereferences
    it. *)
Definition select_packet_monitor_with (run_hook : hook -> M unit) : M unit :=
  s ← get;
  (if negb (lexer_type (session s) =? last_type s)%Z then
     match device_type (session s) with
     | None => fault
     | Some dt =>
         ok ← switch_type_with run_hook (lookup_target (session s) dt);
         (if negb ok then longjmp TERM_DRIVER_SWITCH
          else emit RefreshStatwin;; emit RefreshCmdwin);;
         s1 ← get;
         modify (with_last_type (lexer_type (session s1)))
     end
   else skip);;
  update_call run_hook.

(** [select_packet_monitor] with the hooks recorded in the trace. *)
Definition select_packet_monitor : M unit := select_packet_monitor_with record_call.

(** ** The per-packet hook *)

Definition DQUOTE : ascii := "034"%char.

(** The JSON text [{ "class" : cls ,] without its blanks, as the source
    spells it. *)
Definition class_prefix (cls : string) : list ascii :=
  lit "{" ++ [DQUOTE] ++ lit "class" ++ [DQUOTE] ++ lit ":"
  ++ [DQUOTE] ++ lit cls ++ [DQUOTE] ++ lit ",".

Definition TOFF_PREFIX : list ascii := class_prefix "TOFF".

Definition PPS_PREFIX : list ascii := class_prefix "PPS".

(** What follows the choice of the report text in [gpsmon_hook]: the report
    itself, the raw bytes to the log, and the latch of a new fix second. *)
Definition hook_report_and_latch (what : string) : M unit :=
  s ← get;
  let device := session s in
  emit ReportLock;;
  (if negb (curses_active s) then emit (Stdout what) else skip);;
  (match logfile s with
   | Some _ =>
       if 0 <? lexer_outbuflen device then
         emit (Fwrite (take (lexer_outbuflen device) (lexer_outbuffer device)));;
         (if (fwrite_count E (take (lexer_outbuflen device) (lexer_outbuffer device)) >=? 1)%Z
          then skip else abort)
       else skip
   | None => skip
   end);;
  emit ReportUnlock;;
  if (0 >=? tv_sec (newdata_time device))%Z then skip
  else if (tv_sec (newdata_time device) <=? tv_sec (real (fix_in device)))%Z then skip
  else emit (NtpLatch (time_offset s)).

(** The packet as a C string, [(char * )device->lexer.outbuffer]. *)
Definition outbuffer_text (s : gpsmon) : list ascii :=
  c_str (lexer_outbuffer (session s)) 0.

(** The branch of [gpsmon_hook] for a TOFF report of the daemon: both of its
    arms return from the hook. *)
Definition hook_toff : M unit :=
  s ← get;
  let status := fst (json_toff_read E (outbuffer_text s)) in
  let toff := snd (json_toff_read E (outbuffer_text s)) in
  modify (with_session (with_gpsdata_toff toff));;
  if negb (status =? 0)%Z then
    complain "Ill-formed TOFF packet: %d (%s)" [AInt status]
  else
    (if negb (curses_active s) then emit (Stderr "TOFF=%s real=%s") else skip);;
    modify (with_time_offset toff).

(** The branch for a PPS report of the daemon. *)
Definition hook_pps : M unit :=
  s ← get;
  let status := fst (json_pps_read E (outbuffer_text s)) in
  let pps := snd (json_pps_read E (outbuffer_text s)) in
  if negb (status =? 0)%Z then
    complain "Ill-formed PPS packet: %d (%s)" [AInt status]
  else
    (if negb (curses_active s)
     then emit (Stderr "PPS=%.20s clock=%.20s offset=%.20s") else skip);;
    modify (with_session (fun d => with_pps_out pps (ppsout_count d + 1) d));;
    hook_report_and_latch "PPS offset".

(** The classes of packet the hook tells apart. *)
Definition toff_event (s : gpsmon) : bool :=
  SOCKET_EXPORT_ENABLE E && negb (serial s)
  && str_starts_with (outbuffer_text s) TOFF_PREFIX.

Definition pps_event (s : gpsmon) : bool :=
  SOCKET_EXPORT_ENABLE E && negb (serial s)
  && str_starts_with (outbuffer_text s) PPS_PREFIX.

(** [gpsmon_hook(device, changed)], with [device] the session.  The text of
    a report is what [snprintf] and [cond_hexdump] make of the packet; the
    trace records which report it is. *)
Definition gpsmon_hook : M unit :=
  s ← get;
  if toff_event s then hook_toff
  else if pps_event s then hook_pps
  else hook_report_and_latch "packet dump".

(** ** The command processor *)

(** The [for] loop that starts at [arg = line + 2] and runs while the byte
    at [arg] is white space and not NUL, with [arg++] both as its body and
    as its step; [arg] is an offset into the line.  Every round moves [arg]
    by two, and a read beyond the line yields NUL, so [length line] rounds
    are enough. *)
Fixpoint skip_arg (fuel : nat) (line : list ascii) (arg : nat) : nat :=
  match fuel with
  | 0 => arg
  | S fuel' =>
      if negb (is_char (peek line arg) NUL) && isspace (peek line arg)
      then skip_arg fuel' line (arg + 2)
      else arg
  end.

(** [arg], as an offset into [line]: behind the loop comes one more
    [arg++]. *)
Definition command_arg (line : list ascii) : nat :=
  if isspace (peek line 1) then S (skip_arg (length line) line 2) else 1.

(** Conversion of an [unsigned int] to [int]. *)
Definition to_int (z : Z) : Z := (if z <? 2 ^ 31 then z else z - 2 ^ 32)%Z.

(** [d->speed_switcher != NULL] and [d->rate_switcher != NULL] *)
Definition has_speed_switcher (d : gps_type_t) : bool :=
  bool_decide (is_Some (speed_switcher d)).

Definition has_rate_switcher (d : gps_type_t) : bool :=
  bool_decide (is_Some (rate_switcher d)).

(** [switcher = session.device_type; if (fallback != NULL && fallback->m != NULL)
    switcher = fallback;] *)
Definition pick_switcher (has : gps_type_t -> bool) (s : gpsmon) (dt : gps_type_t)
  : gps_type_t :=
  match fallback s with
  | Some f => if has f then f else dt
  | None => dt
  end.

(** [strcspn(line, "01") == strlen(line)] *)
Definition no_01 (line : list ascii) : bool :=
  strcspn (c_str line 0) (lit "01") =? length (c_str line 0).

Definition command_c (line : list ascii) : M unit :=
  s ← get;
  match device_type (session s) with
  | None => complain "No device defined yet" []
  | Some dt =>
      if negb (serial s) then complain "Only available in low-level mode." []
      else
        let rate : double := c_str line (command_arg line) in
        let switcher := pick_switcher has_rate_switcher s dt in
        match rate_switcher switcher with
        | Some f =>
            modify (with_readonly false);;
            emit (RateSwitcher (type_name switcher) rate);;
            (if f rate then announce_log "[Rate switcher called.]" []
             else complain "Rate not supported." []);;
            modify (with_readonly true)
        | None =>
            complain "Device type %s has no rate switcher" [AStr (type_name switcher)]
        end
  end.

Definition command_i (line : list ascii) : M unit :=
  s ← get;
  match device_type (session s) with
  | None => complain "No GPS type detected." []
  | Some _ =>
      if negb (serial s) then complain "Only available in low-level mode." []
      else
        (if no_01 line then modify (fun s => with_readonly (negb (readonly s)) s)
         else modify (with_readonly (atoi (c_str line 1) =? 0)%Z));;
        s' ← get;
        announce_log "[probing %sabled]"
          [AStr (if readonly s' then lit "dis" else lit "en")];;
        if negb (readonly s')
        then modify (with_session (with_lexer_counter 0))
        else skip
  end.

Definition command_n (line : list ascii) : M unit :=
  s ← get;
  let v : Z :=
    if no_01 line
    then (if TEXTUAL_PACKET_TYPE E (lexer_type (session s)) then 1 else 0)%Z
    else to_unsigned (atoi (c_str line 1)) in
  match device_type (session s) with
  | None => complain "No device defined yet" []
  | Some dt =>
      if negb (serial s) then complain "Only available in low-level mode." []
      else
        let switcher := pick_switcher mode_switcher s dt in
        if mode_switcher switcher then
          modify (with_readonly false);;
          announce_log "[Mode switcher to mode %d]" [AInt v];;
          emit (ModeSwitcher (type_name switcher) (to_int v));;
          modify (with_readonly true);;
          emit Tcdrain;;
          emit (Nanosleep 50000000);;
          (if (v =? 0)%Z then modify (with_fallback (Some switcher)) else skip)
        else
          complain "Device type %s has no mode switcher" [AStr (type_name switcher)]
  end.

(** Case ['l'].  Its [break] is the body of the [if] on the result of
    [fopen]; when the log cannot be opened, control runs on into
    case ['n']. *)
Definition command_l (line : list ascii) : M unit :=
  s ← get;
  (match logfile s with
   | Some p => emit (Fclose p)
   | None => skip
   end);;
  let path := c_str line 1 in
  emit (Fopen path "a");;
  if fopen_ok E path "a" then modify (with_logfile (Some path))
  else modify (with_logfile None);; command_n line.

(** The call of the speed switcher at the end of case ['s']. *)
Definition speed_switch (line : list ascii) (switcher : gps_type_t)
    (parity : ascii) (stopbits : Z) : M unit :=
  let speed := to_unsigned (atoi (c_str line (command_arg line))) in
  match speed_switcher switcher with
  | Some f =>
      modify (with_readonly false);;
      emit (SpeedSwitcher (type_name switcher) speed parity (to_int stopbits));;
      (if f speed parity (to_int stopbits) then
         announce_log "[Speed switcher called.]" [];;
         emit Tcdrain;;
         emit (Nanosleep 50000000);;
         emit (GpsdSetSpeed speed parity stopbits)
       else complain "Speed/mode combination not supported." []);;
      modify (with_readonly true)
  | None =>
      complain "Device type %s has no speed switcher" [AStr (type_name switcher)]
  end.

Definition command_s (line : list ascii) : M unit :=
  s ← get;
  match device_type (session s) with
  | None => complain "No device defined yet" []
  | Some dt =>
      if negb (serial s) then complain "Only available in low-level mode." []
      else
        let arg := command_arg line in
        let switcher := pick_switcher has_speed_switcher s dt in
        match index_of ":" (c_str line arg) with
        | Some k =>
            let modespec := arg + k in
            if negb (strchr_in "78" (peek line (modespec + 1))) then
              complain "No support for that word length." []
            else
              let parity := peek line (modespec + 2) in
              if negb (strchr_in "NOE" parity) then
                complain "What parity is '%c'?." [AChar parity]
              else
                let stopbits := peek line (modespec + 3) in
                if negb (strchr_in "12" stopbits) then
                  complain "Stop bits must be 1 or 2." []
                else
                  speed_switch line switcher parity
                    (to_unsigned (Z.of_nat (chr stopbits) - 48))
        | None =>
            speed_switch line switcher (dev_parity (session s))
              (to_unsigned (dev_stopbits (session s)))
        end
  end.

Definition command_t (line : list ascii) : M unit :=
  s ← get;
  if negb (serial s) then complain "Only available in low-level mode." []
  else
    let arg := c_str line (command_arg line) in
    if 0 <? length arg then
      let matching := filter (fun d => strstr (type_name d) arg = true) (gpsd_drivers E) in
      match last matching with
      | None => complain "No driver type matches '%s'." [AStr arg]
      | Some forcetype =>
          if length matching =? 1 then
            (ok ← switch_type forcetype;
             if (ok : bool) then emit (GpsdSwitchDriver (type_name forcetype)) else skip)
          else complain "Multiple driver type names match '%s'." [AStr arg]
      end
    else skip.

(** [monitor_control_send(buf, len)] *)
Definition monitor_control_send (bytes : list ascii) : M bool :=
  s ← get;
  if negb (serial s) then mret false
  else
    modify (with_readonly false);;
    match device_type (session s) with
    | Some dt =>
        match control_send dt with
        | Some f =>
            emit (ControlSend (type_name dt) bytes);;
            modify (with_readonly true);;
            mret (negb (f bytes =? -1)%Z)
        | None => fault
        end
    | None => fault
    end.

(** [monitor_raw_send(buf, len)] *)
Definition monitor_raw_send (bytes : list ascii) : M bool :=
  emit (GpsdWrite bytes);;
  let st := gpsd_write E bytes in
  mret ((0 <? st)%Z && (st =? Z.of_nat (length bytes))%Z).

Definition command_x (line : list ascii) : M unit :=
  s ← get;
  match device_type (session s) with
  | None => complain "No device defined yet" []
  | Some dt =>
      if negb (serial s) then complain "Only available in low-level mode." []
      else
        let st := fst (gpsd_hexpack E (c_str line (command_arg line))) in
        let buf := snd (gpsd_hexpack E (c_str line (command_arg line))) in
        if (st <? 0)%Z then complain "Invalid hex string (error %d)" [AInt st]
        else if negb (bool_decide (is_Some (control_send dt))) then
          complain "Device type %s has no control-send method." [AStr (type_name dt)]
        else
          (ok ← monitor_control_send (take (Z.to_nat st) buf);
           if negb ok then complain "Control send failed." [] else skip)
  end.

Definition command_X (line : list ascii) : M unit :=
  s ← get;
  if negb (serial s) then complain "Only available in low-level mode." []
  else
    let len := fst (gpsd_hexpack E (c_str line (command_arg line))) in
    let buf := snd (gpsd_hexpack E (c_str line (command_arg line))) in
    if (len <? 0)%Z then complain "Invalid hex string (error %lu)" [AInt len]
    else
      (ok ← monitor_raw_send (take (Z.to_nat len) buf);
       if negb ok then complain "Raw send failed." [] else skip).

(** [do_command(line)]: false to quit, true to go on accepting commands. *)
Definition do_command (line : list ascii) : M bool :=
  let verb := peek line 0 in
  if is_char verb "c" then command_c line;; mret true
  else if is_char verb "i" then command_i line;; mret true
  else if is_char verb "l" then command_l line;; mret true
  else if is_char verb "n" then command_n line;; mret true
  else if is_char verb "q" then mret false
  else if is_char verb "s" then command_s line;; mret true
  else if is_char verb "t" then command_t line;; mret true
  else if is_char verb "x" then command_x line;; mret true
  else if is_char verb "X" then command_X line;; mret true
  else complain "Unknown command '%c'" [AChar verb];; mret true.

(** ** The shutdown path of [main], from the label [quit] on *)

Definition newline : string := String LF EmptyString.

Definition explanation (bailout : Z) : option string :=
  if (bailout =? TERM_SELECT_FAILED)%Z then
    Some ("I/O wait on device failed" ++ newline)%string
  else if (bailout =? TERM_DRIVER_SWITCH)%Z then
    Some ("Driver type switch failed" ++ newline)%string
  else if (bailout =? TERM_EMPTY_READ)%Z then
    Some ("Device went offline" ++ newline)%string
  else if (bailout =? TERM_READ_ERROR)%Z then
    Some ("Read error from device" ++ newline)%string
  else if (bailout =? TERM_SIGNAL)%Z || (bailout =? TERM_QUIT)%Z then
    None
  else
    Some ("Unknown error, should never happen." ++ newline)%string.

Definition quit (bailout : Z) : M unit :=
  s ← get;
  (if serial s then emit PpsThreadDeactivate else skip);;
  emit GpsdClose;;
  (match logfile s with
   | Some p => emit (Fclose p)
   | None => skip
   end);;
  (if curses_active s then skip else emit TcsetattrCooked);;
  (match explanation bailout with
   | Some text => emit (Stderr text)
   | None => skip
   end);;
  emit (Exit EXIT_SUCCESS).

End Gpsmon.

(** ** monitor_nmea0183.c *)

Section Nmea.

(** Macros of timespec.h, which is not among the sources. *)
Variable TS_SUB : timespec -> timespec -> timespec.
Variable TS_GZ : timespec -> bool.
Variable TS_GT : timespec -> timespec -> bool.

(** The file's statics; [sentences] is an array of 132 bytes. *)
Record nmea_statics := {
  sentences : list ascii;
  last_tick : timespec;
  tick_interval : timespec;
}.

Definition SENTENCES_SIZE : nat := 132.


(** The bookkeeping of sentence tags in [nmea_update]: a tag not yet in
    [sentences] is appended behind a blank when it fits below [xmax - 2],
    and otherwise the last three bytes of the string become dots. *)
Definition note_sentence (xmax : Z) (tag : list ascii) (buf : list ascii)
  : option (list ascii) :=
  if strstr (c_str buf 0) tag then Some buf
  else
    n ← strlen buf 0;
    if (to_int (to_unsigned (Z.of_nat (n + length tag))) <? xmax - 2)%Z then
      b ← poke buf n SPACE;
      store b (S n) (take (SENTENCES_SIZE - 1) tag ++ [NUL])
    else
      match n with
      | S (S (S m)) =>
          b1 ← poke buf (S (S m)) "."%char;
          b2 ← poke b1 (S m) "."%char;
          poke b2 m "."%char
      | _ => None
      end.

(** [nmea_update()].  [ymax] and [xmax] are locals the function declares and
    never assigns: their values are whatever the stack holds, so they are
    inputs of the model.  [now] is the clock reading; [outbuffer] and
    [fields] are [session.lexer.outbuffer] and [session.nmea.field], a
    field being NULL or a C string.  Of the satellite table that follows
    the bookkeeping only the comparison of [fields[1]] with [fields[2]] is
    kept, the rest being output. *)
Definition nmea_update (ymax xmax : Z) (now : timespec) (outbuffer : list ascii)
    (fields : option (list (option (list ascii)))) (st : nmea_statics)
  : outcome nmea_statics unit :=
  match fields with
  | Some (Some tag :: more) =>
      if is_char (peek outbuffer 0) "$" then
        if negb (ymax >? 0)%Z then Abort st
        else
          match note_sentence xmax tag (sentences st) with
          | None => Fault
          | Some buf =>
              let ts_diff := TS_SUB now (last_tick st) in
              let st' :=
                {| sentences := buf;
                   last_tick := now;
                   tick_interval :=
                     if TS_GZ ts_diff && TS_GT ts_diff (tick_interval st)
                     then ts_diff else tick_interval st |} in
              if (4 <? length tag) && streq (drop 2 tag) (lit "GSV") then
                match more with
                | Some _ :: Some _ :: _ => Ret tt st'
                | _ => Fault
                end
              else Ret tt st'
          end
      else Ret tt st
  | _ => Ret tt st
  end.

(** [nmea_wrap()] *)
Definition nmea_wrap (st : nmea_statics) : outcome nmea_statics unit := Ret tt st.

End Nmea.

(** ** The trace a call adds, and the latch calls in it *)

Definition added (before after : gpsmon) : list event :=
  drop (length (trace before)) (trace after).

Fixpoint latches (evs : list event) : list timedelta_t :=
  match evs with
  | NtpLatch td :: evs' => td :: latches evs'
  | _ :: evs' => latches evs'
  | [] => []
  end.

Fixpoint stderr_texts (evs : list event) : list string :=
  match evs with
  | Stderr text :: evs' => text :: stderr_texts evs'
  | _ :: evs' => stderr_texts evs'
  | [] => []
  end.

(** Whether the fix time of the packet is positive and newer than the
    reference fix time. *)
Definition new_fix_second (d : gps_device_t) : bool :=
  (0 <? tv_sec (newdata_time d))%Z
  && (tv_sec (real (fix_in d)) <? tv_sec (newdata_time d))%Z.

(** The call of the wrap hook of the outgoing handler. *)
Definition wrap_events (old : option monitor_object_t) : list event :=
  match old with
  | Some a => match wrap a with Some h => [Call h] | None => [] end
  | None => []
  end.

(** The wrap hook of the outgoing handler, if there is one of each. *)
Definition leave_hook (old : option monitor_object_t) : option hook :=
  match old with
  | Some a => wrap a
  | None => None
  end.

(** What [switch_type] does once the outgoing handler is wrapped: the
    selection is replaced and the screen cleared. *)
Definition replace_and_clear (newobject : monitor_object_t) (s : gpsmon) : gpsmon :=
  with_trace (trace (with_active (Some newobject) s) ++ [Clearok; Clear])
    (with_active (Some newobject) s).

(** A hook that reports the handler it finds active when it is called. *)
Definition probe_active (h : hook) : M unit :=
  s ← get;
  emit (Call h);;
  complain "active: %s"
    [AStr (match active s with Some a => type_name (driver a) | None => [] end)].

(** The size test of [switch_type]. *)
Definition too_small (s : gpsmon) (m : monitor_object_t) : bool :=
  (LINES s <? min_y m + 1)%Z || (COLS s <? min_x m)%Z.

(** The result of [do_command] for a verb that ends in [break]. *)
Definition and_continue (r : outcome gpsmon unit) : outcome gpsmon bool :=
  match r with
  | Ret _ s' => Ret true s'
  | Longjmp code s' => Longjmp code s'
  | Abort s' => Abort s'
  | Fault => Fault
  end.

(** The mode case ['n'] asks for. *)
Definition requested_mode (E : externals) (line : list ascii) (s : gpsmon) : Z :=
  if no_01 line
  then (if TEXTUAL_PACKET_TYPE E (lexer_type (session s)) then 1 else 0)%Z
  else to_unsigned (atoi (c_str line 1)).

(** The assertion on the count [fwrite] returns holds, or is not reached. *)
Definition log_write_ok (E : externals) (s : gpsmon) : bool :=
  match logfile s with
  | Some _ =>
      if 0 <? lexer_outbuflen (session s) then
        (fwrite_count E (take (lexer_outbuflen (session s))
                           (lexer_outbuffer (session s))) >=? 1)%Z
      else true
  | None => true
  end.

(** The message of the [default] case of the shutdown switch. *)
Definition unknown_error : string :=
  ("Unknown error, should never happen." ++ newline)%string.

(** ** Sample values for what lies outside the sources *)

Definition zero_time : timespec := {| tv_sec := 0; tv_nsec := 0 |}.

Definition zero_delta : timedelta_t := {| real := zero_time; clock := zero_time |}.

Definition sample_toff : timedelta_t :=
  {| real := {| tv_sec := 1700000000; tv_nsec := 0 |};
     clock := {| tv_sec := 1700000000; tv_nsec := 1500 |} |}.

Definition sample_nmea0183 : gps_type_t :=
  {| type_name := lit "NMEA0183"; flags := 0; mode_switcher := false;
     speed_switcher := None; rate_switcher := None; control_send := None |}.

Definition sample_json : gps_type_t :=
  {| type_name := lit "JSON slave driver"; flags := 0; mode_switcher := false;
     speed_switcher := None; rate_switcher := None; control_send := None |}.

(** A driver with the sticky flag and every method. *)
Definition sample_sticky : gps_type_t :=
  {| type_name := lit "u-blox"; flags := 1; mode_switcher := true;
     speed_switcher := Some (fun _ _ _ => true);
     rate_switcher := Some (fun _ => true);
     control_send := Some (fun bytes => Z.of_nat (length bytes)) |}.

Definition sample_externals : externals :=
  {| BAD_PACKET := -1;
     NMEA_PACKET := 1;
     DRIVER_STICKY := 1;
     TEXTUAL_PACKET_TYPE := fun n => (1 <=? n)%Z && (n <=? 3)%Z;
     SOCKET_EXPORT_ENABLE := true;
     driver_nmea0183 := sample_nmea0183;
     driver_json_passthrough := sample_json;
     gpsd_drivers := [sample_nmea0183; sample_sticky; sample_json];
     fopen_ok := fun _ _ => false;
     fwrite_count := fun bytes => Z.of_nat (length bytes);
     json_toff_read := fun _ => (0%Z, sample_toff);
     json_pps_read := fun _ => (0%Z, sample_toff);
     gpsd_hexpack := fun _ => ((-1)%Z, []);
     gpsd_write := fun bytes => Z.of_nat (length bytes) |}.

Definition sample_device : gps_device_t :=
  {| device_type := Some sample_sticky;
     lexer_type := 1;
     lexer_counter := 7;
     lexer_outbuffer := lit "$GPGGA,1" ++ [NUL];
     lexer_outbuflen := 8;
     dev_parity := "N"%char;
     dev_stopbits := 1;
     gpsdata_toff := zero_delta;
     newdata_time := {| tv_sec := 100; tv_nsec := 0 |};
     fix_in := {| real := {| tv_sec := 50; tv_nsec := 0 |}; clock := zero_time |};
     pps_out := zero_delta;
     ppsout_count := 0 |}.

(** A direct connection to a sticky device that sends NMEA, on an 80x24
    screen showing the JSON monitor. *)
Definition sample_state : gpsmon :=
  {| session := sample_device;
     readonly := false;
     serial := true;
     curses_active := false;
     logfile := None;
     fallback := None;
     active := Some (json_mmt sample_externals);
     last_type := BAD_PACKET sample_externals;
     time_offset := zero_delta;
     LINES := 24;
     COLS := 80;
     trace := [] |}.

(** The same session with the NMEA monitor on the screen. *)
Definition nmea_showing : gpsmon :=
  with_active (Some (nmea_mmt sample_externals)) sample_state.

(** The same session relayed by a daemon, holding a TOFF report. *)
Definition sample_toff_state : gpsmon :=
  {| session :=
       {| device_type := Some sample_json;
          lexer_type := 1;
          lexer_counter := 0;
          lexer_outbuffer := TOFF_PREFIX ++ lit "}" ++ [NUL];
          lexer_outbuflen := 18;
          dev_parity := "N"%char;
          dev_stopbits := 1;
          gpsdata_toff := zero_delta;
          newdata_time := {| tv_sec := 100; tv_nsec := 0 |};
          fix_in := {| real := {| tv_sec := 50; tv_nsec := 0 |}; clock := zero_time |};
          pps_out := zero_delta;
          ppsout_count := 0 |};
     readonly := true;
     serial := false;
     curses_active := false;
     logfile := None;
     fallback := None;
     active := Some (json_mmt sample_externals);
     last_type := 1;
     time_offset := zero_delta;
     LINES := 24;
     COLS := 80;
     trace := [] |}.

(** The statics of the NMEA handler after a GGA sentence, and the macros of
    timespec.h without their normalization. *)
Definition sample_statics : nmea_statics :=
  {| sentences := lit "GPGGA" ++ replicate 127 NUL;
     last_tick := zero_time;
     tick_interval := zero_time |}.

Definition sample_TS_SUB (a b : timespec) : timespec :=
  {| tv_sec := tv_sec a - tv_sec b; tv_nsec := tv_nsec a - tv_nsec b |}.

Definition sample_TS_GZ (a : timespec) : bool :=
  (0 <? tv_sec a)%Z || (0 <? tv_nsec a)%Z.

Definition sample_TS_GT (a b : timespec) : bool :=
  (tv_sec b <? tv_sec a)%Z || ((tv_sec a =? tv_sec b)%Z && (tv_nsec b <? tv_nsec a)%Z).

(** ** Statements that do not hold of the code, named to be refuted *)

(** A completed switch calls the initialize hook of the incoming handler. *)
Definition switch_calls_initialize (E : externals) (devtype : gps_type_t)
    (s : gpsmon) : Prop :=
  forall s' newobject h,
    find_monitor (monitor_objects E) (type_name devtype) = Some newobject ->
    too_small s newobject = false ->
    switch_type E devtype s = Ret true s' ->
    initialize newobject = Some h ->
    In (Call h) (added s s').

(** For a sticky device type and an NMEA packet the lookup keeps the
    device's own descriptor. *)
Definition sticky_keeps_descriptor (E : externals) (device : gps_device_t)
    (dt : gps_type_t) : Prop :=
  lexer_type device = NMEA_PACKET E ->
  Z.land (flags dt) (DRIVER_STICKY E) <> 0%Z ->
  lookup_target E device dt = dt.

(** Every packet whose fix time is new to the reference is latched. *)
Definition every_new_fix_latched (E : externals) (s : gpsmon) : Prop :=
  forall s',
    gpsmon_hook E s = Ret tt s' ->
    new_fix_second (session s) = true ->
    latches (added s s') = [time_offset s'].

(** Whenever ['i'] leaves probing disabled, the retry counter is zero. *)
Definition disabling_resets_counter (E : externals) (line : list ascii)
    (s : gpsmon) : Prop :=
  forall s',
    do_command E line s = Ret true s' ->
    readonly s' = true ->
    lexer_counter (session s') = 0%Z.

(** ** Further definitions: the rest of the dump and log helpers *)

(** The full hex dump of a byte string: two digits a byte. *)
Definition hex_text (x : list ascii) : list ascii := concat (map fmt_02x x).

Definition is_hex_digit (c : ascii) : bool :=
  existsb (is_char c) (lit "0123456789abcdef").

(** The pieces [visibilize] has to append, one for every byte before the
    terminator of the source. *)
Fixpoint visibilize_pieces (sp : list ascii) : list (list ascii) :=
  match sp with
  | [] => []
  | c :: rest =>
      if is_char c NUL then [] else visibilize_piece c rest :: visibilize_pieces rest
  end.

(** [packet_dump(buf, buflen)]: the dump goes to a local array of
    [MAX_PACKET_LENGTH * 2] bytes, [stack] being what that array holds on
    entry, and is given [buflen * 2] as its size.  The source drops the
    result; the model returns the array, to show where it was written. *)
Definition packet_dump (textual : bool) (stack : list ascii) (buf : list ascii)
    (buflen : nat) : option (list ascii) :=
  cond_hexdump textual stack
    (N.to_nat ((N.of_nat buflen * 2) mod SIZE_MOD)) buf buflen.

(** [monitor_dump_send(buf, len)] *)
Definition monitor_dump_send (textual : bool) (stack : list ascii)
    (buf : list ascii) (len : nat) : option (list ascii) :=
  packet_dump textual stack buf len.


(** [packet_vlog(buf, len, fmt, ap)] up to the call of [gpsmon_report]:
    [stack] is what the local array [buf2] holds on entry, so that
    [sizeof(buf2)] is its length, and [msg] is what the format expands to.
    The value is the array the report is given. *)
Definition packet_vlog (stack : list ascii) (buf : list ascii) (len : nat)
    (msg : list ascii) : option (list ascii) :=
  b ← visibilize stack (length stack) buf;
  k ← strlen b 0;
  snprintf b k (N.of_nat len) msg.

(** [packet_log(fmt, ...)]: [stack1] is the local array [buf], [stack2] the
    one of [packet_vlog]. *)
Definition packet_log (stack1 stack2 : list ascii) (msg : list ascii)
  : option (list ascii) :=
  b ← poke stack1 0 NUL;
  packet_vlog stack2 b (length stack1) msg.

(** ["%d"] of an [int], which has at most ten digits. *)
Definition digit_char (n : N) : ascii := ascii_of_nat (48 + N.to_nat n).

Fixpoint fmt_u_loop (fuel : nat) (n : N) (acc : list ascii) : list ascii :=
  match fuel with
  | 0 => acc
  | S fuel' =>
      let acc' := digit_char (n mod 10) :: acc in
      if (n <? 10)%N then acc' else fmt_u_loop fuel' (n / 10) acc'
  end.

Definition fmt_d (z : Z) : list ascii :=
  if (z <? 0)%Z then "-"%char :: fmt_u_loop 10 (Z.to_N (- z)) []
  else fmt_u_loop 10 (Z.to_N z) [].

(** ["(%d) "] of [(int)device->lexer.outbuflen] *)
Definition packet_count_prefix (outbuflen : nat) : list ascii :=
  lit "(" ++ fmt_d (to_int (to_unsigned (Z.of_nat outbuflen))) ++ lit ") ".

(** [strlcat(dst, src, size)]: nothing is stored when the first [size]
    bytes of [dst] hold no terminator; otherwise as much of [src] follows
    the string as leaves room for the terminator. *)
Definition strlcat (dst : list ascii) (src : list ascii) (size : nat)
  : option (list ascii) :=
  match strlen dst 0 with
  | Some n =>
      if size <=? n then Some dst
      else store dst n (take (size - n - 1) src ++ [NUL])
  | None => if size <=? length dst then Some dst else None
  end.

(** The text of the report in the last branch of [gpsmon_hook]: [stack] is
    what the local array [buf] holds on entry.  [cond_hexdump] is given the
    array from the terminator of the count on. *)
Definition hook_packet_line (textual : bool) (stack : list ascii)
    (outbuffer : list ascii) (outbuflen : nat) : option (list ascii) :=
  b ← snprintf stack 0 (N.of_nat (length stack)) (packet_count_prefix outbuflen);
  k ← strlen b 0;
  out ← cond_hexdump textual (drop k b)
           (N.to_nat (size_sub (N.of_nat (length stack)) (N.of_nat k)))
           outbuffer outbuflen;
  strlcat (take k b ++ out) [LF] (length stack).

(** ** What a command may do *)

(** What [do_command] leaves alone: the connection mode, the display mode,
    the statics of the packet path, the screen size, and what the trace
    held. *)
Definition command_frame (s s' : gpsmon) : Prop :=
  serial s' = serial s
  /\ curses_active s' = curses_active s
  /\ last_type s' = last_type s
  /\ time_offset s' = time_offset s
  /\ LINES s' = LINES s
  /\ COLS s' = COLS s
  /\ exists evs, trace s' = trace s ++ evs.

(** Calls that are given the session, or may reach it: the methods of the
    driver, the library calls on the device, and the hooks of a monitor. *)
Definition reaches_session (e : event) : bool :=
  match e with
  | ModeSwitcher _ _ | SpeedSwitcher _ _ _ _ | RateSwitcher _ _ | ControlSend _ _
  | GpsdWrite _ | GpsdSetSpeed _ _ _ | GpsdSwitchDriver _ | Call _ => true
  | _ => false
  end.

(** Calls that reach the device or its driver. *)
Definition device_call (e : event) : bool :=
  match e with
  | ModeSwitcher _ _ | SpeedSwitcher _ _ _ _ | RateSwitcher _ _ | ControlSend _ _
  | GpsdWrite _ | Tcdrain | Nanosleep _ | GpsdSetSpeed _ _ _
  | GpsdSwitchDriver _ => true
  | _ => false
  end.

(** Calls of a method of the driver. *)
Definition driver_method (e : event) : bool :=
  match e with
  | ModeSwitcher _ _ | SpeedSwitcher _ _ _ _ | RateSwitcher _ _ | ControlSend _ _ => true
  | _ => false
  end.

(** What a command refused for want of a direct connection leaves alone. *)
Definition untouched (s s' : gpsmon) : Prop :=
  readonly s' = readonly s /\ session s' = session s
  /\ active s' = active s /\ fallback s' = fallback s.

(** What one pass over the verbs of [do_command], and over every test
    behind them, establishes of a command. *)
Definition command_effects (s s' : gpsmon) : Prop :=
  command_frame s s'
  /\ exists evs,
       trace s' = trace s ++ evs
       /\ (serial s = false -> existsb device_call evs = false /\ untouched s s')
       /\ (existsb driver_method evs = true -> readonly s' = true)
       /\ (existsb reaches_session evs = false ->
           session s' = session s
           \/ session s' = with_lexer_counter 0 (session s)).

(** ** Around the packet hook *)

(** A hook semantics that leaves the packet type and the type last seen
    alone.  The type last seen is a static of [select_packet_monitor]; the
    type of the packet is set by the packet getter. *)
Definition keeps_packet_type (run_hook : hook -> M unit) : Prop :=
  forall h t t',
    run_hook h t = Ret tt t' ->
    lexer_type (session t') = lexer_type (session t) /\ last_type t' = last_type t.

(** How often the reporting lock is held at the end of a trace that starts
    with the lock free. *)
Fixpoint locks_held (evs : list event) : Z :=
  match evs with
  | ReportLock :: evs' => (locks_held evs' + 1)%Z
  | ReportUnlock :: evs' => (locks_held evs' - 1)%Z
  | _ :: evs' => locks_held evs'
  | [] => 0%Z
  end.

(** A PPS report of the daemon that [json_pps_read] accepts. *)
Definition pps_accepted (E : externals) (s : gpsmon) : bool :=
  negb (toff_event E s) && pps_event E s
  && (fst (json_pps_read E (outbuffer_text s)) =? 0)%Z.

(** What a packet does to the PPS bookkeeping of the session. *)
Definition pps_bookkeeping (E : externals) (s s' : gpsmon) : Prop :=
  ppsout_count (session s')
  = (ppsout_count (session s) + (if pps_accepted E s then 1 else 0))%Z
  /\ pps_out (session s')
     = (if pps_accepted E s then snd (json_pps_read E (outbuffer_text s))
        else pps_out (session s)).

(** ** Signals and the start of [main] *)

(** The two [jmp_buf]s a handler may jump to. *)
Inductive jump := to_assertbuf | to_terminate (code : Z).

(** [onsig(sig)]; [SIGABRT] is the number <signal.h> gives it. *)
Definition onsig (SIGABRT : Z) (sig : Z) : jump :=
  if (sig =? SIGABRT)%Z then to_assertbuf else to_terminate TERM_SIGNAL.

(** The block behind [setjmp(assertbuf) > 0]. *)
Definition assertion_exit : M unit :=
  s ← get;
  (match logfile s with
   | Some p => emit (Fclose p)
   | None => skip
   end);;
  emit (Stderr ("gpsmon: assertion failure, probable I/O error" ++ newline)%string);;
  emit (Exit EXIT_FAILURE).

(** Where a jump lands in [main]: in that block, or at the label [quit]
    with [bailout] set. *)
Definition landing (j : jump) : M unit :=
  match j with
  | to_assertbuf => assertion_exit
  | to_terminate code => quit code
  end.

(** Calls of the shutdown path that give the device and the terminal
    back. *)
Definition releases (e : event) : bool :=
  match e with
  | PpsThreadDeactivate | GpsdClose | TcsetattrCooked => true
  | _ => false
  end.

(** The loop of option [-t] over the monitor objects: the driver of the
    last object whose type name starts with [optarg], and the count of
    matches added to [matches]. *)
Fixpoint option_t_loop (objs : list monitor_object_t) (optarg : list ascii)
    (fallback : option gps_type_t) (matches : Z) : option gps_type_t * Z :=
  match objs with
  | [] => (fallback, matches)
  | o :: objs' =>
      if str_starts_with (type_name (driver o)) optarg
      then option_t_loop objs' optarg (Some (driver o)) (matches + 1)
      else option_t_loop objs' optarg fallback matches
  end.

(** Case ['t'] of the option switch: the message and [exit(EXIT_FAILURE)],
    or [fallback] and [matches] as the case leaves them.  [matches] is a
    local of [main], zero before the first option. *)
Definition option_t (objs : list monitor_object_t) (optarg : list ascii)
    (matches : Z) : string + (option gps_type_t * Z) :=
  let r := option_t_loop objs optarg None matches in
  if (snd r >? 1)%Z then
    inl ("-t option matched more than one driver." ++ newline)%string
  else if (snd r =? 0)%Z then
    inl ("-t option didn't match any driver." ++ newline)%string
  else inr r.

(** ** The satellite table of monitor_nmea0183.c *)

(** [struct satellite_t] of gps.h, as far as [sat_cmp] reads it: [PRN] is a
    [short], [used] a [bool]. *)
Record satellite_t := { PRN : Z; used : bool }.

(** [sat_cmp(p1, p2)], in [int] arithmetic. *)
Definition sat_cmp (p1 p2 : satellite_t) : Z :=
  let ret := to_int (to_unsigned (Z.b2z (used p2) - Z.b2z (used p1))) in
  if negb (ret =? 0)%Z then ret
  else to_int (to_unsigned (PRN p1 - PRN p2)).

(** The range of a [short]. *)
Definition is_short (z : Z) : bool := (-32768 <=? z)%Z && (z <=? 32767)%Z.

(** Externals whose log and device writes fail, and whose hex strings are
    empty. *)
Definition sample_failing_io : externals :=
  {| BAD_PACKET := -1; NMEA_PACKET := 1; DRIVER_STICKY := 1;
     TEXTUAL_PACKET_TYPE := fun _ => true; SOCKET_EXPORT_ENABLE := true;
     driver_nmea0183 := sample_nmea0183; driver_json_passthrough := sample_json;
     gpsd_drivers := []; fopen_ok := fun _ _ => true;
     fwrite_count := fun _ => 0%Z;
     json_toff_read := fun _ => (0%Z, sample_toff);
     json_pps_read := fun _ => (0%Z, sample_toff);
     gpsd_hexpack := fun _ => (0%Z, []);
     gpsd_write := fun _ => 0%Z |}.

(** ** Facts about buffers *)

(** A tab is escaped, a line feed at the very end is kept. *)
Example visibilize_tab_and_newline :
  c_str (default [] (visibilize (replicate 16 "Z"%char) 16 (lit "ab" ++ [TAB; LF]))) 0
  = lit "ab\x09" ++ [LF].
Proof. vm_compute. reflexivity. Qed.

(** A destination of no bytes cannot even take the terminator. *)
Example visibilize_no_room : visibilize [] 0 (lit "a") = None.
Proof. reflexivity. Qed.

Lemma strlen_from_app pre post :
  Forall nonnul pre -> strlen_from (pre ++ NUL :: post) = Some (length pre).
Proof.
  induction 1 as [|c pre Hc _ IH]; cbn [strlen_from app].
  - rewrite decide_True; done.
  - rewrite decide_False by exact Hc. rewrite IH. reflexivity.
Qed.

Lemma until_nul_app pre post :
  Forall nonnul pre -> until_nul (pre ++ NUL :: post) = pre.
Proof.
  induction 1 as [|c pre Hc _ IH]; cbn [until_nul app].
  - rewrite decide_True; done.
  - rewrite decide_False by exact Hc. rewrite IH. reflexivity.
Qed.

Lemma poke_middle pre m post c :
  poke (pre ++ m :: post) (length pre) c = Some (pre ++ c :: post).
Proof.
  unfold poke. rewrite decide_True.
  - f_equal. replace (length pre) with (length pre + 0) by lia.
    rewrite insert_app_r. reflexivity.
  - rewrite length_app. simpl. lia.
Qed.

Lemma store_middle l : forall pre mid post,
  length mid = length l ->
  store (pre ++ mid ++ post) (length pre) l = Some (pre ++ l ++ post).
Proof.
  induction l as [|c l IH]; intros pre mid post Hlen.
  - destruct mid; [reflexivity | discriminate].
  - destruct mid as [|m mid]; [discriminate|]. simpl in Hlen.
    cbn [store app]. rewrite poke_middle. cbn.
    specialize (IH (pre ++ [c]) mid post).
    rewrite length_app in IH. simpl in IH.
    replace (length pre + 1) with (S (length pre)) in IH by lia.
    rewrite <- !app_assoc in IH. simpl in IH. apply IH. lia.
Qed.

Lemma truncate_fits size s :
  (N.of_nat (length s) < size)%N -> truncate size s = s.
Proof.
  intros H. unfold truncate.
  destruct (N.ltb_spec (N.of_nat (length s)) size); [reflexivity | lia].
Qed.

(** Appending to the string a buffer holds, when there is room for it. *)
Lemma snprintf_append pre post size s :
  (N.of_nat (length s) < size)%N ->
  length s <= length post ->
  snprintf (pre ++ NUL :: post) (length pre) size s
  = Some ((pre ++ s) ++ NUL :: drop (length s) post).
Proof.
  intros Hsize Hroom. unfold snprintf.
  destruct (N.eqb_spec size 0); [lia|].
  rewrite truncate_fits by exact Hsize.
  rewrite <- (take_drop (length s) post) at 1.
  change (NUL :: take (length s) post ++ drop (length s) post)
    with ((NUL :: take (length s) post) ++ drop (length s) post).
  rewrite store_middle.
  - rewrite <- !app_assoc. reflexivity.
  - simpl. rewrite length_take, length_app. simpl. lia.
Qed.

Lemma isprint_nonnul c : isprint c = true -> nonnul c.
Proof. intros H ->. discriminate H. Qed.

Lemma hexdigit_isprint n : isprint (hexdigit n) = true.
Proof.
  unfold hexdigit.
  destruct (nth_in_or_default n (lit "0123456789abcdef") "0"%char) as [H | ->];
    [|reflexivity].
  remember (nth n (lit "0123456789abcdef") "0"%char) as d eqn:Hd. clear Hd.
  cbv [lit list_ascii_of_string In] in H.
  repeat (destruct H as [<- | H]; [reflexivity|]). destruct H.
Qed.

Lemma hex_escape_isprint c : Forall (fun d => isprint d = true) (hex_escape c).
Proof.
  unfold hex_escape, fmt_02x. simpl.
  repeat constructor; apply hexdigit_isprint.
Qed.

Lemma hex_escape_nonnul c : Forall nonnul (hex_escape c).
Proof.
  eapply Forall_impl; [apply hex_escape_isprint|].
  intros d Hd. apply isprint_nonnul, Hd.
Qed.

Lemma hex_escape_length c : length (hex_escape c) = 4.
Proof. reflexivity. Qed.

Lemma drop_after_append (pre post s : list ascii) k :
  length pre + length s + 1 <= k -> length s <= length post ->
  drop k ((pre ++ s) ++ NUL :: drop (length s) post) = drop k (pre ++ NUL :: post).
Proof.
  intros Hk Hs.
  rewrite (cons_middle NUL (pre ++ s)), (cons_middle NUL pre), !app_assoc.
  rewrite !drop_app_ge by (rewrite ?length_app; simpl; lia).
  rewrite drop_drop. f_equal. rewrite !length_app. simpl. lia.
Qed.

Lemma length_after_append (pre post s : list ascii) :
  length s <= length post ->
  length ((pre ++ s) ++ NUL :: drop (length s) post) = length (pre ++ NUL :: post).
Proof.
  intros Hs. rewrite !length_app. simpl. rewrite length_drop. lia.
Qed.

Lemma visibilize_text_nonnul len2 sp : forall acc,
  Forall nonnul acc -> Forall nonnul (visibilize_text len2 sp acc).
Proof.
  induction sp as [|c rest IH]; intros acc Hacc; simpl; [exact Hacc|].
  destruct (is_char c NUL) eqn:Hc; [exact Hacc|].
  case_decide; [|exact Hacc].
  apply IH, Forall_app; split; [exact Hacc|].
  unfold visibilize_piece.
  destruct (_ || _); [|apply hex_escape_nonnul].
  constructor; [|constructor]. intros ->. discriminate Hc.
Qed.

Lemma visibilize_text_length len2 sp : forall acc,
  length acc < len2 -> length (visibilize_text len2 sp acc) < len2.
Proof.
  induction sp as [|c rest IH]; intros acc Hacc; simpl; [exact Hacc|].
  destruct (is_char c NUL); [exact Hacc|].
  case_decide; [|exact Hacc].
  apply IH. rewrite length_app. unfold visibilize_piece.
  destruct (_ || _); [simpl | rewrite hex_escape_length]; lia.
Qed.

Lemma visibilize_loop_spec len2 sp : forall pre post,
  Forall nonnul pre ->
  len2 <= length (pre ++ NUL :: post) ->
  exists post',
    visibilize_loop len2 sp (pre ++ NUL :: post)
      = Some (visibilize_text len2 sp pre ++ NUL :: post')
    /\ length (visibilize_text len2 sp pre ++ NUL :: post')
       = length (pre ++ NUL :: post)
    /\ drop len2 (visibilize_text len2 sp pre ++ NUL :: post')
       = drop len2 (pre ++ NUL :: post).
Proof.
  induction sp as [|c rest IH]; intros pre post Hpre Hlen; cbn [visibilize_loop visibilize_text].
  - exists post. auto.
  - destruct (is_char c NUL) eqn:Hc; [exists post; auto|].
    unfold strlen. rewrite drop_0, strlen_from_app by exact Hpre. cbn [mbind option_bind].
    case_decide as Hroom; [|exists post; auto].
    assert (Hpost : 4 <= length post).
    { rewrite length_app in Hlen. simpl in Hlen. lia. }
    assert (Hstep : (if isprint c
                || (is_char c LF && is_char (peek rest 0) NUL)
                || (is_char c CR && is_char (peek rest 1) NUL)
             then snprintf (pre ++ NUL :: post) (length pre) 2 [c]
             else snprintf (pre ++ NUL :: post) (length pre) 6 (hex_escape c))
            = Some ((pre ++ visibilize_piece c rest) ++ NUL
                      :: drop (length (visibilize_piece c rest)) post)).
    { unfold visibilize_piece. destruct (_ || _).
      - apply snprintf_append; simpl; lia.
      - apply snprintf_append; rewrite hex_escape_length; lia. }
    assert (Hpiece : length (visibilize_piece c rest) <= 4 /\ Forall nonnul (visibilize_piece c rest)).
    { unfold visibilize_piece. destruct (_ || _).
      - split; [simpl; lia|]. constructor; [|constructor]. intros ->. discriminate Hc.
      - split; [rewrite hex_escape_length; lia | apply hex_escape_nonnul]. }
    destruct Hpiece as [Hp4 Hpn].
    rewrite Hstep. cbn [mbind option_bind].
    destruct (IH (pre ++ visibilize_piece c rest)
                 (drop (length (visibilize_piece c rest)) post)) as (post' & Hrun & Hl & Hd).
    { apply Forall_app; auto. }
    { rewrite length_after_append by lia. exact Hlen. }
    exists post'. split; [exact Hrun|]. split.
    + rewrite Hl. apply length_after_append. lia.
    + rewrite Hd. apply drop_after_append; lia.
Qed.

(** C10: for every source string and every destination of [len2 >= 1]
    bytes, [visibilize] returns without storing outside the destination
    (no store fails, and every byte from offset [len2] on is unchanged); the
    destination then holds a NUL-terminated string of length below [len2],
    made of the verbatim bytes and four-byte hex escapes appended while
    [strlen(buf2) + 4 < len2]. *)
Theorem visibilize_bounded (buf2 : list ascii) (len2 : nat) (buf : list ascii) :
  1 <= len2 -> len2 <= length buf2 ->
  exists out,
    visibilize buf2 len2 buf = Some out
    /\ c_str out 0 = visibilize_text len2 buf []
    /\ (exists n, strlen out 0 = Some n /\ n < len2)
    /\ length out = length buf2
    /\ drop len2 out = drop len2 buf2.
Proof.
  intros Hpos Hcap. destruct buf2 as [|m post]; [simpl in Hcap; lia|].
  unfold visibilize.
  change (poke (m :: post) 0 NUL) with (poke ([] ++ m :: post) (length (@nil ascii)) NUL).
  rewrite poke_middle. cbn [mbind option_bind].
  destruct (visibilize_loop_spec len2 buf [] post) as (post' & Hrun & Hl & Hd);
    [constructor | exact Hcap |].
  assert (Hnn : Forall nonnul (visibilize_text len2 buf [])).
  { apply visibilize_text_nonnul. constructor. }
  eexists. split; [exact Hrun|]. split; [|split; [|split]].
  - unfold c_str. rewrite drop_0. apply until_nul_app, Hnn.
  - exists (length (visibilize_text len2 buf [])). split.
    + unfold strlen. rewrite drop_0. apply strlen_from_app, Hnn.
    + apply visibilize_text_length. simpl. lia.
  - rewrite Hl. reflexivity.
  - rewrite Hd. destruct len2; [lia | reflexivity].
Qed.

Lemma visibilize_bounded_witness :
  exists out,
    visibilize (replicate 8 "Z"%char) 8 (lit "ab" ++ [TAB] ++ lit "cdefgh") = Some out
    /\ c_str out 0 = visibilize_text 8 (lit "ab" ++ [TAB] ++ lit "cdefgh") []
    /\ (exists n, strlen out 0 = Some n /\ n < 8)
    /\ length out = length (replicate 8 "Z"%char)
    /\ drop 8 out = drop 8 (replicate 8 "Z"%char).
Proof.
  apply (visibilize_bounded (replicate 8 "Z"%char) 8 (lit "ab" ++ [TAB] ++ lit "cdefgh"));
    simpl; lia.
Defined.

(** ** The conditional hex dump *)

(** A textual packet: the tab is escaped, the CR LF at the end is dropped. *)
Example cond_hexdump_text :
  c_str (default [] (cond_hexdump true (NUL :: replicate 31 "Z"%char) 32 (lit "$GP" ++ [TAB] ++ lit "a" ++ [CR; LF]) 7)) 0
  = lit "$GP\x09a".
Proof. vm_compute. reflexivity. Qed.

(** One byte that is neither printable nor white space: a plain hex dump. *)
Example cond_hexdump_binary :
  c_str (default [] (cond_hexdump true (replicate 32 "Z"%char) 32 (lit "ab" ++ ["001"%char]) 3)) 0
  = lit "616201".
Proof. vm_compute. reflexivity. Qed.

(** An empty input leaves the destination as it was. *)
Example cond_hexdump_empty :
  cond_hexdump true (lit "stale" ++ [NUL]) 6 [] 0 = Some (lit "stale" ++ [NUL]).
Proof. vm_compute. reflexivity. Qed.

Lemma size_sub_le (a b : nat) :
  b <= a -> (N.of_nat a < SIZE_MOD)%N ->
  size_sub (N.of_nat a) (N.of_nat b) = N.of_nat (a - b).
Proof.
  intros Hle Ha. unfold size_sub.
  rewrite (N.mod_small (N.of_nat b)) by lia.
  replace (N.of_nat a + SIZE_MOD - N.of_nat b)%N
    with (N.of_nat (a - b) + 1 * SIZE_MOD)%N by lia.
  rewrite N.Div0.mod_add. apply N.mod_small. lia.
Qed.

Lemma size_sub_1 (a : nat) :
  1 <= a -> (N.of_nat a < SIZE_MOD)%N -> size_sub (N.of_nat a) 1 = N.of_nat (a - 1).
Proof. intros. apply (size_sub_le a 1); assumption. Qed.

(** [i == len - 1] and [i == len - 2] inside the loop, where [i < len]. *)
Lemma last_index (len i n' : nat) :
  i + S n' = len -> (N.of_nat len < SIZE_MOD)%N ->
  (N.of_nat i =? size_sub (N.of_nat len) 1)%N = (n' =? 0).
Proof.
  intros Hi Hlen. rewrite size_sub_1 by lia.
  destruct (N.eqb_spec (N.of_nat i) (N.of_nat (len - 1))), (Nat.eqb_spec n' 0); lia.
Qed.

Lemma last_but_one_index (len i n' : nat) :
  i + S n' = len -> (N.of_nat len < SIZE_MOD)%N ->
  (N.of_nat i =? size_sub (N.of_nat len) 2)%N = (n' =? 1).
Proof.
  intros Hi Hlen. destruct (decide (2 <= len)) as [H2|H2].
  - change 2%N with (N.of_nat 2). rewrite (size_sub_le len 2) by lia.
    destruct (N.eqb_spec (N.of_nat i) (N.of_nat (len - 2))), (Nat.eqb_spec n' 1); lia.
  - assert (len = 1) as -> by lia. assert (i = 0) as -> by lia.
    assert (n' = 0) as -> by lia. reflexivity.
Qed.

Lemma render_piece_isprint textual c rest :
  Forall (fun d => isprint d = true) (render_piece textual c rest).
Proof.
  unfold render_piece. destruct (isprint c) eqn:Hc; [repeat constructor; exact Hc|].
  destruct (_ && _); [constructor|].
  destruct (_ && _); [constructor|]. apply hex_escape_isprint.
Qed.

Lemma render_piece_length textual c rest :
  length (render_piece textual c rest) <= 4.
Proof.
  unfold render_piece. destruct (isprint c); [simpl; lia|].
  destruct (_ && _); [simpl; lia|].
  destruct (_ && _); [simpl; lia|]. rewrite hex_escape_length. lia.
Qed.

Lemma render_text_isprint textual x :
  Forall (fun d => isprint d = true) (render_text textual x).
Proof.
  induction x as [|c rest IH]; simpl; [constructor|].
  apply Forall_app. split; [apply render_piece_isprint | exact IH].
Qed.

Lemma render_text_id textual x :
  Forall (fun d => isprint d = true) x -> render_text textual x = x.
Proof.
  induction 1 as [|c rest Hc _ IH]; simpl; [reflexivity|].
  unfold render_piece. rewrite Hc, IH. reflexivity.
Qed.

Lemma isprint_all_nonnul l :
  Forall (fun d => isprint d = true) l -> Forall nonnul l.
Proof. intros H. eapply Forall_impl; [exact H|]. intros d Hd. apply isprint_nonnul, Hd. Qed.

Lemma peek_lookup (b : list ascii) i c : b !! i = Some c -> peek b i = c.
Proof. unfold peek. intros ->. reflexivity. Qed.

Lemma printable_loop_spec textual len2 x :
  (N.of_nat len2 < SIZE_MOD)%N -> (N.of_nat (length x) < SIZE_MOD)%N ->
  forall n i pre post,
    i + n = length x ->
    Forall nonnul pre ->
    length pre + length (render_text textual (drop i x)) < len2 ->
    len2 <= length (pre ++ NUL :: post) ->
    exists post',
      printable_loop textual len2 x (length x) n i (length pre) (pre ++ NUL :: post)
      = Some ((pre ++ render_text textual (drop i x)) ++ NUL :: post').
Proof.
  intros Hlen2 Hlenx. induction n as [|n' IH]; intros i pre post Hi Hpre Hroom Hcap.
  - rewrite drop_ge by lia. simpl. rewrite app_nil_r. eauto.
  - destruct (lookup_lt_is_Some_2 x i) as [c Hc]; [lia|].
    rewrite (drop_S _ _ _ Hc) in Hroom |- *.
    cbn [printable_loop render_text] in Hroom |- *.
    rewrite (peek_lookup _ _ _ Hc).
    rewrite (last_index (length x) i n'), (last_but_one_index (length x) i n') by assumption.
    assert (Hrest : length (drop (S i) x) = n') by (rewrite length_drop; lia).
    rewrite length_app in Hroom.
    rewrite size_sub_1 by lia.
    destruct (N.ltb_spec (N.of_nat (length pre)) (N.of_nat (len2 - 1))) as [Hj|Hj].
    + unfold render_piece in *. rewrite Hrest in *.
      destruct (isprint c) eqn:Hpc.
      * (* verbatim byte *)
        destruct post as [|p post]; [rewrite length_app in Hcap; simpl in Hcap; lia|].
        rewrite poke_middle. cbn [mbind option_bind].
        replace (pre ++ c :: p :: post) with ((pre ++ [c]) ++ p :: post)
          by (rewrite <- app_assoc; reflexivity).
        replace (S (length pre)) with (length (pre ++ [c]))
          by (rewrite length_app; simpl; lia).
        rewrite poke_middle. cbn [mbind option_bind].
        destruct (IH (S i) (pre ++ [c]) post) as [post' Hrun].
        { lia. }
        { apply Forall_app. split; [exact Hpre|]. repeat constructor.
          apply isprint_nonnul, Hpc. }
        { rewrite length_app. simpl in *. lia. }
        { rewrite !length_app in *. simpl in *. lia. }
        rewrite Hrun. exists post'. rewrite <- !app_assoc. reflexivity.
      * destruct (textual && (n' =? 0) && is_char c LF) eqn:Hlf.
        { destruct (IH (S i) pre post) as [post' Hrun]; [lia|assumption|simpl in *; lia|assumption|].
          rewrite Hrun. exists post'. reflexivity. }
        destruct (textual && (n' =? 1) && is_char c CR) eqn:Hcr.
        { destruct (IH (S i) pre post) as [post' Hrun]; [lia|assumption|simpl in *; lia|assumption|].
          rewrite Hrun. exists post'. reflexivity. }
        (* escape *)
        rewrite hex_escape_length in Hroom.
        unfold strlen. rewrite drop_0, strlen_from_app by exact Hpre.
        cbn [mbind option_bind].
        rewrite size_sub_le by lia.
        rewrite snprintf_append;
          [| rewrite hex_escape_length; lia
           | rewrite hex_escape_length; rewrite length_app in Hcap; simpl in Hcap; lia].
        cbn [mbind option_bind]. rewrite drop_0.
        rewrite strlen_from_app
          by (apply Forall_app; split; [exact Hpre | apply hex_escape_nonnul]).
        cbn [mbind option_bind].
        destruct (IH (S i) (pre ++ hex_escape c) (drop (length (hex_escape c)) post))
          as [post' Hrun].
        { lia. }
        { apply Forall_app; split; [exact Hpre | apply hex_escape_nonnul]. }
        { rewrite length_app, hex_escape_length. lia. }
        { rewrite length_after_append; [exact Hcap|].
          rewrite hex_escape_length. rewrite length_app in Hcap. simpl in Hcap. lia. }
        rewrite Hrun. exists post'. rewrite <- !app_assoc. reflexivity.
    + (* no room left: nothing more was to be stored *)
      assert (Hnil : render_piece textual c (drop (S i) x)
                     ++ render_text textual (drop (S i) x) = []).
      { apply length_zero_iff_nil. rewrite length_app. lia. }
      rewrite Hnil, app_nil_r. eauto.
Qed.

Lemma all_printable_intro (x : list ascii) :
  forallb (fun c => isprint c || isspace c) x = true ->
  all_printable x (length x) = true.
Proof.
  intros H. unfold all_printable. apply forallb_forall. intros i Hi.
  apply in_seq in Hi.
  destruct (lookup_lt_is_Some_2 x i) as [c Hc]; [lia|].
  rewrite (peek_lookup _ _ _ Hc).
  rewrite forallb_forall in H. apply H.
  apply list_elem_of_In, list_elem_of_lookup. eauto.
Qed.

Lemma forallb_isprint_weaken (x : list ascii) :
  Forall (fun d => isprint d = true) x ->
  forallb (fun c => isprint c || isspace c) x = true.
Proof.
  intros H. apply forallb_forall. intros c Hc.
  rewrite Forall_forall in H. rewrite (H c); [reflexivity|].
  apply list_elem_of_In, Hc.
Qed.

(** One call.  The destination holds the empty string on entry, unless the
    first input byte is stored verbatim: the loop stores nothing before its
    first byte, and sizes an escape by the string the destination holds. *)
Lemma cond_hexdump_printable textual (x buf2 : list ascii) (len2 : nat) :
  forallb (fun c => isprint c || isspace c) x = true ->
  isprint (peek x 0) = true \/ peek buf2 0 = NUL ->
  len2 <= length buf2 ->
  (N.of_nat len2 < SIZE_MOD)%N -> (N.of_nat (length x) < SIZE_MOD)%N ->
  length (render_text textual x) < len2 ->
  exists out,
    cond_hexdump textual buf2 len2 x (length x) = Some out
    /\ c_str out 0 = render_text textual x.
Proof.
  intros Hx Hentry Hcap Hlen2 Hlenx Hroom.
  unfold cond_hexdump. rewrite all_printable_intro by exact Hx.
  assert (Hnn : Forall nonnul (render_text textual x))
    by apply isprint_all_nonnul, render_text_isprint.
  destruct (decide (peek buf2 0 = NUL)) as [Hclean|Hdirty].
  - destruct buf2 as [|m post]; [simpl in Hcap; lia|].
    unfold peek in Hclean. simpl in Hclean. subst m.
    destruct (printable_loop_spec textual len2 x Hlen2 Hlenx (length x) 0 [] post)
      as [post' Hrun]; [lia | constructor | rewrite drop_0; simpl; lia | exact Hcap |].
    rewrite drop_0 in Hrun. simpl in Hrun. simpl. rewrite Hrun.
    eexists. split; [reflexivity|].
    unfold c_str. rewrite drop_0. apply until_nul_app, Hnn.
  - destruct Hentry as [Hfirst|?]; [|contradiction].
    destruct x as [|c rest]; [discriminate Hfirst|].
    change (peek (c :: rest) 0) with c in Hfirst.
    cbn [render_text] in Hroom, Hnn |- *. unfold render_piece in Hroom, Hnn |- *.
    rewrite Hfirst in Hroom, Hnn |- *. cbn [app length] in Hroom.
    cbn [length printable_loop]. rewrite size_sub_1 by lia.
    destruct (N.ltb_spec (N.of_nat 0) (N.of_nat (len2 - 1))) as [_|?]; [|lia].
    change (peek (c :: rest) 0) with c. rewrite Hfirst.
    destruct buf2 as [|m0 [|m1 post]]; [simpl in Hcap; lia | simpl in Hcap; lia |].
    change (poke (m0 :: m1 :: post) 0 c)
      with (poke ([] ++ m0 :: m1 :: post) (length (@nil ascii)) c).
    rewrite poke_middle. cbn [mbind option_bind app].
    change (poke (c :: m1 :: post) 1 NUL)
      with (poke ([c] ++ m1 :: post) (length [c]) NUL).
    rewrite poke_middle. cbn [mbind option_bind].
    destruct (printable_loop_spec textual len2 (c :: rest) Hlen2 Hlenx
                (length rest) 1 [c] post) as [post' Hrun].
    { simpl. lia. }
    { repeat constructor. apply isprint_nonnul, Hfirst. }
    { simpl. rewrite drop_0. lia. }
    { simpl in *. lia. }
    simpl in Hrun. rewrite drop_0 in Hrun. simpl. rewrite Hrun.
    eexists. split; [reflexivity|].
    unfold c_str. rewrite drop_0.
    apply (until_nul_app (c :: render_text textual rest)), Hnn.
Qed.

Lemma render_text_first textual x :
  render_text textual x <> [] -> isprint (peek (render_text textual x) 0) = true.
Proof.
  intros Hne. pose proof (render_text_isprint textual x) as H.
  destruct (render_text textual x) as [|d l]; [contradiction|].
  inversion H; assumption.
Qed.

(** C8: on an input whose bytes are all printable or white space (whether or
    not it ends in CR or LF), with destinations large enough for the result,
    [cond_hexdump] applied to its own output gives the string it gave the
    first time.  A destination holds the empty string on entry unless the
    first byte stored into it is a verbatim one, as the function stores
    nothing before its first byte. *)
Theorem cond_hexdump_idempotent (textual : bool) (x buf2 buf2' : list ascii)
    (len2 : nat) :
  forallb (fun c => isprint c || isspace c) x = true ->
  isprint (peek x 0) = true \/ peek buf2 0 = NUL ->
  render_text textual x <> [] \/ peek buf2' 0 = NUL ->
  len2 <= length buf2 -> len2 <= length buf2' ->
  (N.of_nat len2 < SIZE_MOD)%N -> (N.of_nat (length x) < SIZE_MOD)%N ->
  length (render_text textual x) < len2 ->
  exists out out',
    cond_hexdump textual buf2 len2 x (length x) = Some out
    /\ cond_hexdump textual buf2' len2 (c_str out 0) (length (c_str out 0))
       = Some out'
    /\ c_str out' 0 = c_str out 0.
Proof.
  intros Hx He He' Hcap Hcap' Hlen2 Hlenx Hroom.
  destruct (cond_hexdump_printable textual x buf2 len2) as (out & Hrun & Hstr);
    try assumption.
  pose proof (render_text_isprint textual x) as Hy.
  destruct (cond_hexdump_printable textual (render_text textual x) buf2' len2)
    as (out' & Hrun' & Hstr').
  - apply forallb_isprint_weaken, Hy.
  - destruct He' as [Hne|Hclean]; [left; apply render_text_first, Hne | right; exact Hclean].
  - exact Hcap'.
  - exact Hlen2.
  - lia.
  - rewrite render_text_id by exact Hy. exact Hroom.
  - exists out, out'. rewrite Hstr. split; [exact Hrun|]. split; [exact Hrun'|].
    rewrite Hstr'. apply render_text_id, Hy.
Qed.

Lemma cond_hexdump_idempotent_witness :
  exists out out',
    cond_hexdump true (replicate 32 "Z"%char) 32 (lit "$GPGLL,4916.45,N") 16
      = Some out
    /\ cond_hexdump true (replicate 32 "Q"%char) 32 (c_str out 0)
         (length (c_str out 0)) = Some out'
    /\ c_str out' 0 = c_str out 0.
Proof.
  apply (cond_hexdump_idempotent true (lit "$GPGLL,4916.45,N")
           (replicate 32 "Z"%char) (replicate 32 "Q"%char) 32).
  - reflexivity.
  - left. reflexivity.
  - left. vm_compute. discriminate.
  - simpl. lia.
  - simpl. lia.
  - vm_compute. reflexivity.
  - vm_compute. reflexivity.
  - vm_compute. lia.
Defined.

(** ** Switching monitors *)

Ltac run :=
  unfold mbind, M_bind, mret, M_ret, get, modify, emit, skip, complain,
    announce_log, call_hook, update_call, longjmp, abort,
    fault; cbn.

Lemma added_app (s s' : gpsmon) (evs : list event) :
  trace s' = trace s ++ evs -> added s s' = evs.
Proof. intros H. unfold added. rewrite H. apply drop_app_length. Qed.

Lemma find_monitor_sound objs name m :
  find_monitor objs name = Some m ->
  In m objs /\ type_name (driver m) = name.
Proof.
  induction objs as [|o objs IH]; simpl; [discriminate|].
  unfold streq. case_bool_decide as Hname.
  - intros [= <-]. auto.
  - intros H. destruct (IH H). auto.
Qed.

(** C1, as the code has it: in every completed switch (a monitor matches and
    the screen is large enough) the wrap hook of the outgoing handler, when
    there is one, is called first, in the state [switch_type] was entered
    in, where the outgoing handler is still the active one; then, in the
    state the hook leaves, the selection is replaced and the screen
    cleared; and when the hook does not return, nothing is replaced.  This
    holds whatever the hooks do when called.  No other hook is called:
    with the calls recorded, the only call is that of the outgoing wrap
    hook, and [switch_type] never calls the initialize hook of the incoming
    handler. *)
Theorem switch_type_wrap_before_replace (E : externals)
    (run_hook : hook -> M unit) (devtype : gps_type_t)
    (s : gpsmon) (newobject : monitor_object_t) :
  find_monitor (monitor_objects E) (type_name devtype) = Some newobject ->
  (min_y newobject + 1 <= LINES s)%Z -> (min_x newobject <= COLS s)%Z ->
  switch_type_with E run_hook devtype s
  = match leave_hook (active s) with
    | Some h =>
        match run_hook h s with
        | Ret _ s1 => Ret true (replace_and_clear newobject s1)
        | Longjmp code s1 => Longjmp code s1
        | Abort s1 => Abort s1
        | Fault => Fault
        end
    | None => Ret true (replace_and_clear newobject s)
    end
  /\ exists s',
       switch_type E devtype s = Ret true s'
       /\ active s' = Some newobject
       /\ added s s' = wrap_events (active s) ++ [Clearok; Clear]
       /\ (forall h, In (Call h) (added s s') ->
             exists a, active s = Some a /\ wrap a = Some h).
Proof.
  intros Hfind Hy Hx. split.
  - unfold switch_type_with. rewrite Hfind. run.
    destruct (Z.ltb_spec (LINES s) (min_y newobject + 1)); [lia|].
    destruct (Z.ltb_spec (COLS s) (min_x newobject)); [lia|].
    unfold leave_hook, replace_and_clear. cbn.
    destruct (active s) as [a|]; [destruct (wrap a) as [h|]|]; cbn;
      [destruct (run_hook h s) as [[] s1|code s1|s1|]; run; try reflexivity| |];
      unfold with_trace, with_active; cbn; rewrite <- app_assoc; reflexivity.
  - exists (with_trace (trace s ++ wrap_events (active s) ++ [Clearok; Clear])
              (with_active (Some newobject) s)).
    assert (Hadd : added s (with_trace (trace s ++ wrap_events (active s) ++ [Clearok; Clear])
              (with_active (Some newobject) s)) = wrap_events (active s) ++ [Clearok; Clear])
      by (apply added_app; reflexivity).
    split; [|split; [reflexivity | split; [exact Hadd|]]].
    + unfold switch_type, switch_type_with, record_call. rewrite Hfind. run.
      destruct (Z.ltb_spec (LINES s) (min_y newobject + 1)); [lia|].
      destruct (Z.ltb_spec (COLS s) (min_x newobject)); [lia|].
      unfold wrap_events. run.
      destruct (active s) as [a|]; [destruct (wrap a)|]; cbn;
        unfold with_trace, with_active; cbn; rewrite <- ?app_assoc; reflexivity.
    + rewrite Hadd. unfold wrap_events. intros h Hin.
      destruct (active s) as [a|]; [destruct (wrap a) as [w|] eqn:Hw|]; simpl in Hin;
        repeat (destruct Hin as [Hin|Hin]; [try discriminate Hin|]); try contradiction.
      injection Hin as ->. eauto.
Qed.

Lemma switch_type_wrap_before_replace_witness :
  switch_type_with sample_externals probe_active sample_json nmea_showing
  = match leave_hook (active nmea_showing) with
    | Some h =>
        match probe_active h nmea_showing with
        | Ret _ s1 => Ret true (replace_and_clear (json_mmt sample_externals) s1)
        | Longjmp code s1 => Longjmp code s1
        | Abort s1 => Abort s1
        | Fault => Fault
        end
    | None => Ret true (replace_and_clear (json_mmt sample_externals) nmea_showing)
    end
  /\ exists s',
       switch_type sample_externals sample_json nmea_showing = Ret true s'
       /\ active s' = Some (json_mmt sample_externals)
       /\ added nmea_showing s' = wrap_events (active nmea_showing) ++ [Clearok; Clear]
       /\ (forall h, In (Call h) (added nmea_showing s') ->
             exists a, active nmea_showing = Some a /\ wrap a = Some h).
Proof.
  apply (switch_type_wrap_before_replace sample_externals probe_active sample_json
           nmea_showing (json_mmt sample_externals)).
  - reflexivity.
  - vm_compute. discriminate.
  - vm_compute. discriminate.
Defined.

(** The same switch, step by step: the wrap hook of the NMEA monitor is
    called while that monitor is still the active one, and the JSON
    monitor is active afterwards. *)
Example switch_type_leaves_nmea :
  exists s',
    switch_type_with sample_externals probe_active sample_json nmea_showing
    = Ret true s'
    /\ trace s' = [Call fn_nmea_wrap; Complain "active: %s" [AStr (lit "NMEA0183")];
                   Clearok; Clear]
    /\ active s' = Some (json_mmt sample_externals).
Proof. eexists. split; [vm_compute; reflexivity|]. split; reflexivity. Qed.

(** C1 as stated fails: switching from the JSON monitor to the NMEA monitor
    completes without a call of [nmea_initialize]. *)
Lemma switch_type_omits_initialize :
  ~ switch_calls_initialize sample_externals sample_nmea0183 sample_state.
Proof.
  intros H.
  specialize (H (with_trace [Clearok; Clear]
                   (with_active (Some (nmea_mmt sample_externals)) sample_state))
                (nmea_mmt sample_externals) fn_nmea_initialize
                eq_refl eq_refl eq_refl eq_refl).
  vm_compute in H. destruct H as [H|[H|[]]]; discriminate H.
Qed.

Lemma switch_type_outcome (E : externals) (devtype : gps_type_t) (s : gpsmon) :
  match find_monitor (monitor_objects E) (type_name devtype) with
  | Some m =>
      exists s', switch_type E devtype s = Ret true s'
        /\ active s' = (if too_small s m then active s else Some m)
  | None =>
      exists s', switch_type E devtype s = Ret false s' /\ active s' = active s
  end.
Proof.
  unfold switch_type, switch_type_with, record_call, too_small.
  destruct (find_monitor (monitor_objects E) (type_name devtype)) as [m|]; run.
  - destruct (_ || _); run.
    + eexists. split; reflexivity.
    + destruct (active s) as [a|]; [destruct (wrap a)|]; run;
        eexists; split; reflexivity.
  - eexists. split; reflexivity.
Qed.

(** C2, as the code has it: when the packet type differs from the last one
    seen, the monitor is looked up for the device's own type, except that
    for an NMEA packet from a device type with the sticky flag it is looked
    up for the generic NMEA driver.  The first monitor of the registry whose
    driver bears the looked-up type name becomes the active one, unless the
    screen is too small for it, in which case the active one stays; with no
    such monitor the loop is left with [TERM_DRIVER_SWITCH]. *)
Theorem select_packet_monitor_lookup (E : externals) (s : gpsmon) (dt : gps_type_t) :
  lexer_type (session s) <> last_type s ->
  device_type (session s) = Some dt ->
  let target := lookup_target E (session s) dt in
  (lexer_type (session s) = NMEA_PACKET E ->
   Z.land (flags dt) (DRIVER_STICKY E) <> 0%Z ->
   target = driver_nmea0183 E)
  /\ (lexer_type (session s) <> NMEA_PACKET E
      \/ Z.land (flags dt) (DRIVER_STICKY E) = 0%Z ->
      target = dt)
  /\ match find_monitor (monitor_objects E) (type_name target) with
     | Some m =>
         In m (monitor_objects E)
         /\ type_name (driver m) = type_name target
         /\ exists s',
              select_packet_monitor E s = Ret tt s'
              /\ active s' = (if too_small s m then active s else Some m)
     | None =>
         exists s',
           select_packet_monitor E s = Longjmp TERM_DRIVER_SWITCH s'
           /\ active s' = active s
     end.
Proof.
  intros Hnew Hdt target. split; [|split].
  - intros Hnmea Hsticky. subst target. unfold lookup_target.
    rewrite Hnmea, Z.eqb_refl.
    destruct (Z.eqb_spec (Z.land (flags dt) (DRIVER_STICKY E)) 0); [contradiction|].
    reflexivity.
  - intros Hplain. subst target. unfold lookup_target.
    destruct (Z.eqb_spec (NMEA_PACKET E) (lexer_type (session s))) as [Heq|];
      [|reflexivity].
    destruct (Z.eqb_spec (Z.land (flags dt) (DRIVER_STICKY E)) 0); [reflexivity|].
    destruct Hplain as [Hne|Hz]; [symmetry in Heq|]; contradiction.
  - pose proof (switch_type_outcome E target s) as Hsw.
    destruct (find_monitor (monitor_objects E) (type_name target)) as [m|] eqn:Hfind.
    + destruct (find_monitor_sound _ _ _ Hfind) as [Hin Hname].
      split; [exact Hin|]. split; [exact Hname|].
      destruct Hsw as (s1 & Hrun & Hact).
      unfold select_packet_monitor, select_packet_monitor_with.
      change (switch_type_with E record_call) with (switch_type E). run.
      destruct (Z.eqb_spec (lexer_type (session s)) (last_type s)); [contradiction|].
      cbn. rewrite Hdt. run. fold target. rewrite Hrun. cbn.
      destruct (active s1) as [a|] eqn:Ha;
        [destruct (lexer_outbuflen (session s1)); [|destruct (update a)]|];
        unfold record_call; run;
        eexists; (split; [reflexivity|]); cbn; rewrite Ha; exact Hact.
    + destruct Hsw as (s1 & Hrun & Hact).
      unfold select_packet_monitor, select_packet_monitor_with.
      change (switch_type_with E record_call) with (switch_type E). run.
      destruct (Z.eqb_spec (lexer_type (session s)) (last_type s)); [contradiction|].
      cbn. rewrite Hdt. run. fold target. rewrite Hrun. cbn.
      eexists. split; [reflexivity|exact Hact].
Qed.

Lemma select_packet_monitor_lookup_witness :
  let target := lookup_target sample_externals (session sample_state) sample_sticky in
  (lexer_type (session sample_state) = NMEA_PACKET sample_externals ->
   Z.land (flags sample_sticky) (DRIVER_STICKY sample_externals) <> 0%Z ->
   target = driver_nmea0183 sample_externals)
  /\ (lexer_type (session sample_state) <> NMEA_PACKET sample_externals
      \/ Z.land (flags sample_sticky) (DRIVER_STICKY sample_externals) = 0%Z ->
      target = sample_sticky)
  /\ match find_monitor (monitor_objects sample_externals) (type_name target) with
     | Some m =>
         In m (monitor_objects sample_externals)
         /\ type_name (driver m) = type_name target
         /\ exists s',
              select_packet_monitor sample_externals sample_state = Ret tt s'
              /\ active s' = (if too_small sample_state m
                              then active sample_state else Some m)
     | None =>
         exists s',
           select_packet_monitor sample_externals sample_state
           = Longjmp TERM_DRIVER_SWITCH s'
           /\ active s' = active sample_state
     end.
Proof.
  apply (select_packet_monitor_lookup sample_externals sample_state sample_sticky).
  - vm_compute. discriminate.
  - reflexivity.
Defined.

(** C2 as stated fails: for a sticky device type and an NMEA packet the
    lookup does not keep the device's descriptor. *)
Lemma sticky_lookup_goes_generic :
  ~ sticky_keeps_descriptor sample_externals sample_device sample_sticky.
Proof.
  intros H.
  assert (Heq : lookup_target sample_externals sample_device sample_sticky
                = sample_sticky).
  { apply H; [reflexivity | vm_compute; discriminate]. }
  apply (f_equal type_name) in Heq. vm_compute in Heq. discriminate Heq.
Qed.

(** After the packet, the NMEA monitor is the active one, although the
    device type is the sticky driver. *)
Example sticky_device_gets_nmea_monitor :
  exists s',
    select_packet_monitor sample_externals sample_state = Ret tt s'
    /\ active s' = Some (nmea_mmt sample_externals)
    /\ driver (nmea_mmt sample_externals) = sample_nmea0183.
Proof. eexists. split; [vm_compute; reflexivity|]. split; reflexivity. Qed.

(** ** The command processor *)

Lemma do_command_verb_s (E : externals) (line : list ascii) (s : gpsmon) :
  peek line 0 = "s"%char ->
  do_command E line s = and_continue (command_s line s).
Proof. intros H. unfold do_command. rewrite H. reflexivity. Qed.

Lemma do_command_verb_i (E : externals) (line : list ascii) (s : gpsmon) :
  peek line 0 = "i"%char ->
  do_command E line s = and_continue (command_i line s).
Proof. intros H. unfold do_command. rewrite H. reflexivity. Qed.

Lemma do_command_verb_l (E : externals) (line : list ascii) (s : gpsmon) :
  peek line 0 = "l"%char ->
  do_command E line s = and_continue (command_l E line s).
Proof. intros H. unfold do_command. rewrite H. reflexivity. Qed.

(** The loop that skips white space stops on a byte that is not white
    space: its fuel is enough. *)
Lemma skip_arg_stops (line : list ascii) : forall fuel arg,
  length line <= arg + 2 * fuel ->
  isspace (peek line (skip_arg fuel line arg)) = false.
Proof.
  induction fuel as [|fuel IH]; intros arg Hfuel; cbn [skip_arg].
  - unfold peek. rewrite lookup_ge_None_2 by lia. reflexivity.
  - destruct (is_char (peek line arg) NUL) eqn:Hnul; cbn [negb andb].
    + apply Ascii.eqb_eq in Hnul. rewrite Hnul. reflexivity.
    + destruct (isspace (peek line arg)) eqn:Hsp; [|exact Hsp].
      apply IH. lia.
Qed.

(** With one blank behind the verb, the argument starts at the second byte
    of what follows the blank. *)
Lemma command_arg_one_blank (line : list ascii) :
  isspace (peek line 1) = true ->
  isspace (peek line 2) = false ->
  command_arg line = 3.
Proof.
  intros H1 H2. unfold command_arg. rewrite H1.
  destruct line as [|c0 line]; [discriminate H1|].
  cbn [length skip_arg]. rewrite H2, andb_false_r. reflexivity.
Qed.

(** Without a blank it starts right behind the verb. *)
Lemma command_arg_no_blank (line : list ascii) :
  isspace (peek line 1) = false -> command_arg line = 1.
Proof. intros H. unfold command_arg. rewrite H. reflexivity. Qed.

Lemma speed_switch_calls (line : list ascii) (s : gpsmon) (switcher : gps_type_t)
    (parity : ascii) (stopbits : Z) (f : Z -> ascii -> Z -> bool) :
  speed_switcher switcher = Some f ->
  exists s' evs,
    speed_switch line switcher parity stopbits s = Ret tt s'
    /\ added s s'
       = SpeedSwitcher (type_name switcher)
           (to_unsigned (atoi (c_str line (command_arg line))))
           parity (to_int stopbits) :: evs.
Proof.
  intros Hsw. unfold speed_switch. rewrite Hsw. run.
  destruct (f _ _ _); run.
  - destruct (logfile s); run; do 2 eexists; (split; [reflexivity|]);
      apply added_app; cbn; rewrite <- !app_assoc; reflexivity.
  - do 2 eexists. split; [reflexivity|].
    apply added_app; cbn; rewrite <- ?app_assoc; reflexivity.
Qed.

(** Case ['s'] with a mode specification that passes the three checks. *)
Lemma command_s_with_modespec (line : list ascii) (s : gpsmon)
    (dt : gps_type_t) (k : nat) :
  device_type (session s) = Some dt ->
  serial s = true ->
  index_of ":" (c_str line (command_arg line)) = Some k ->
  strchr_in "78" (peek line (command_arg line + k + 1)) = true ->
  strchr_in "NOE" (peek line (command_arg line + k + 2)) = true ->
  strchr_in "12" (peek line (command_arg line + k + 3)) = true ->
  command_s line s
  = speed_switch line (pick_switcher has_speed_switcher s dt)
      (peek line (command_arg line + k + 2))
      (to_unsigned (Z.of_nat (chr (peek line (command_arg line + k + 3))) - 48)) s.
Proof.
  intros Hdt Hserial Hcolon H78 HNOE H12.
  unfold command_s. run. rewrite Hdt, Hserial. cbn.
  rewrite Hcolon, H78, HNOE, H12. reflexivity.
Qed.

Lemma command_s_bad_word_length (line : list ascii) (s : gpsmon)
    (dt : gps_type_t) (k : nat) :
  device_type (session s) = Some dt ->
  serial s = true ->
  index_of ":" (c_str line (command_arg line)) = Some k ->
  strchr_in "78" (peek line (command_arg line + k + 1)) = false ->
  command_s line s
  = Ret tt (with_trace (trace s ++ [Complain "No support for that word length." []]) s).
Proof.
  intros Hdt Hserial Hcolon H78.
  unfold command_s. run. rewrite Hdt, Hserial. cbn.
  rewrite Hcolon, H78. reflexivity.
Qed.

(** C3, at the line the claim names: with a device known, a low-level
    session and a speed switcher on the descriptor in charge,
    [do_command] on "s 4800:8N1" calls that switcher with speed 800, parity
    'N' and one stop bit.  The argument starts one byte behind the first
    byte that is not white space, so the leading digit is lost. *)
Theorem do_command_s_4800_8N1 (E : externals) (s : gpsmon) (dt switcher : gps_type_t)
    (f : Z -> ascii -> Z -> bool) :
  device_type (session s) = Some dt ->
  serial s = true ->
  pick_switcher has_speed_switcher s dt = switcher ->
  speed_switcher switcher = Some f ->
  exists s' evs,
    do_command E (lit "s 4800:8N1") s = Ret true s'
    /\ added s s' = SpeedSwitcher (type_name switcher) 800 "N" 1 :: evs.
Proof.
  intros Hdt Hserial Hpick Hsw.
  rewrite do_command_verb_s by reflexivity.
  rewrite (command_s_with_modespec _ s dt 3) by (assumption || reflexivity).
  rewrite Hpick.
  destruct (speed_switch_calls (lit "s 4800:8N1") s switcher "N" 1 f Hsw)
    as (s' & evs & Hrun & Hadd).
  exists s', evs. split; [|exact Hadd].
  change (peek (lit "s 4800:8N1") (command_arg (lit "s 4800:8N1") + 3 + 2)) with "N"%char.
  change (to_unsigned (Z.of_nat (chr (peek (lit "s 4800:8N1")
            (command_arg (lit "s 4800:8N1") + 3 + 3))) - 48)) with 1%Z.
  rewrite Hrun. reflexivity.
Qed.

Lemma do_command_s_4800_8N1_witness :
  exists s' evs,
    do_command sample_externals (lit "s 4800:8N1") sample_state = Ret true s'
    /\ added sample_state s' = SpeedSwitcher (type_name sample_sticky) 800 "N" 1 :: evs.
Proof.
  apply (do_command_s_4800_8N1 sample_externals sample_state sample_sticky
           sample_sticky (fun _ _ _ => true)); reflexivity.
Defined.

(** The line with the unsupported word length is turned down before any
    switcher is called. *)
Lemma do_command_s_4800_9N1 (E : externals) (s : gpsmon) (dt : gps_type_t) :
  device_type (session s) = Some dt ->
  serial s = true ->
  do_command E (lit "s 4800:9N1") s
  = Ret true (with_trace (trace s ++ [Complain "No support for that word length." []]) s).
Proof.
  intros Hdt Hserial.
  rewrite do_command_verb_s by reflexivity.
  rewrite (command_s_bad_word_length _ s dt 3) by (assumption || reflexivity).
  reflexivity.
Qed.

(** The line as [fgets] leaves it in the input buffer, with its line feed and
    with older bytes behind the terminator: the same call. *)
Example do_command_s_4800_8N1_newline :
  exists s',
    do_command sample_externals
      (lit "s 4800:8N1" ++ [LF; NUL] ++ lit "9600:7E2") sample_state = Ret true s'
    /\ trace s' = [SpeedSwitcher (type_name sample_sticky) 800 "N" 1; Tcdrain;
                   Nanosleep 50000000; GpsdSetSpeed 800 "N" 1].
Proof. eexists. split; vm_compute; reflexivity. Qed.

(** Without the blank the same speed reaches the switcher whole. *)
Example do_command_s4800 :
  exists s',
    do_command sample_externals (lit "s4800:8N1") sample_state = Ret true s'
    /\ trace s' = [SpeedSwitcher (type_name sample_sticky) 4800 "N" 1; Tcdrain;
                   Nanosleep 50000000; GpsdSetSpeed 4800 "N" 1].
Proof. eexists. split; vm_compute; reflexivity. Qed.

Lemma In_drop {A : Type} (x : A) (n : nat) (l : list A) :
  In x (drop n l) -> In x l.
Proof.
  revert l. induction n as [|n IH]; intros l H; [rewrite drop_0 in H; exact H|].
  destruct l as [|y l]; [exact H|]. right. apply IH, H.
Qed.

Lemma command_n_switches (E : externals) (line : list ascii) (s : gpsmon)
    (dt : gps_type_t) :
  device_type (session s) = Some dt ->
  serial s = true ->
  fallback s = None ->
  mode_switcher dt = true ->
  exists s',
    command_n E line s = Ret tt s'
    /\ logfile s' = logfile s
    /\ In (ModeSwitcher (type_name dt) (to_int (requested_mode E line s)))
          (added s s').
Proof.
  intros Hdt Hserial Hfb Hms.
  unfold command_n, pick_switcher. run. rewrite Hdt, Hserial, Hfb. cbn.
  rewrite Hms. fold (requested_mode E line s). run.
  destruct (logfile s) eqn:Hlog; run;
    destruct (requested_mode E line s =? 0)%Z; run;
    eexists; (split; [reflexivity|]); (split; [cbn; congruence|]);
    (erewrite added_app; [|cbn; rewrite <- ?app_assoc; reflexivity]);
    simpl; auto.
Qed.

(** C5, where the code leaves it: when the log cannot be opened, logging is
    left disabled and [do_command] returns true, but control has run on
    into case ['n']; with a device known, a low-level session and a mode
    switcher, the device is switched to another mode. *)
Theorem do_command_l_open_failure (E : externals) (line : list ascii)
    (s : gpsmon) (dt : gps_type_t) :
  peek line 0 = "l"%char ->
  fopen_ok E (c_str line 1) "a" = false ->
  device_type (session s) = Some dt ->
  serial s = true ->
  fallback s = None ->
  mode_switcher dt = true ->
  exists s' mode,
    do_command E line s = Ret true s'
    /\ logfile s' = None
    /\ In (ModeSwitcher (type_name dt) mode) (added s s').
Proof.
  intros Hverb Hopen Hdt Hserial Hfb Hms.
  rewrite do_command_verb_l by exact Hverb.
  unfold command_l. run. rewrite Hopen.
  assert (Hclose : exists s1 evs,
            match logfile s with
            | Some p => modify (fun s0 => with_trace (trace s0 ++ [Fclose p]) s0)
            | None => mret ()
            end s = Ret tt s1
            /\ session s1 = session s /\ serial s1 = serial s
            /\ fallback s1 = fallback s /\ trace s1 = trace s ++ evs).
  { destruct (logfile s); run; do 2 eexists;
      (split; [reflexivity|]); repeat split; try reflexivity.
    symmetry. apply app_nil_r. }
  destruct Hclose as (s1 & evs & -> & Hsess & Hser & Hfall & Htrace).
  set (s0 := with_logfile None _).
  destruct (command_n_switches E line s0 dt) as (s' & Hrun & Hlog & Hin).
  { subst s0. cbn. rewrite Hsess. exact Hdt. }
  { subst s0. cbn. rewrite Hser. exact Hserial. }
  { subst s0. cbn. rewrite Hfall. exact Hfb. }
  { exact Hms. }
  rewrite Hrun. exists s', (to_int (requested_mode E line s0)).
  split; [reflexivity|]. split; [rewrite Hlog; reflexivity|].
  unfold added in *.
  assert (Hlen : length (trace s0) = length (trace s) + (length evs + 1)).
  { subst s0. cbn. rewrite Htrace, !length_app. simpl. lia. }
  rewrite Hlen, <- drop_drop in Hin.
  eapply In_drop, Hin.
Qed.

Lemma do_command_l_open_failure_witness :
  exists s' mode,
    do_command sample_externals (lit "l/var/log/gpsmon.log") sample_state = Ret true s'
    /\ logfile s' = None
    /\ In (ModeSwitcher (type_name sample_sticky) mode) (added sample_state s').
Proof.
  apply (do_command_l_open_failure sample_externals (lit "l/var/log/gpsmon.log")
           sample_state sample_sticky); reflexivity.
Defined.

(** When the log opens, the command ends there. *)
Lemma do_command_l_opened (E : externals) (line : list ascii) (s : gpsmon) :
  peek line 0 = "l"%char ->
  fopen_ok E (c_str line 1) "a" = true ->
  exists s',
    do_command E line s = Ret true s'
    /\ logfile s' = Some (c_str line 1)
    /\ added s s'
       = match logfile s with Some p => [Fclose p] | None => [] end
         ++ [Fopen (c_str line 1) "a"].
Proof.
  intros Hverb Hopen.
  rewrite do_command_verb_l by exact Hverb.
  unfold command_l. run. rewrite Hopen.
  destruct (logfile s); run; eexists; (split; [reflexivity|]);
    (split; [reflexivity|]); apply added_app; cbn; rewrite <- ?app_assoc; reflexivity.
Qed.

(** C6, as the code has it: with a device known and a low-level session,
    ['i'] toggles [context.readonly] when the line holds neither 0 nor 1,
    and otherwise sets it when the text behind the verb reads as 0 (probing
    disabled) and clears it when it reads as anything else (probing
    enabled); the retry counter is reset to zero when probing ends up
    enabled and is left alone when it ends up disabled. *)
Theorem do_command_i_probing (E : externals) (line : list ascii) (s : gpsmon)
    (dt : gps_type_t) :
  peek line 0 = "i"%char ->
  device_type (session s) = Some dt ->
  serial s = true ->
  exists s',
    do_command E line s = Ret true s'
    /\ readonly s'
       = (if no_01 line then negb (readonly s)
          else (atoi (c_str line 1) =? 0)%Z)
    /\ lexer_counter (session s')
       = (if readonly s' then lexer_counter (session s) else 0%Z).
Proof.
  intros Hverb Hdt Hserial.
  rewrite do_command_verb_i by exact Hverb.
  unfold command_i. run. rewrite Hdt, Hserial. cbn.
  destruct (no_01 line); run;
    [destruct (readonly s) | destruct (atoi (c_str line 1) =? 0)%Z]; run;
    destruct (logfile s); run; eexists; (split; [reflexivity|]); split; reflexivity.
Qed.

Lemma do_command_i_probing_witness :
  exists s',
    do_command sample_externals (lit "i1") sample_state = Ret true s'
    /\ readonly s'
       = (if no_01 (lit "i1") then negb (readonly sample_state)
          else (atoi (c_str (lit "i1") 1) =? 0)%Z)
    /\ lexer_counter (session s')
       = (if readonly s' then lexer_counter (session sample_state) else 0%Z).
Proof.
  apply (do_command_i_probing sample_externals (lit "i1") sample_state sample_sticky);
    reflexivity.
Defined.

(** [atoi] on numbers that do not fit an [int]: the low 32 bits of the
    [long], which is [LONG_MAX] for a number beyond it. *)
Example atoi_samples :
  atoi (lit "4800:8N1") = 4800%Z
  /\ atoi (lit "  -12x") = (-12)%Z
  /\ atoi (lit "12884901888") = 0%Z
  /\ atoi (lit "99999999999999999999") = (-1)%Z
  /\ to_unsigned (atoi (lit "99999999999999999999")) = 4294967295%Z.
Proof. repeat split. Qed.

(** A number whose low 32 bits are zero disables probing, and the counter
    stays. *)
Example do_command_i_wraps_to_zero :
  exists s',
    do_command sample_externals (lit "i12884901888") sample_state = Ret true s'
    /\ readonly s' = true
    /\ lexer_counter (session s') = lexer_counter (session sample_state).
Proof. eexists. split; [vm_compute; reflexivity|]. split; reflexivity. Qed.

(** C6 as stated fails: "i0" disables probing and leaves the counter at 7. *)
Lemma disabling_keeps_counter :
  ~ disabling_resets_counter sample_externals (lit "i0") sample_state.
Proof.
  intros H.
  specialize (H (with_readonly true sample_state) eq_refl eq_refl).
  vm_compute in H. discriminate H.
Qed.

(** ** The per-packet hook *)

Lemma latches_app (l1 l2 : list event) : latches (l1 ++ l2) = latches l1 ++ latches l2.
Proof.
  induction l1 as [|e l1 IH]; [reflexivity|].
  destruct e; simpl; rewrite IH; reflexivity.
Qed.

Lemma hook_report_and_latch_spec (E : externals) (what : string) (s : gpsmon) :
  log_write_ok E s = true ->
  exists s',
    hook_report_and_latch E what s = Ret tt s'
    /\ time_offset s' = time_offset s
    /\ latches (added s s')
       = if new_fix_second (session s) then [time_offset s] else [].
Proof.
  intros Hlog. unfold hook_report_and_latch, log_write_ok, new_fix_second in *. run.
  assert (Hfix :
    (if (0 >=? tv_sec (newdata_time (session s)))%Z then false
     else if (tv_sec (newdata_time (session s)) <=? tv_sec (real (fix_in (session s))))%Z
          then false else true)
    = (0 <? tv_sec (newdata_time (session s)))%Z
      && (tv_sec (real (fix_in (session s))) <? tv_sec (newdata_time (session s)))%Z).
  { destruct (Z.geb_spec 0 (tv_sec (newdata_time (session s)))),
             (Z.leb_spec (tv_sec (newdata_time (session s)))
                         (tv_sec (real (fix_in (session s))))),
             (Z.ltb_spec 0 (tv_sec (newdata_time (session s)))),
             (Z.ltb_spec (tv_sec (real (fix_in (session s))))
                         (tv_sec (newdata_time (session s)))); simpl; lia || reflexivity. }
  rewrite <- Hfix. clear Hfix.
  destruct (curses_active s); run;
    (destruct (logfile s); run;
     [destruct (lexer_outbuflen (session s)); run; [|cbn in Hlog; rewrite Hlog; run]|]);
    destruct (0 >=? tv_sec (newdata_time (session s)))%Z; run;
    try destruct (tv_sec (newdata_time (session s)) <=? tv_sec (real (fix_in (session s))))%Z;
    run;
    eexists; (split; [reflexivity|]); (split; [reflexivity|]);
    (erewrite added_app; [|cbn; rewrite <- ?app_assoc; reflexivity]);
    reflexivity.
Qed.

Lemma added_same (s s' : gpsmon) : trace s' = trace s -> added s s' = [].
Proof. intros H. unfold added. rewrite H. apply drop_all. Qed.

Lemma hook_report_trace (E : externals) (what : string) (s s' : gpsmon) :
  hook_report_and_latch E what s = Ret tt s' ->
  exists evs, trace s' = trace s ++ evs.
Proof.
  unfold hook_report_and_latch. run.
  destruct (curses_active s); run;
    (destruct (logfile s); run;
     [destruct (lexer_outbuflen (session s)); run;
      [|destruct (fwrite_count E _ >=? 1)%Z; run; [|discriminate]]|]);
    destruct (0 >=? tv_sec (newdata_time (session s)))%Z; run;
    try destruct (tv_sec (newdata_time (session s)) <=? tv_sec (real (fix_in (session s))))%Z;
    run; intros [= <-]; cbn; rewrite <- ?app_assoc; eexists; reflexivity.
Qed.

Lemma gpsmon_hook_toff (E : externals) (s : gpsmon) :
  toff_event E s = true ->
  exists s',
    gpsmon_hook E s = Ret tt s'
    /\ latches (added s s') = []
    /\ (fst (json_toff_read E (outbuffer_text s)) = 0%Z ->
        time_offset s' = snd (json_toff_read E (outbuffer_text s))).
Proof.
  intros Htoff. unfold gpsmon_hook. run. rewrite Htoff. unfold hook_toff. run.
  destruct (Z.eqb_spec (fst (json_toff_read E (outbuffer_text s))) 0) as [Hz|Hne]; run.
  - destruct (curses_active s); run; eexists; (split; [reflexivity|]);
      (split; [|reflexivity]);
      [rewrite added_same by reflexivity
      |erewrite added_app; [|cbn; rewrite <- ?app_assoc; reflexivity]];
      reflexivity.
  - eexists. split; [reflexivity|]. split; [|intros; contradiction].
    erewrite added_app; [|cbn; reflexivity]. reflexivity.
Qed.

Lemma report_after (E : externals) (what : string) (s s1 : gpsmon)
    (evs : list event) :
  trace s1 = trace s ++ evs ->
  latches evs = [] ->
  time_offset s1 = time_offset s ->
  new_fix_second (session s1) = new_fix_second (session s) ->
  log_write_ok E s1 = true ->
  exists s',
    hook_report_and_latch E what s1 = Ret tt s'
    /\ time_offset s' = time_offset s
    /\ latches (added s s')
       = if new_fix_second (session s) then [time_offset s] else [].
Proof.
  intros Htr Hnol Hto Hnf Hlog1.
  destruct (hook_report_and_latch_spec E what s1 Hlog1) as (s' & Hrun & Hoff & Hl).
  destruct (hook_report_trace E _ _ _ Hrun) as [rest Hrest].
  exists s'. split; [exact Hrun|]. split; [congruence|].
  rewrite <- Hto, <- Hnf, <- Hl.
  rewrite (added_app s1 s' rest Hrest).
  rewrite (added_app s s' (evs ++ rest)) by (rewrite Hrest, Htr, app_assoc; reflexivity).
  rewrite latches_app, Hnol. reflexivity.
Qed.

Lemma gpsmon_hook_report (E : externals) (s : gpsmon) :
  toff_event E s = false ->
  (pps_event E s = true -> fst (json_pps_read E (outbuffer_text s)) = 0%Z) ->
  log_write_ok E s = true ->
  exists s',
    gpsmon_hook E s = Ret tt s'
    /\ time_offset s' = time_offset s
    /\ latches (added s s')
       = if new_fix_second (session s) then [time_offset s] else [].
Proof.
  intros Htoff Hpps Hlog. unfold gpsmon_hook. run. rewrite Htoff.
  destruct (pps_event E s).
  - unfold hook_pps. run. rewrite (Hpps eq_refl). cbn.
    destruct (curses_active s); run.
    + apply (report_after E _ s _ []); try reflexivity; [|exact Hlog].
      cbn. symmetry. apply app_nil_r.
    + apply (report_after E _ s _ [Stderr "PPS=%.20s clock=%.20s offset=%.20s"]);
        try reflexivity. exact Hlog.
  - apply hook_report_and_latch_spec, Hlog.
Qed.

(** C4, as the code has it.  A TOFF report of the daemon records its sample
    in [time_offset] and returns: it is never latched.  After every other
    packet that gets past the report (a PPS report of the daemon that is
    well formed, any other packet; the write to an open log keeping its
    assertion), [ntp_latch] is called once, with the sample recorded last,
    if the fix time is positive and newer than the reference fix time, and
    not at all otherwise. *)
Theorem gpsmon_hook_latches_new_fix (E : externals) (s : gpsmon) :
  (toff_event E s = false ->
   (pps_event E s = true -> fst (json_pps_read E (outbuffer_text s)) = 0%Z)
   /\ log_write_ok E s = true) ->
  exists s',
    gpsmon_hook E s = Ret tt s'
    /\ if toff_event E s then
         latches (added s s') = []
         /\ (fst (json_toff_read E (outbuffer_text s)) = 0%Z ->
             time_offset s' = snd (json_toff_read E (outbuffer_text s)))
       else
         time_offset s' = time_offset s
         /\ latches (added s s')
            = if new_fix_second (session s) then [time_offset s] else [].
Proof.
  intros Hpre. destruct (toff_event E s) eqn:Htoff.
  - destruct (gpsmon_hook_toff E s Htoff) as (s' & Hrun & Hl & Hoff). eauto.
  - destruct (Hpre eq_refl) as [Hpps Hlog].
    destruct (gpsmon_hook_report E s Htoff Hpps Hlog) as (s' & Hrun & Hoff & Hl). eauto.
Qed.

Lemma gpsmon_hook_latches_new_fix_witness :
  exists s',
    gpsmon_hook sample_externals sample_state = Ret tt s'
    /\ if toff_event sample_externals sample_state then
         latches (added sample_state s') = []
         /\ (fst (json_toff_read sample_externals (outbuffer_text sample_state)) = 0%Z ->
             time_offset s'
             = snd (json_toff_read sample_externals (outbuffer_text sample_state)))
       else
         time_offset s' = time_offset sample_state
         /\ latches (added sample_state s')
            = if new_fix_second (session sample_state)
              then [time_offset sample_state] else [].
Proof.
  apply (gpsmon_hook_latches_new_fix sample_externals sample_state).
  intros _. split; [intros H; vm_compute in H; discriminate H | reflexivity].
Defined.

(** C4 as stated fails: a TOFF report whose session holds a new fix second
    is not latched. *)
Lemma toff_event_is_not_latched :
  ~ every_new_fix_latched sample_externals sample_toff_state.
Proof.
  intros H.
  specialize (H (with_time_offset sample_toff
                   (with_trace [Stderr "TOFF=%s real=%s"]
                      (with_session (with_gpsdata_toff sample_toff) sample_toff_state)))
                eq_refl eq_refl).
  vm_compute in H. discriminate H.
Qed.

(** A TOFF report followed by a packet with a new fix second: the report is
    not latched, the packet is, once, with the sample of the report. *)
Lemma toff_then_new_fix (E : externals) (s s1 s2 : gpsmon) :
  toff_event E s = true ->
  fst (json_toff_read E (outbuffer_text s)) = 0%Z ->
  gpsmon_hook E s = Ret tt s1 ->
  time_offset s2 = time_offset s1 ->
  toff_event E s2 = false ->
  (pps_event E s2 = true -> fst (json_pps_read E (outbuffer_text s2)) = 0%Z) ->
  log_write_ok E s2 = true ->
  new_fix_second (session s2) = true ->
  latches (added s s1) = []
  /\ exists s3,
       gpsmon_hook E s2 = Ret tt s3
       /\ latches (added s2 s3) = [snd (json_toff_read E (outbuffer_text s))].
Proof.
  intros Htoff Hstatus Hrun1 Hkeep Hnot Hpps Hlog Hnew.
  destruct (gpsmon_hook_toff E s Htoff) as (s1' & Hrun1' & Hl1 & Hoff1).
  rewrite Hrun1 in Hrun1'. injection Hrun1' as <-.
  split; [exact Hl1|].
  destruct (gpsmon_hook_report E s2 Hnot Hpps Hlog) as (s3 & Hrun2 & _ & Hl2).
  exists s3. split; [exact Hrun2|].
  rewrite Hl2, Hnew, Hkeep, (Hoff1 Hstatus). reflexivity.
Qed.

(** ** The shutdown path *)

Lemma stderr_texts_app (l1 l2 : list event) :
  stderr_texts (l1 ++ l2) = stderr_texts l1 ++ stderr_texts l2.
Proof.
  induction l1 as [|e l1 IH]; [reflexivity|].
  destruct e; simpl; rewrite IH; reflexivity.
Qed.

Lemma explanation_cases (bailout : Z) :
  explanation bailout
  = if (bailout =? 5)%Z || (bailout =? 6)%Z then None
    else if (bailout =? 1)%Z then Some ("I/O wait on device failed" ++ newline)%string
    else if (bailout =? 2)%Z then Some ("Driver type switch failed" ++ newline)%string
    else if (bailout =? 3)%Z then Some ("Device went offline" ++ newline)%string
    else if (bailout =? 4)%Z then Some ("Read error from device" ++ newline)%string
    else Some unknown_error.
Proof.
  unfold explanation, TERM_SELECT_FAILED, TERM_DRIVER_SWITCH, TERM_EMPTY_READ,
    TERM_READ_ERROR, TERM_SIGNAL, TERM_QUIT.
  destruct (Z.eqb_spec bailout 1) as [->|]; [reflexivity|].
  destruct (Z.eqb_spec bailout 2) as [->|]; [reflexivity|].
  destruct (Z.eqb_spec bailout 3) as [->|]; [reflexivity|].
  destruct (Z.eqb_spec bailout 4) as [->|]; [reflexivity|].
  destruct (Z.eqb_spec bailout 5) as [->|]; [reflexivity|].
  destruct (Z.eqb_spec bailout 6) as [->|]; reflexivity.
Qed.

(** C7: whatever cause [bailout] records, the shutdown path runs to its
    end, writes to stderr the one message of [explanation] for that cause
    and nothing else (no message at all for the signal and the quit cause),
    and ends in [exit(EXIT_SUCCESS)].  The four named causes have four
    messages of their own, different from each other and from the one for
    an unknown cause, which every value outside 1..6 gets. *)
Theorem quit_explains_cause (bailout : Z) (s : gpsmon) :
  exists s',
    quit bailout s = Ret tt s'
    /\ last (added s s') = Some (Exit EXIT_SUCCESS)
    /\ stderr_texts (added s s')
       = match explanation bailout with Some text => [text] | None => [] end
    /\ explanation TERM_SELECT_FAILED = Some ("I/O wait on device failed" ++ newline)%string
    /\ explanation TERM_DRIVER_SWITCH = Some ("Driver type switch failed" ++ newline)%string
    /\ explanation TERM_EMPTY_READ = Some ("Device went offline" ++ newline)%string
    /\ explanation TERM_READ_ERROR = Some ("Read error from device" ++ newline)%string
    /\ explanation TERM_SIGNAL = None
    /\ explanation TERM_QUIT = None
    /\ ((bailout < 1 \/ 6 < bailout)%Z -> explanation bailout = Some unknown_error)
    /\ NoDup [explanation TERM_SELECT_FAILED; explanation TERM_DRIVER_SWITCH;
              explanation TERM_EMPTY_READ; explanation TERM_READ_ERROR;
              Some unknown_error; None].
Proof.
  assert (Hrun : exists s',
    quit bailout s = Ret tt s'
    /\ last (added s s') = Some (Exit EXIT_SUCCESS)
    /\ stderr_texts (added s s')
       = match explanation bailout with Some text => [text] | None => [] end).
  { unfold quit. run.
    destruct (serial s), (logfile s), (curses_active s), (explanation bailout); run;
      eexists; (split; [reflexivity|]);
      (erewrite added_app; [|cbn; rewrite <- ?app_assoc; reflexivity]);
      split; reflexivity. }
  destruct Hrun as (s' & Hrun & Hlast & Hmsg).
  exists s'. repeat (split; [assumption || reflexivity|]).
  split.
  - intros Hother. rewrite explanation_cases.
    destruct (Z.eqb_spec bailout 5); [lia|]. destruct (Z.eqb_spec bailout 6); [lia|].
    destruct (Z.eqb_spec bailout 1); [lia|]. destruct (Z.eqb_spec bailout 2); [lia|].
    destruct (Z.eqb_spec bailout 3); [lia|]. destruct (Z.eqb_spec bailout 4); [lia|].
    reflexivity.
  - apply NoDup_ListNoDup. vm_compute.
    repeat (constructor; [simpl; intuition discriminate|]). constructor.
Qed.
(** ** The sentence tags of the NMEA handler *)

Lemma to_int_small (z : Z) :
  (- 2 ^ 31 <= z < 2 ^ 31)%Z -> to_int (to_unsigned z) = z.
Proof.
  intros Hz. unfold to_int, to_unsigned.
  destruct (Z.ltb_spec (z mod 2 ^ 32) (2 ^ 31)) as [Hlt|Hge].
  - destruct (Z.le_gt_cases 0 z) as [Hpos|Hneg].
    + apply Z.mod_small. lia.
    + exfalso. replace z with (z + 2 ^ 32 - 1 * 2 ^ 32)%Z in Hlt by lia.
      rewrite Zminus_mod, Z_mod_mult, Z.sub_0_r, Z.mod_mod in Hlt by lia.
      rewrite Z.mod_small in Hlt by lia. lia.
  - destruct (Z.le_gt_cases 0 z) as [Hpos|Hneg].
    + rewrite Z.mod_small in Hge by lia. lia.
    + replace z with (z + 2 ^ 32 - 1 * 2 ^ 32)%Z at 1 by lia.
      rewrite Zminus_mod, Z_mod_mult, Z.sub_0_r, Z.mod_mod by lia.
      rewrite Z.mod_small by lia. lia.
Qed.

Lemma is_char_refl c : is_char c c = true.
Proof. apply Ascii.eqb_refl. Qed.

Lemma str_starts_with_app (b c : list ascii) : str_starts_with (b ++ c) b = true.
Proof.
  induction b as [|d b IH]; [destruct c; reflexivity|]. cbn [app str_starts_with].
  rewrite is_char_refl, IH. reflexivity.
Qed.

Lemma strstr_prefix (h n : list ascii) :
  str_starts_with h n = true -> strstr h n = true.
Proof. intros H. destruct h; cbn [strstr]; rewrite H; reflexivity. Qed.

Lemma strstr_middle (a b c : list ascii) : strstr (a ++ b ++ c) b = true.
Proof.
  induction a as [|d a IH].
  - apply strstr_prefix. exact (str_starts_with_app b c).
  - cbn [app strstr]. rewrite IH. apply orb_true_r.
Qed.



(** A new tag that fits: the blank, the tag and the terminator follow the
    line. *)
Lemma note_sentence_append_run (xmax : Z) (tag pre post : list ascii) :
  Forall nonnul pre ->
  strstr pre tag = false ->
  (Z.of_nat (length pre + length tag) < xmax - 2)%Z ->
  (Z.of_nat (length pre + length tag) < 2 ^ 31)%Z ->
  length tag < SENTENCES_SIZE ->
  length tag + 1 <= length post ->
  note_sentence xmax tag (pre ++ NUL :: post)
  = Some ((pre ++ SPACE :: tag) ++ NUL :: drop (length tag + 1) post).
Proof.
  intros Hpre Hnew Hfits Hx Hsize Hroom.
  assert (Hstr : c_str (pre ++ NUL :: post) 0 = pre).
  { unfold c_str. rewrite drop_0. apply until_nul_app, Hpre. }
  unfold note_sentence. rewrite Hstr, Hnew.
  unfold strlen. rewrite drop_0, strlen_from_app by exact Hpre.
  cbn [mbind option_bind].
  rewrite to_int_small by lia.
  apply Z.ltb_lt in Hfits. rewrite Hfits.
  rewrite poke_middle. cbn [mbind option_bind].
  rewrite take_ge by (unfold SENTENCES_SIZE in *; lia).
  replace (pre ++ SPACE :: post)
    with ((pre ++ [SPACE]) ++ take (length tag + 1) post ++ drop (length tag + 1) post)
    by (rewrite take_drop, <- app_assoc; reflexivity).
  replace (S (length pre)) with (length (pre ++ [SPACE]))
    by (rewrite length_app; simpl; lia).
  rewrite store_middle by (rewrite length_take, length_app; simpl; lia).
  rewrite <- !app_assoc. reflexivity.
Qed.


(** ** The NMEA handler *)

Section NmeaFacts.

Variable TS_SUB : timespec -> timespec -> timespec.
Variable TS_GZ : timespec -> bool.
Variable TS_GT : timespec -> timespec -> bool.


End NmeaFacts.


(** The other unassigned local, [xmax], decides whether a new tag is
    appended or the line is closed with dots. *)
Example nmea_update_xmax_80 :
  exists st,
    nmea_update sample_TS_SUB sample_TS_GZ sample_TS_GT 24 80 zero_time
      (lit "$GPRMC,1") (Some [Some (lit "GPRMC")]) sample_statics = Ret tt st
    /\ c_str (sentences st) 0 = lit "GPGGA GPRMC".
Proof. eexists. split; vm_compute; reflexivity. Qed.

Example nmea_update_xmax_3 :
  exists st,
    nmea_update sample_TS_SUB sample_TS_GZ sample_TS_GT 24 3 zero_time
      (lit "$GPRMC,1") (Some [Some (lit "GPRMC")]) sample_statics = Ret tt st
    /\ c_str (sentences st) 0 = lit "GP...".
Proof. eexists. split; vm_compute; reflexivity. Qed.

(** ** More on the visualization helpers *)


Lemma truncate_take size s :
  (0 < size)%N -> truncate size s = take (N.to_nat (size - 1)) s.
Proof.
  intros Hpos. unfold truncate.
  destruct (N.ltb_spec (N.of_nat (length s)) size); [|reflexivity].
  symmetry. apply take_ge. lia.
Qed.

(** [snprintf] behind the string a buffer holds, cut short or not, when the
    size it is given lies inside the buffer. *)
Lemma snprintf_within pre post size s :
  (0 < size)%N -> N.to_nat size <= 1 + length post ->
  snprintf (pre ++ NUL :: post) (length pre) size s
  = Some ((pre ++ truncate size s) ++ NUL :: drop (length (truncate size s)) post)
    /\ length (truncate size s) <= length post
    /\ length (truncate size s) + 1 <= N.to_nat size.
Proof.
  intros Hpos Hroom.
  assert (Hlen : length (truncate size s) <= N.to_nat (size - 1)).
  { rewrite truncate_take by exact Hpos. rewrite length_take. lia. }
  split; [|lia].
  unfold snprintf. destruct (N.eqb_spec size 0); [lia|].
  set (t := truncate size s) in *.
  rewrite <- (take_drop (length t) post) at 1.
  change (NUL :: take (length t) post ++ drop (length t) post)
    with ((NUL :: take (length t) post) ++ drop (length t) post).
  rewrite store_middle.
  - rewrite <- !app_assoc. reflexivity.
  - simpl. rewrite length_take, length_app. simpl. lia.
Qed.

Lemma take_take_app {A : Type} (n : nat) (a b : list A) :
  take n (take n a ++ b) = take n (a ++ b).
Proof.
  destruct (decide (n <= length a)) as [Hle|Hgt].
  - rewrite !take_app_le by (rewrite ?length_take; lia).
    apply take_take_eq || (rewrite take_take; f_equal; lia).
  - rewrite (take_ge a) by lia. reflexivity.
Qed.

Lemma fmt_02x_isprint c : Forall (fun d => isprint d = true) (fmt_02x c).
Proof. unfold fmt_02x. repeat constructor; apply hexdigit_isprint. Qed.

Lemma hex_text_isprint x : Forall (fun d => isprint d = true) (hex_text x).
Proof.
  induction x as [|c x IH]; [constructor|].
  unfold hex_text. cbn [map concat]. apply Forall_app.
  split; [apply fmt_02x_isprint | exact IH].
Qed.

Lemma hex_text_length x : length (hex_text x) = 2 * length x.
Proof.
  induction x as [|c x IH]; [reflexivity|].
  unfold hex_text in *. cbn [map concat]. rewrite length_app, IH. simpl. lia.
Qed.

Lemma hexdump_loop_spec (len2 : nat) (x : list ascii) :
  (N.of_nat len2 < SIZE_MOD)%N ->
  forall n i pre post,
    i + n = length x ->
    Forall nonnul pre ->
    length pre + 1 <= len2 ->
    len2 <= length (pre ++ NUL :: post) ->
    exists post',
      hexdump_loop len2 x n i (pre ++ NUL :: post)
      = Some (take (len2 - 1) (pre ++ hex_text (drop i x)) ++ NUL :: post')
      /\ length (take (len2 - 1) (pre ++ hex_text (drop i x)) ++ NUL :: post')
         = length (pre ++ NUL :: post)
      /\ drop len2 (take (len2 - 1) (pre ++ hex_text (drop i x)) ++ NUL :: post')
         = drop len2 (pre ++ NUL :: post).
Proof.
  intros Hlen2. induction n as [|n IH]; intros i pre post Hi Hpre Hfit Hcap.
  - rewrite drop_ge by lia. unfold hex_text. simpl. rewrite app_nil_r.
    rewrite take_ge by lia. exists post. auto.
  - destruct (lookup_lt_is_Some_2 x i) as [c Hc]; [lia|].
    rewrite (drop_S _ _ _ Hc). cbn [hexdump_loop]. rewrite (peek_lookup _ _ _ Hc).
    unfold str_appendf, strlen. rewrite drop_0, strlen_from_app by exact Hpre.
    cbn [mbind option_bind]. rewrite size_sub_le by lia.
    set (size := N.of_nat (len2 - length pre)).
    destruct (snprintf_within pre post size (fmt_02x c)) as (Hrun & Ht1 & Ht2);
      [subst size; lia | subst size; rewrite length_app in Hcap; simpl in Hcap; lia |].
    rewrite Hrun. cbn [mbind option_bind].
    set (t := truncate size (fmt_02x c)) in *.
    assert (Htake : t = take (len2 - 1 - length pre) (fmt_02x c)).
    { subst t. rewrite truncate_take by (subst size; lia). f_equal. subst size. lia. }
    destruct (IH (S i) (pre ++ t) (drop (length t) post)) as (post' & Hrun' & Hl & Hd).
    { lia. }
    { apply Forall_app. split; [exact Hpre|]. rewrite Htake.
      apply Forall_take, isprint_all_nonnul, fmt_02x_isprint. }
    { rewrite length_app. subst size. lia. }
    { rewrite length_after_append by exact Ht1. exact Hcap. }
    assert (Heq : take (len2 - 1) ((pre ++ t) ++ hex_text (drop (S i) x))
                  = take (len2 - 1) (pre ++ hex_text (c :: drop (S i) x))).
    { unfold hex_text. cbn [map concat]. fold (hex_text (drop (S i) x)).
      rewrite (app_assoc pre (fmt_02x c)).
      rewrite <- (take_take_app (len2 - 1) (pre ++ fmt_02x c)).
      rewrite (take_app_ge pre) by lia. rewrite <- Htake. reflexivity. }
    rewrite Heq in *. exists post'. split; [exact Hrun'|]. split.
    + rewrite Hl. apply length_after_append, Ht1.
    + rewrite Hd. apply drop_after_append; [subst size; lia | exact Ht1].
Qed.

Lemma all_printable_false_nonempty (x : list ascii) :
  all_printable x (length x) = false -> 1 <= length x.
Proof. destruct x; [discriminate | simpl; lia]. Qed.

Lemma cond_hexdump_binary_run (textual : bool) (x buf2 : list ascii)
    (len2 : nat) :
  all_printable x (length x) = false ->
  1 <= len2 -> len2 <= length buf2 -> (N.of_nat len2 < SIZE_MOD)%N ->
  exists out,
    cond_hexdump textual buf2 len2 x (length x) = Some out
    /\ c_str out 0 = take (len2 - 1) (hex_text x)
    /\ length out = length buf2
    /\ drop len2 out = drop len2 buf2.
Proof.
  intros Hbin Hpos Hcap Hlen2. unfold cond_hexdump. rewrite Hbin.
  destruct buf2 as [|m post]; [simpl in Hcap; lia|].
  change (poke (m :: post) 0 NUL) with (poke ([] ++ m :: post) (length (@nil ascii)) NUL).
  rewrite poke_middle. cbn [mbind option_bind].
  destruct (hexdump_loop_spec len2 x Hlen2 (length x) 0 [] post)
    as (post' & Hrun & Hl & Hd); [lia | constructor | simpl; lia | exact Hcap |].
  rewrite drop_0 in *. cbn [app] in *.
  eexists. split; [exact Hrun|]. split; [|split].
  - unfold c_str. rewrite drop_0. apply until_nul_app.
    apply Forall_take, isprint_all_nonnul, hex_text_isprint.
  - rewrite Hl. reflexivity.
  - rewrite Hd. destruct len2; [lia | reflexivity].
Qed.

Lemma hexdigit_is_hex n : is_hex_digit (hexdigit n) = true.
Proof.
  unfold hexdigit.
  destruct (nth_in_or_default n (lit "0123456789abcdef") "0"%char) as [H | ->];
    [|reflexivity].
  remember (nth n (lit "0123456789abcdef") "0"%char) as d eqn:Hd. clear Hd.
  cbv [lit list_ascii_of_string In] in H.
  repeat (destruct H as [<- | H]; [reflexivity|]). destruct H.
Qed.

Lemma hex_text_digits x : forallb is_hex_digit (hex_text x) = true.
Proof.
  induction x as [|c x IH]; [reflexivity|].
  unfold hex_text in *. cbn [map concat fmt_02x app forallb].
  rewrite !hexdigit_is_hex, IH. reflexivity.
Qed.

Lemma forallb_take {A : Type} (f : A -> bool) (n : nat) (l : list A) :
  forallb f l = true -> forallb f (take n l) = true.
Proof.
  revert n. induction l as [|a l IH]; intros [|n] H; try reflexivity.
  simpl in *. apply andb_true_iff in H as [Ha Hl]. rewrite Ha, IH; auto.
Qed.

(** X1.  For an input with a byte that is neither printable nor white space,
    and a destination of [len2 >= 1] bytes, [cond_hexdump] returns with the
    first [len2 - 1] characters of the full hex dump in the destination: two
    lower-case hex digits a byte, the whole dump when [2 * len < len2], and
    no byte stored from offset [len2] on, whatever the destination held. *)
Theorem cond_hexdump_hex_branch (textual : bool) (x buf2 : list ascii) (len2 : nat) :
  all_printable x (length x) = false ->
  1 <= len2 -> len2 <= length buf2 -> (N.of_nat len2 < SIZE_MOD)%N ->
  exists out,
    cond_hexdump textual buf2 len2 x (length x) = Some out
    /\ c_str out 0 = take (len2 - 1) (hex_text x)
    /\ forallb is_hex_digit (c_str out 0) = true
    /\ length (c_str out 0) = Nat.min (2 * length x) (len2 - 1)
    /\ (2 * length x < len2 -> c_str out 0 = hex_text x)
    /\ length out = length buf2
    /\ drop len2 out = drop len2 buf2.
Proof.
  intros Hbin Hpos Hcap Hlen2.
  destruct (cond_hexdump_binary_run textual x buf2 len2 Hbin Hpos Hcap Hlen2)
    as (out & Hrun & Hstr & Hl & Hd).
  exists out. rewrite Hstr. repeat split; try assumption.
  - apply forallb_take, hex_text_digits.
  - rewrite length_take, hex_text_length. lia.
  - intros Hroom. apply take_ge. rewrite hex_text_length. lia.
Qed.

Lemma cond_hexdump_hex_branch_witness :
  exists out,
    cond_hexdump false (replicate 8 "Z"%char) 6 (lit "ab" ++ ["001"%char]) 3 = Some out
    /\ c_str out 0 = take (6 - 1) (hex_text (lit "ab" ++ ["001"%char]))
    /\ forallb is_hex_digit (c_str out 0) = true
    /\ length (c_str out 0) = Nat.min (2 * 3) (6 - 1)
    /\ (2 * 3 < 6 -> c_str out 0 = hex_text (lit "ab" ++ ["001"%char]))
    /\ length out = length (replicate 8 "Z"%char)
    /\ drop 6 out = drop 6 (replicate 8 "Z"%char).
Proof.
  apply (cond_hexdump_hex_branch false (lit "ab" ++ ["001"%char]) (replicate 8 "Z"%char) 6).
  - reflexivity.
  - lia.
  - simpl. lia.
  - vm_compute. reflexivity.
Defined.

(** X2.  [packet_dump], and [monitor_dump_send] through it, gives
    [cond_hexdump] the size [buflen * 2]: for a packet with a byte that is
    neither printable nor white space the dump is the full hex text less
    its last digit, and the stores stay below [buflen * 2]. *)
Theorem packet_dump_loses_last_digit (textual : bool) (stack x : list ascii) :
  all_printable x (length x) = false ->
  length x * 2 <= length stack ->
  (N.of_nat (length x * 2) < SIZE_MOD)%N ->
  exists out d,
    monitor_dump_send textual stack x (length x) = Some out
    /\ hex_text x = c_str out 0 ++ [d]
    /\ length out = length stack
    /\ drop (length x * 2) out = drop (length x * 2) stack.
Proof.
  intros Hbin Hcap Hsize.
  pose proof (all_printable_false_nonempty x Hbin) as Hne.
  destruct (cond_hexdump_binary_run textual x stack (length x * 2) Hbin)
    as (out & Hrun & Hstr & Hl & Hd); [lia | exact Hcap | exact Hsize |].
  assert (Hlast : exists d, drop (length x * 2 - 1) (hex_text x) = [d]).
  { pose proof (length_drop (hex_text x) (length x * 2 - 1)) as Hlen.
    rewrite hex_text_length in Hlen.
    destruct (drop (length x * 2 - 1) (hex_text x)) as [|d [|? ?]];
      simpl in Hlen; try lia. eauto. }
  destruct Hlast as [d Hlast].
  exists out, d. unfold monitor_dump_send, packet_dump.
  replace (N.to_nat ((N.of_nat (length x) * 2) mod SIZE_MOD)) with (length x * 2)
    by (rewrite N.mod_small by lia; lia).
  split; [exact Hrun|]. split; [|split; assumption].
  rewrite Hstr, <- Hlast. symmetry. apply take_drop.
Qed.

Lemma packet_dump_loses_last_digit_witness :
  exists out d,
    monitor_dump_send false (replicate 16 "Z"%char) (lit "ab" ++ ["001"%char])
      (length (lit "ab" ++ ["001"%char])) = Some out
    /\ hex_text (lit "ab" ++ ["001"%char]) = c_str out 0 ++ [d]
    /\ length out = length (replicate 16 "Z"%char)
    /\ drop (length (lit "ab" ++ ["001"%char]) * 2) out
       = drop (length (lit "ab" ++ ["001"%char]) * 2) (replicate 16 "Z"%char).
Proof.
  apply (packet_dump_loses_last_digit false (replicate 16 "Z"%char)
           (lit "ab" ++ ["001"%char])).
  - reflexivity.
  - simpl. lia.
  - vm_compute. reflexivity.
Defined.

(** The printable branch keeps inside the size it is given, cut short or
    not. *)
Lemma printable_loop_bounded (textual : bool) (len2 : nat) (buf : list ascii)
    (len : nat) :
  (N.of_nat len2 < SIZE_MOD)%N ->
  forall n i pre post,
    Forall (fun d => isprint d = true) pre ->
    length pre + 1 <= len2 ->
    len2 <= length (pre ++ NUL :: post) ->
    exists pre' post',
      printable_loop textual len2 buf len n i (length pre) (pre ++ NUL :: post)
      = Some (pre' ++ NUL :: post')
      /\ Forall (fun d => isprint d = true) pre'
      /\ length pre' + 1 <= len2
      /\ length (pre' ++ NUL :: post') = length (pre ++ NUL :: post)
      /\ drop len2 (pre' ++ NUL :: post') = drop len2 (pre ++ NUL :: post).
Proof.
  intros Hlen2. induction n as [|n IH]; intros i pre post Hpre Hfit Hcap.
  - exists pre, post. auto.
  - cbn [printable_loop]. rewrite size_sub_1 by lia.
    destruct (N.ltb_spec (N.of_nat (length pre)) (N.of_nat (len2 - 1))) as [Hj|Hj];
      [|exists pre, post; auto].
    destruct (isprint (peek buf i)) eqn:Hpc.
    + destruct post as [|p post]; [rewrite length_app in Hcap; simpl in Hcap; lia|].
      rewrite poke_middle. cbn [mbind option_bind].
      replace (pre ++ peek buf i :: p :: post) with ((pre ++ [peek buf i]) ++ p :: post)
        by (rewrite <- app_assoc; reflexivity).
      replace (S (length pre)) with (length (pre ++ [peek buf i]))
        by (rewrite length_app; simpl; lia).
      rewrite poke_middle. cbn [mbind option_bind].
      destruct (IH (S i) (pre ++ [peek buf i]) post) as (pre' & post' & Hrun & Hp & Hf & Hl & Hd).
      { apply Forall_app. split; [exact Hpre|]. repeat constructor. exact Hpc. }
      { rewrite length_app. simpl. lia. }
      { rewrite !length_app in *. simpl in *. lia. }
      exists pre', post'. split; [exact Hrun|]. repeat split; try assumption.
      * rewrite Hl, !length_app. simpl. lia.
      * rewrite Hd.
        rewrite (cons_middle NUL (pre ++ [peek buf i])), (cons_middle NUL pre),
          (cons_middle p ([NUL])), !app_assoc.
        rewrite !drop_app_ge by (rewrite ?length_app; simpl; lia).
        f_equal. rewrite !length_app. simpl. lia.
    + destruct (textual && _ && is_char (peek buf i) LF).
      { apply IH; assumption. }
      destruct (textual && _ && is_char (peek buf i) CR).
      { apply IH; assumption. }
      unfold strlen. rewrite drop_0, strlen_from_app by (apply isprint_all_nonnul, Hpre).
      cbn [mbind option_bind]. rewrite size_sub_le by lia.
      set (size := N.of_nat (len2 - length pre)).
      destruct (snprintf_within pre post size (hex_escape (peek buf i))) as (Hrun & Ht1 & Ht2);
        [subst size; lia | subst size; rewrite length_app in Hcap; simpl in Hcap; lia |].
      rewrite Hrun. cbn [mbind option_bind].
      set (t := truncate size (hex_escape (peek buf i))) in *.
      assert (Htp : Forall (fun d => isprint d = true) (pre ++ t)).
      { apply Forall_app. split; [exact Hpre|]. subst t.
        rewrite truncate_take by (subst size; lia).
        apply Forall_take, hex_escape_isprint. }
      rewrite drop_0, strlen_from_app by (apply isprint_all_nonnul, Htp).
      cbn [mbind option_bind].
      destruct (IH (S i) (pre ++ t) (drop (length t) post))
        as (pre' & post' & Hrun' & Hp & Hf & Hl & Hd).
      { exact Htp. }
      { rewrite length_app. subst size. lia. }
      { rewrite length_after_append by exact Ht1. exact Hcap. }
      exists pre', post'. split; [exact Hrun'|]. repeat split; try assumption.
      * rewrite Hl. apply length_after_append, Ht1.
      * rewrite Hd. apply drop_after_append; [subst size; lia | exact Ht1].
Qed.

(** X3.  Given a destination that holds the empty string, of [len2 >= 1]
    bytes, [cond_hexdump] returns for every input, printable or not, cut
    short or not: the result is a string of fewer than [len2] printable
    characters, and no byte is stored from offset [len2] on. *)
Theorem cond_hexdump_stays_inside (textual : bool) (x buf2 : list ascii)
    (len2 : nat) :
  peek buf2 0 = NUL ->
  1 <= len2 -> len2 <= length buf2 -> (N.of_nat len2 < SIZE_MOD)%N ->
  exists out,
    cond_hexdump textual buf2 len2 x (length x) = Some out
    /\ length (c_str out 0) < len2
    /\ Forall (fun d => isprint d = true) (c_str out 0)
    /\ length out = length buf2
    /\ drop len2 out = drop len2 buf2.
Proof.
  intros Hclean Hpos Hcap Hlen2.
  destruct (all_printable x (length x)) eqn:Hall.
  - destruct buf2 as [|m post]; [simpl in Hcap; lia|].
    unfold peek in Hclean. simpl in Hclean. subst m.
    destruct (printable_loop_bounded textual len2 x (length x) Hlen2 (length x) 0 [] post)
      as (pre' & post' & Hrun & Hp & Hf & Hl & Hd);
      [constructor | simpl; lia | exact Hcap |].
    exists (pre' ++ NUL :: post'). unfold cond_hexdump. rewrite Hall.
    split; [exact Hrun|].
    assert (Hstr : c_str (pre' ++ NUL :: post') 0 = pre').
    { unfold c_str. rewrite drop_0. apply until_nul_app, isprint_all_nonnul, Hp. }
    rewrite Hstr. repeat split; try assumption. lia.
  - destruct (cond_hexdump_binary_run textual x buf2 len2 Hall Hpos Hcap Hlen2)
      as (out & Hrun & Hstr & Hl & Hd).
    exists out. split; [exact Hrun|]. rewrite Hstr. repeat split; try assumption.
    + rewrite length_take. lia.
    + apply Forall_take, hex_text_isprint.
Qed.

Lemma cond_hexdump_stays_inside_witness :
  exists out,
    cond_hexdump true (NUL :: replicate 9 "Z"%char) 6
      (lit "a" ++ [TAB] ++ lit "bcd") (length (lit "a" ++ [TAB] ++ lit "bcd")) = Some out
    /\ length (c_str out 0) < 6
    /\ Forall (fun d => isprint d = true) (c_str out 0)
    /\ length out = length (NUL :: replicate 9 "Z"%char)
    /\ drop 6 out = drop 6 (NUL :: replicate 9 "Z"%char).
Proof.
  apply (cond_hexdump_stays_inside true (lit "a" ++ [TAB] ++ lit "bcd")
           (NUL :: replicate 9 "Z"%char) 6).
  - reflexivity.
  - lia.
  - simpl. lia.
  - vm_compute. reflexivity.
Defined.

(** ** [visibilize] *)

Lemma visibilize_piece_length c rest :
  1 <= length (visibilize_piece c rest) <= 4.
Proof.
  unfold visibilize_piece. destruct (_ || _); [simpl; lia|].
  rewrite hex_escape_length. lia.
Qed.

Lemma visibilize_pieces_length sp :
  length (visibilize_pieces sp) = length (until_nul sp).
Proof.
  induction sp as [|c rest IH]; [reflexivity|]. cbn [visibilize_pieces until_nul].
  unfold is_char. destruct (Ascii.eqb_spec c NUL) as [->|Hc].
  - rewrite decide_True by reflexivity. reflexivity.
  - rewrite decide_False by exact Hc. simpl. rewrite IH. reflexivity.
Qed.

(** The text is made of whole pieces, in order, and stops early only
    within four bytes of the size. *)
Lemma visibilize_text_pieces len2 sp : forall acc,
  exists k,
    visibilize_text len2 sp acc = acc ++ concat (take k (visibilize_pieces sp))
    /\ k <= length (visibilize_pieces sp)
    /\ (k < length (visibilize_pieces sp) ->
        len2 <= length (visibilize_text len2 sp acc) + 4).
Proof.
  induction sp as [|c rest IH]; intros acc; cbn [visibilize_text visibilize_pieces].
  - exists 0. rewrite app_nil_r. simpl. repeat split; lia.
  - destruct (is_char c NUL).
    { exists 0. rewrite app_nil_r. simpl. repeat split; lia. }
    case_decide as Hroom.
    + destruct (IH (acc ++ visibilize_piece c rest)) as (k & Heq & Hk & Hstop).
      exists (S k). split; [rewrite Heq, <- app_assoc; reflexivity|].
      cbn [length]. split; [lia|].
      intros Hlt. apply Hstop. lia.
    + exists 0. rewrite app_nil_r. simpl. repeat split; lia.
Qed.

Lemma visibilize_text_complete len2 sp : forall acc,
  length acc + 4 * length (visibilize_pieces sp) < len2 ->
  visibilize_text len2 sp acc = acc ++ concat (visibilize_pieces sp).
Proof.
  induction sp as [|c rest IH]; intros acc Hroom; cbn [visibilize_text visibilize_pieces].
  - rewrite app_nil_r. reflexivity.
  - cbn [visibilize_pieces] in Hroom. destruct (is_char c NUL).
    { rewrite app_nil_r. reflexivity. }
    cbn [length] in Hroom. rewrite decide_True by lia.
    pose proof (visibilize_piece_length c rest).
    rewrite IH by (rewrite length_app; lia).
    cbn [concat]. rewrite <- app_assoc. reflexivity.
Qed.

Lemma visibilize_text_printable len2 sp : forall acc,
  Forall (fun d => isprint d = true) sp ->
  visibilize_text len2 sp acc = acc ++ take (len2 - 4 - length acc) sp.
Proof.
  induction sp as [|c rest IH]; intros acc Hp; cbn [visibilize_text].
  - rewrite take_nil, app_nil_r. reflexivity.
  - inversion Hp as [|? ? Hc Hrest]; subst.
    pose proof (isprint_nonnul c Hc) as Hnn.
    unfold is_char. destruct (Ascii.eqb_spec c NUL) as [->|_]; [contradiction Hnn; reflexivity|].
    case_decide as Hroom.
    + rewrite IH by exact Hrest. unfold visibilize_piece. rewrite Hc. cbn [orb].
      rewrite length_app. cbn [length].
      replace (len2 - 4 - length acc) with (S (len2 - 4 - (length acc + 1))) by lia.
      cbn [take]. rewrite <- app_assoc. reflexivity.
    + replace (len2 - 4 - length acc) with 0 by lia. rewrite take_0, app_nil_r. reflexivity.
Qed.

Lemma visibilize_run (buf2 : list ascii) (len2 : nat) (buf : list ascii) :
  1 <= len2 -> len2 <= length buf2 ->
  exists out,
    visibilize buf2 len2 buf = Some out
    /\ c_str out 0 = visibilize_text len2 buf []
    /\ length out = length buf2.
Proof.
  intros Hpos Hcap. unfold visibilize.
  destruct buf2 as [|m post]; [simpl in Hcap; lia|].
  change (poke (m :: post) 0 NUL) with (poke ([] ++ m :: post) (length (@nil ascii)) NUL).
  rewrite poke_middle. cbn [mbind option_bind].
  destruct (visibilize_loop_spec len2 buf [] post) as (post' & Hrun & Hl & Hd);
    [constructor | exact Hcap |].
  eexists. split; [exact Hrun|]. split.
  - unfold c_str. rewrite drop_0. apply until_nul_app, visibilize_text_nonnul. constructor.
  - rewrite Hl. reflexivity.
Qed.

(** X4.  For a source of printable characters [visibilize] copies its
    first [len2 - 4] bytes: all of it when the destination has four bytes
    more than the text, and otherwise [len2 - 4] bytes, although
    [len2 - 1] would fit. *)
Theorem visibilize_printable_prefix (buf2 : list ascii) (len2 : nat)
    (buf : list ascii) :
  Forall (fun d => isprint d = true) buf ->
  1 <= len2 -> len2 <= length buf2 ->
  exists out,
    visibilize buf2 len2 buf = Some out
    /\ c_str out 0 = take (len2 - 4) buf
    /\ (length buf + 4 <= len2 -> c_str out 0 = buf)
    /\ (len2 < length buf + 4 -> length (c_str out 0) = len2 - 4).
Proof.
  intros Hp Hpos Hcap.
  destruct (visibilize_run buf2 len2 buf Hpos Hcap) as (out & Hrun & Hstr & _).
  exists out. split; [exact Hrun|].
  rewrite Hstr, visibilize_text_printable by exact Hp.
  cbn [app length]. rewrite Nat.sub_0_r.
  split; [reflexivity|]. split.
  - intros Hroom. apply take_ge. lia.
  - intros Hcut. rewrite length_take. lia.
Qed.

Lemma visibilize_printable_prefix_witness :
  exists out,
    visibilize (replicate 8 "Z"%char) 8 (lit "$GPGGA") = Some out
    /\ c_str out 0 = take (8 - 4) (lit "$GPGGA")
    /\ (length (lit "$GPGGA") + 4 <= 8 -> c_str out 0 = lit "$GPGGA")
    /\ (8 < length (lit "$GPGGA") + 4 -> length (c_str out 0) = 8 - 4).
Proof.
  apply (visibilize_printable_prefix (replicate 8 "Z"%char) 8 (lit "$GPGGA")).
  - repeat constructor.
  - lia.
  - simpl. lia.
Defined.

(** X5.  [visibilize] never splits an escape: the result is the
    concatenation of the first [k] pieces (a byte verbatim or a four-byte
    escape) of the source, [k] bytes of the source are consumed, it stops
    before the end of the source only within four bytes of [len2], and
    nothing is dropped when [len2] exceeds four times the source length. *)
Theorem visibilize_whole_pieces (buf2 : list ascii) (len2 : nat)
    (buf : list ascii) :
  1 <= len2 -> len2 <= length buf2 ->
  exists out k,
    visibilize buf2 len2 buf = Some out
    /\ c_str out 0 = concat (take k (visibilize_pieces buf))
    /\ k <= length (c_str buf 0)
    /\ (k < length (c_str buf 0) -> len2 <= length (c_str out 0) + 4)
    /\ (4 * length (c_str buf 0) < len2 ->
        c_str out 0 = concat (visibilize_pieces buf)).
Proof.
  intros Hpos Hcap.
  destruct (visibilize_run buf2 len2 buf Hpos Hcap) as (out & Hrun & Hstr & _).
  destruct (visibilize_text_pieces len2 buf []) as (k & Heq & Hk & Hstop).
  assert (Hn : length (c_str buf 0) = length (visibilize_pieces buf)).
  { unfold c_str. rewrite drop_0. symmetry. apply visibilize_pieces_length. }
  exists out, k. split; [exact Hrun|].
  rewrite Hn, Hstr. split; [exact Heq|]. split; [exact Hk|]. split; [exact Hstop|].
  intros Hroom. apply (visibilize_text_complete len2 buf []). simpl. lia.
Qed.

Lemma visibilize_whole_pieces_witness :
  exists out k,
    visibilize (replicate 8 "Z"%char) 8 (lit "a" ++ [TAB] ++ lit "b") = Some out
    /\ c_str out 0 = concat (take k (visibilize_pieces (lit "a" ++ [TAB] ++ lit "b")))
    /\ k <= length (c_str (lit "a" ++ [TAB] ++ lit "b") 0)
    /\ (k < length (c_str (lit "a" ++ [TAB] ++ lit "b") 0) ->
        8 <= length (c_str out 0) + 4)
    /\ (4 * length (c_str (lit "a" ++ [TAB] ++ lit "b") 0) < 8 ->
        c_str out 0 = concat (visibilize_pieces (lit "a" ++ [TAB] ++ lit "b"))).
Proof.
  apply (visibilize_whole_pieces (replicate 8 "Z"%char) 8 (lit "a" ++ [TAB] ++ lit "b")).
  - lia.
  - simpl. lia.
Defined.

(** ** The log line and the report line *)


Example fmt_d_samples :
  fmt_d 0 = lit "0" /\ fmt_d 82 = lit "82" /\ fmt_d (-7) = lit "-7"
  /\ fmt_d 2147483647 = lit "2147483647".
Proof. repeat split. Qed.

Example hook_packet_line_nmea :
  c_str (default [] (hook_packet_line true (replicate 32 "Z"%char)
                       (lit "$GPGGA,1" ++ [CR; LF]) 10)) 0
  = lit "(10) $GPGGA,1" ++ [LF].
Proof. vm_compute. reflexivity. Qed.

Lemma visibilize_shape (buf2 : list ascii) (len2 : nat) (buf : list ascii) :
  1 <= len2 -> len2 <= length buf2 ->
  exists post',
    visibilize buf2 len2 buf = Some (visibilize_text len2 buf [] ++ NUL :: post')
    /\ length (visibilize_text len2 buf [] ++ NUL :: post') = length buf2.
Proof.
  intros Hpos Hcap. unfold visibilize.
  destruct buf2 as [|m post]; [simpl in Hcap; lia|].
  change (poke (m :: post) 0 NUL) with (poke ([] ++ m :: post) (length (@nil ascii)) NUL).
  rewrite poke_middle. cbn [mbind option_bind].
  destruct (visibilize_loop_spec len2 buf [] post) as (post' & Hrun & Hl & Hd);
    [constructor | exact Hcap |].
  exists post'. split; [exact Hrun | exact Hl].
Qed.

Lemma truncate_nonnul size s : Forall nonnul s -> Forall nonnul (truncate size s).
Proof.
  intros H. unfold truncate. destruct (_ <? _)%N; [exact H | apply Forall_take, H].
Qed.

(** [packet_vlog] with room for [len] bytes behind the visibilized text. *)
Lemma packet_vlog_spec (stack buf : list ascii) (len : nat) (msg : list ascii) :
  1 <= length stack -> 1 <= len -> Forall nonnul msg ->
  length (visibilize_text (length stack) buf []) + len <= length stack ->
  exists out,
    packet_vlog stack buf len msg = Some out
    /\ c_str out 0
       = visibilize_text (length stack) buf [] ++ truncate (N.of_nat len) msg
    /\ length out = length stack.
Proof.
  intros Hpos Hlen Hmsg Hroom. unfold packet_vlog.
  destruct (visibilize_shape stack (length stack) buf Hpos (Nat.le_refl _))
    as (post' & Hrun & Hl).
  rewrite Hrun. cbn [mbind option_bind].
  assert (Hnn : Forall nonnul (visibilize_text (length stack) buf [])).
  { apply visibilize_text_nonnul. constructor. }
  unfold strlen. rewrite drop_0, strlen_from_app by exact Hnn.
  cbn [mbind option_bind].
  rewrite length_app in Hl. cbn [length] in Hl.
  destruct (snprintf_within (visibilize_text (length stack) buf []) post'
              (N.of_nat len) msg) as (Hs & Ht1 & Ht2); [lia | lia |].
  rewrite Hs. eexists. split; [reflexivity|]. split.
  - unfold c_str. rewrite drop_0. apply until_nul_app, Forall_app.
    split; [exact Hnn | apply truncate_nonnul, Hmsg].
  - rewrite length_after_append by exact Ht1. rewrite length_app. cbn [length]. exact Hl.
Qed.

(** X6.  [packet_log] reports its message and nothing else: the buffer it
    hands to [packet_vlog] is empty, so the visibilized text in front of
    the message is empty too, and what [gpsmon_report] receives is the
    message cut to [BUFSIZ - 1] bytes, written inside the local array. *)
Theorem packet_log_reports_message (stack1 stack2 msg : list ascii) :
  1 <= length stack1 -> length stack2 = length stack1 -> Forall nonnul msg ->
  exists out,
    packet_log stack1 stack2 msg = Some out
    /\ c_str out 0 = take (length stack2 - 1) msg
    /\ (length msg < length stack2 -> c_str out 0 = msg)
    /\ length out = length stack2.
Proof.
  intros Hpos Hsame Hmsg. unfold packet_log.
  destruct stack1 as [|m rest]; [simpl in Hpos; lia|].
  change (poke (m :: rest) 0 NUL) with (poke ([] ++ m :: rest) (length (@nil ascii)) NUL).
  rewrite poke_middle. cbn [mbind option_bind app].
  assert (Hvis : visibilize_text (length stack2) (NUL :: rest) [] = []) by reflexivity.
  destruct (packet_vlog_spec stack2 (NUL :: rest) (length (m :: rest)) msg)
    as (out & Hrun & Hstr & Hl).
  { lia. } { exact Hpos. } { exact Hmsg. } { rewrite Hvis. simpl in *. lia. }
  rewrite Hvis in Hstr. cbn [app] in Hstr.
  rewrite truncate_take in Hstr by lia.
  replace (N.to_nat (N.of_nat (length (m :: rest)) - 1)) with (length stack2 - 1) in Hstr by lia.
  exists out. split; [exact Hrun|]. split; [exact Hstr|]. split; [|exact Hl].
  intros Hfit. rewrite Hstr. apply take_ge. lia.
Qed.

Lemma packet_log_reports_message_witness :
  exists out,
    packet_log (replicate 8 "Z"%char) (replicate 8 "Q"%char) (lit "-- PPS --") = Some out
    /\ c_str out 0 = take (length (replicate 8 "Q"%char) - 1) (lit "-- PPS --")
    /\ (length (lit "-- PPS --") < length (replicate 8 "Q"%char) ->
        c_str out 0 = lit "-- PPS --")
    /\ length out = length (replicate 8 "Q"%char).
Proof.
  apply (packet_log_reports_message (replicate 8 "Z"%char) (replicate 8 "Q"%char)
           (lit "-- PPS --")).
  - simpl. lia.
  - reflexivity.
  - repeat constructor; discriminate.
Defined.

Lemma digit_char_isprint n : (n < 10)%N -> isprint (digit_char n) = true.
Proof.
  intros H. unfold digit_char.
  assert (Hc : N.to_nat n < 10) by lia.
  destruct (N.to_nat n) as [|[|[|[|[|[|[|[|[|[|k]]]]]]]]]]; try reflexivity. lia.
Qed.

Lemma fmt_u_loop_isprint fuel : forall n acc,
  Forall (fun d => isprint d = true) acc ->
  Forall (fun d => isprint d = true) (fmt_u_loop fuel n acc).
Proof.
  induction fuel as [|fuel IH]; intros n acc Hacc; cbn [fmt_u_loop]; [exact Hacc|].
  assert (Hd : isprint (digit_char (n mod 10)) = true).
  { apply digit_char_isprint, N.mod_lt. discriminate. }
  destruct (n <? 10)%N; [|apply IH]; constructor; assumption.
Qed.

Lemma fmt_d_isprint z : Forall (fun d => isprint d = true) (fmt_d z).
Proof.
  unfold fmt_d. destruct (z <? 0)%Z.
  - constructor; [reflexivity|]. apply fmt_u_loop_isprint. constructor.
  - apply fmt_u_loop_isprint. constructor.
Qed.

Lemma packet_count_prefix_isprint n :
  Forall (fun d => isprint d = true) (packet_count_prefix n).
Proof.
  unfold packet_count_prefix. apply Forall_app. split; [repeat constructor|].
  apply Forall_app. split; [apply fmt_d_isprint | repeat constructor].
Qed.

(** [snprintf] at the start of an array that holds anything. *)
Lemma snprintf_fresh (stack : list ascii) (size : N) (s : list ascii) :
  (N.of_nat (length s) < size)%N -> length s + 1 <= length stack ->
  snprintf stack 0 size s = Some (s ++ NUL :: drop (length s + 1) stack).
Proof.
  intros Hfit Hroom. unfold snprintf.
  destruct (N.eqb_spec size 0); [lia|]. rewrite truncate_fits by exact Hfit.
  rewrite <- (take_drop (length s + 1) stack) at 1.
  pose proof (store_middle (s ++ [NUL]) [] (take (length s + 1) stack)
                (drop (length s + 1) stack)) as H.
  cbn [app length] in H. rewrite H.
  - rewrite <- app_assoc. reflexivity.
  - rewrite length_take, length_app. simpl. lia.
Qed.

(** The result of [cond_hexdump] on a destination that holds the empty
    string and has room for the whole text. *)
Lemma cond_hexdump_shape (textual : bool) (x post : list ascii) (len2 : nat) :
  len2 <= S (length post) ->
  (N.of_nat len2 < SIZE_MOD)%N -> (N.of_nat (length x) < SIZE_MOD)%N ->
  length (if all_printable x (length x) then render_text textual x else hex_text x)
    < len2 ->
  exists post',
    cond_hexdump textual (NUL :: post) len2 x (length x)
    = Some ((if all_printable x (length x) then render_text textual x else hex_text x)
            ++ NUL :: post')
    /\ length (if all_printable x (length x) then render_text textual x else hex_text x)
       + length post' = length post.
Proof.
  intros Hcap Hlen2 Hlen Hroom. unfold cond_hexdump.
  destruct (all_printable x (length x)) eqn:Hall.
  - destruct (printable_loop_spec textual len2 x Hlen2 Hlen (length x) 0 [] post)
      as (post' & Hrun); [lia | constructor | rewrite drop_0; simpl; lia | exact Hcap |].
    rewrite drop_0 in Hrun. cbn [app length] in Hrun.
    destruct (printable_loop_bounded textual len2 x (length x) Hlen2 (length x) 0 [] post)
      as (pre2 & post2 & Hrun2 & _ & _ & Hl & _); [constructor | simpl; lia | exact Hcap |].
    cbn [app length] in Hrun2, Hl. rewrite Hrun in Hrun2.
    injection Hrun2 as Heq. rewrite <- Heq in Hl.
    exists post'. split; [exact Hrun|].
    rewrite length_app in Hl. cbn [length] in Hl. lia.
  - change (poke (NUL :: post) 0 NUL)
      with (poke ([] ++ NUL :: post) (length (@nil ascii)) NUL).
    rewrite poke_middle. cbn [mbind option_bind].
    destruct (hexdump_loop_spec len2 x Hlen2 (length x) 0 [] post)
      as (post' & Hrun & Hl & _); [lia | constructor | simpl; lia | exact Hcap |].
    rewrite drop_0 in Hrun, Hl. cbn [app] in Hrun, Hl.
    rewrite take_ge in Hrun, Hl by lia.
    exists post'. split; [exact Hrun|].
    rewrite length_app in Hl. cbn [length] in Hl. lia.
Qed.

Lemma until_nul_prefix pre b :
  Forall nonnul pre -> until_nul (pre ++ b) = pre ++ until_nul b.
Proof.
  induction pre as [|c pre IH]; intros H; [reflexivity|].
  inversion H as [|? ? Hc Hrest]; subst. cbn [app until_nul].
  rewrite decide_False by exact Hc. rewrite IH by exact Hrest. reflexivity.
Qed.

(** X7.  The report line of the last branch of [gpsmon_hook], when the
    array has room for it: the count of bytes in parentheses and a blank,
    then the packet (its text with the escapes of [cond_hexdump] when all
    of it is printable or white space, its hex dump otherwise), then one
    newline.  The count leaves the array holding the empty string where
    [cond_hexdump] starts, so that nothing of what the array held before
    shows. *)
Theorem hook_packet_line_text (textual : bool) (stack x : list ascii) :
  (N.of_nat (length stack) < SIZE_MOD)%N -> (N.of_nat (length x) < SIZE_MOD)%N ->
  length (packet_count_prefix (length x))
  + length (if all_printable x (length x) then render_text textual x else hex_text x)
  + 2 <= length stack ->
  exists out,
    hook_packet_line textual stack x (length x) = Some out
    /\ c_str out 0
       = packet_count_prefix (length x)
         ++ (if all_printable x (length x) then render_text textual x else hex_text x)
         ++ [LF]
    /\ length out = length stack.
Proof.
  intros Hsize Hlen Hroom. unfold hook_packet_line.
  set (P := packet_count_prefix (length x)) in *.
  assert (HP : Forall nonnul P) by apply isprint_all_nonnul, packet_count_prefix_isprint.
  assert (Hbody : Forall nonnul
            (if all_printable x (length x) then render_text textual x else hex_text x)).
  { apply isprint_all_nonnul.
    destruct (all_printable x (length x)); [apply render_text_isprint | apply hex_text_isprint]. }
  rewrite snprintf_fresh by lia. cbn [mbind option_bind].
  set (post := drop (length P + 1) stack).
  assert (Hpost : length post = length stack - (length P + 1)) by apply length_drop.
  unfold strlen at 1. rewrite drop_0, strlen_from_app by exact HP. cbn [mbind option_bind].
  rewrite drop_app_length, take_app_length.
  rewrite size_sub_le by lia. rewrite Nat2N.id.
  destruct (cond_hexdump_shape textual x post (length stack - length P))
    as (post' & Hrun & Hl); [lia | lia | exact Hlen | lia |].
  rewrite Hrun. cbn [mbind option_bind].
  set (body := if all_printable x (length x) then render_text textual x else hex_text x) in *.
  unfold strlcat, strlen.
  replace (P ++ body ++ NUL :: post') with ((P ++ body) ++ NUL :: post')
    by (rewrite <- app_assoc; reflexivity).
  assert (HPb : Forall nonnul (P ++ body)) by (apply Forall_app; split; assumption).
  rewrite drop_0, strlen_from_app by exact HPb.
  destruct (Nat.leb_spec (length stack) (length (P ++ body))) as [Hfull|_].
  { exfalso. rewrite length_app in Hfull. clear Hrun. clearbody body P post. lia. }
  destruct post' as [|p post']; [simpl in Hl; lia|].
  replace (take (length stack - length (P ++ body) - 1) [LF]) with [LF].
  2:{ symmetry. apply take_ge. rewrite length_app. cbn [length] in *.
      clear Hrun. clearbody body P post. lia. }
  pose proof (store_middle ([LF] ++ [NUL]) (P ++ body) [NUL; p] post' eq_refl) as Hst.
  cbn [app] in Hst. cbn [app]. rewrite Hst.
  eexists. split; [reflexivity|]. split.
  - unfold c_str. rewrite drop_0.
    replace ((P ++ body) ++ LF :: NUL :: post') with ((P ++ body ++ [LF]) ++ NUL :: post')
      by (rewrite <- !app_assoc; reflexivity).
    apply until_nul_app. apply Forall_app. split; [exact HP|].
    apply Forall_app. split; [exact Hbody|]. repeat constructor. discriminate.
  - clear Hrun Hst. clearbody body P post.
    rewrite !length_app in *. cbn [length] in *. lia.
Qed.

Lemma hook_packet_line_text_witness :
  exists out,
    hook_packet_line true (replicate 32 "Z"%char) (lit "$GPGGA,1" ++ [CR; LF])
      (length (lit "$GPGGA,1" ++ [CR; LF])) = Some out
    /\ c_str out 0
       = packet_count_prefix (length (lit "$GPGGA,1" ++ [CR; LF]))
         ++ (if all_printable (lit "$GPGGA,1" ++ [CR; LF])
                  (length (lit "$GPGGA,1" ++ [CR; LF]))
             then render_text true (lit "$GPGGA,1" ++ [CR; LF])
             else hex_text (lit "$GPGGA,1" ++ [CR; LF]))
         ++ [LF]
    /\ length out = length (replicate 32 "Z"%char).
Proof.
  apply (hook_packet_line_text true (replicate 32 "Z"%char) (lit "$GPGGA,1" ++ [CR; LF])).
  - vm_compute. reflexivity.
  - vm_compute. reflexivity.
  - vm_compute. lia.
Defined.

(** ** More on the command processor *)

Example command_arg_behind_terminator :
  command_arg (lit "x " ++ [LF; NUL] ++ lit "dead" ++ [NUL]) = 5
  /\ c_str (lit "x " ++ [LF; NUL] ++ lit "dead" ++ [NUL])
       (command_arg (lit "x " ++ [LF; NUL] ++ lit "dead" ++ [NUL])) = lit "ead".
Proof. split; reflexivity. Qed.

Lemma strlen_from_spec (b : list ascii) (n : nat) :
  strlen_from b = Some n ->
  peek b n = NUL /\ forall i, i < n -> peek b i <> NUL.
Proof.
  revert n. induction b as [|c b IH]; intros n H; [discriminate|].
  cbn [strlen_from] in H. case_decide as Hc.
  - injection H as <-. split; [exact Hc|]. intros i Hi. lia.
  - destruct (strlen_from b) as [m|] eqn:Hm; [|discriminate].
    injection H as <-. destruct (IH m eq_refl) as [Hend Hbefore].
    split; [exact Hend|]. intros [|i] Hi; [exact Hc|]. apply (Hbefore i). lia.
Qed.

Lemma skip_arg_passes (line : list ascii) (n : nat) : forall fuel arg,
  (forall i, arg <= i -> i < n ->
     peek line i <> NUL /\ isspace (peek line i) = true) ->
  n <= arg + 2 * fuel ->
  n <= skip_arg fuel line arg.
Proof.
  induction fuel as [|fuel IH]; intros arg Hblank Hfuel; cbn [skip_arg]; [lia|].
  destruct (negb (is_char (peek line arg) NUL) && isspace (peek line arg)) eqn:Hc.
  - apply IH; [|lia]. intros i Hi Hn. apply Hblank; lia.
  - destruct (decide (arg < n)) as [Hlt|]; [|lia].
    destruct (Hblank arg (Nat.le_refl _) Hlt) as [Hnn Hsp].
    rewrite Hsp, andb_true_r in Hc. unfold is_char in Hc.
    destruct (Ascii.eqb_spec (peek line arg) NUL); [contradiction | discriminate].
Qed.

(** X8.  When the command line holds the verb and only white space behind
    it (at least one byte of it), the argument [do_command] computes starts
    behind the terminator of the line: the loop that skips white space steps
    by two, and one more step follows it.  The commands that read [arg] then
    read what the buffer holds behind the line. *)
Theorem command_arg_overruns (line : list ascii) (n : nat) :
  strlen line 0 = Some n ->
  2 <= n ->
  forallb (fun i => isspace (peek line i)) (seq 1 (n - 1)) = true ->
  n < command_arg line.
Proof.
  intros Hn Hlen Hall. unfold strlen in Hn. rewrite drop_0 in Hn.
  assert (Hblank : forall i, 1 <= i -> i < n -> isspace (peek line i) = true).
  { intros i H1 Hi. rewrite forallb_forall in Hall. apply Hall, in_seq. lia. }
  destruct (strlen_from_spec line n Hn) as [_ Hbefore].
  unfold command_arg. rewrite (Hblank 1) by lia.
  assert (Hfuel : n <= length line).
  { destruct (decide (n <= length line)) as [|Hgt]; [assumption|].
    exfalso. apply (Hbefore (length line)); [lia|].
    unfold peek. rewrite lookup_ge_None_2 by lia. reflexivity. }
  pose proof (skip_arg_passes line n (length line) 2) as H.
  assert (n <= skip_arg (length line) line 2); [|lia].
  apply H; [|lia]. intros i Hi Hin. split; [apply Hbefore; lia | apply Hblank; lia].
Qed.

Lemma command_arg_overruns_witness :
  3 < command_arg (lit "x " ++ [LF; NUL] ++ lit "dead" ++ [NUL]).
Proof.
  apply (command_arg_overruns (lit "x " ++ [LF; NUL] ++ lit "dead" ++ [NUL]) 3).
  - reflexivity.
  - lia.
  - reflexivity.
Defined.

Ltac innermost x :=
  match x with
  | context [match ?y with _ => _ end] => innermost y
  | _ => destruct x eqn:?
  end.

Ltac split_cases :=
  repeat match goal with
         | |- context [match ?x with _ => _ end] => innermost x; run
         end.

Ltac frame_done :=
  unfold command_frame; cbn;
  repeat split; auto;
  rewrite <- ?app_assoc; try (eexists; reflexivity);
  try (exists []; rewrite app_nil_r; reflexivity).

Ltac trace_done :=
  first [ rewrite <- ?app_assoc; reflexivity | symmetry; apply app_nil_r ].

Ltac effects_done :=
  split; [frame_done|];
  eexists; split; [cbn; trace_done|];
  split; [ intros Hserial; try (rewrite Hserial in *; discriminate);
           cbn; unfold untouched; cbn; auto
         | split; [ cbn; intros Hcall; try discriminate; reflexivity
                  | cbn; intros Hcall; try discriminate; auto ] ].

Lemma is_char_q (c d : ascii) :
  is_char c d = true -> d <> "q"%char -> is_char c "q" = false.
Proof.
  unfold is_char. intros H Hd. apply Ascii.eqb_eq in H. subst c.
  apply Ascii.eqb_neq. exact Hd.
Qed.

Lemma do_command_effects (E : externals) (line : list ascii) (s : gpsmon) :
  exists s',
    do_command E line s = Ret (negb (is_char (peek line 0) "q")) s'
    /\ (is_char (peek line 0) "q" = true -> s' = s)
    /\ command_effects s s'.
Proof.
  unfold do_command, command_effects.
  destruct (is_char (peek line 0) "c") eqn:Hc.
  { rewrite (is_char_q _ _ Hc) by discriminate.
    unfold command_c. run. split_cases;
      eexists; (split; [reflexivity|]); (split; [discriminate | effects_done]). }
  destruct (is_char (peek line 0) "i") eqn:Hi.
  { rewrite (is_char_q _ _ Hi) by discriminate.
    unfold command_i. run. split_cases;
      eexists; (split; [reflexivity|]); (split; [discriminate | effects_done]). }
  destruct (is_char (peek line 0) "l") eqn:Hl.
  { rewrite (is_char_q _ _ Hl) by discriminate.
    unfold command_l, command_n. run. split_cases;
      eexists; (split; [reflexivity|]); (split; [discriminate | effects_done]). }
  destruct (is_char (peek line 0) "n") eqn:Hn.
  { rewrite (is_char_q _ _ Hn) by discriminate.
    unfold command_n. run. split_cases;
      eexists; (split; [reflexivity|]); (split; [discriminate | effects_done]). }
  destruct (is_char (peek line 0) "q") eqn:Hq.
  { exists s. split; [reflexivity|]. split; [reflexivity|].
    split; [frame_done|]. exists []. rewrite app_nil_r. split; [reflexivity|].
    split; [intros _; split; [reflexivity | unfold untouched; auto]|].
    split; [discriminate | auto]. }
  destruct (is_char (peek line 0) "s") eqn:Hs.
  { unfold command_s, speed_switch. run. split_cases;
      eexists; (split; [reflexivity|]); (split; [discriminate | effects_done]). }
  destruct (is_char (peek line 0) "t") eqn:Ht.
  { unfold command_t, switch_type, switch_type_with. run. split_cases;
      eexists; (split; [reflexivity|]); (split; [discriminate | effects_done]). }
  destruct (is_char (peek line 0) "x") eqn:Hx.
  { unfold command_x, monitor_control_send. run. split_cases; simplify_eq;
      try match goal with
          | H : control_send ?g = None, H' : context [control_send ?g] |- _ =>
              rewrite H in H'; discriminate H'
          end;
      eexists; (split; [reflexivity|]); (split; [discriminate | effects_done]). }
  destruct (is_char (peek line 0) "X") eqn:HX.
  { unfold command_X, monitor_raw_send. run. split_cases;
      eexists; (split; [reflexivity|]); (split; [discriminate | effects_done]). }
  run. eexists. split; [reflexivity|]. split; [discriminate | effects_done].
Qed.

(** X9.  [do_command] returns for every line and every state: it never
    leaves by [longjmp], failed assertion or bad access.  It returns false
    for the verb ['q'] alone, then with the state as it was, and true for
    every other line; no command changes the connection mode, the display
    mode, the last packet type, the time offset or the screen size, or
    drops what the trace held; and a command that calls neither a driver
    method, nor the library on the device, nor a hook, leaves the session
    as it was but for the reset of the retry counter. *)
Theorem do_command_returns (E : externals) (line : list ascii) (s : gpsmon) :
  exists s',
    do_command E line s = Ret (negb (is_char (peek line 0) "q")) s'
    /\ (is_char (peek line 0) "q" = true -> s' = s)
    /\ command_frame s s'
    /\ (existsb reaches_session (added s s') = false ->
        session s' = session s
        \/ session s' = with_lexer_counter 0 (session s)).
Proof.
  destruct (do_command_effects E line s)
    as (s' & Hrun & Hq & Hframe & evs & Htrace & _ & _ & Hsession).
  exists s'. rewrite (added_app s s' evs Htrace). auto.
Qed.

(** X10.  Without a direct connection ([serial] false) no command reaches
    the device: whatever the line, the calls made hold no driver method, no
    write to the device, no change of speed or driver and no wait for the
    line to drain, and [context.readonly], the session, the active monitor
    and the fallback type are as before. *)
Theorem do_command_without_serial (E : externals) (line : list ascii) (s : gpsmon) :
  serial s = false ->
  exists b s',
    do_command E line s = Ret b s'
    /\ existsb device_call (added s s') = false
    /\ untouched s s'.
Proof.
  intros Hserial.
  destruct (do_command_effects E line s)
    as (s' & Hrun & _ & _ & evs & Htrace & Hquiet & _ & _).
  destruct (Hquiet Hserial) as [Hcalls Hsame].
  exists (negb (is_char (peek line 0) "q")), s'.
  rewrite (added_app s s' evs Htrace). auto.
Qed.

Lemma do_command_without_serial_witness :
  exists b s',
    do_command sample_externals (lit "n1") sample_toff_state = Ret b s'
    /\ existsb device_call (added sample_toff_state s') = false
    /\ untouched sample_toff_state s'.
Proof.
  apply (do_command_without_serial sample_externals (lit "n1") sample_toff_state).
  reflexivity.
Defined.

(** X11.  A command that calls a method of the driver (mode, speed or rate
    switcher, control send) leaves [context.readonly] true, whatever it was
    before and whatever the method answers: the flag is set, not put back,
    so that probing enabled with ['i'] is disabled again by the next such
    command. *)
Theorem do_command_leaves_readonly (E : externals) (line : list ascii)
    (s s' : gpsmon) (b : bool) :
  do_command E line s = Ret b s' ->
  existsb driver_method (added s s') = true ->
  readonly s' = true.
Proof.
  intros Hrun Hcall.
  destruct (do_command_effects E line s)
    as (s1 & Hrun1 & _ & _ & evs & Htrace & _ & Hro & _).
  rewrite Hrun in Hrun1. injection Hrun1 as _ <-.
  apply Hro. rewrite <- (added_app s s' evs Htrace). exact Hcall.
Qed.

Lemma do_command_leaves_readonly_witness :
  exists s',
    do_command sample_externals (lit "n") sample_state = Ret true s'
    /\ readonly sample_state = false
    /\ readonly s' = true.
Proof.
  eexists. split; [vm_compute; reflexivity|]. split; [reflexivity|].
  apply (do_command_leaves_readonly sample_externals (lit "n") sample_state _ true).
  - vm_compute. reflexivity.
  - vm_compute. reflexivity.
Defined.

Lemma do_command_verb_t (E : externals) (line : list ascii) (s : gpsmon) :
  peek line 0 = "t"%char ->
  do_command E line s = and_continue (command_t E line s).
Proof. intros H. unfold do_command. rewrite H. reflexivity. Qed.

(** X12.  Command ['t'] with an argument that one driver name alone
    contains: the driver of the session is switched ([gpsd_switch_driver])
    whenever a monitor object exists for that driver, also when the screen
    is too small for it, in which case the monitor complains and the active
    monitor stays; with room the outgoing monitor is wrapped, the screen
    cleared and the new monitor made active before the driver is switched;
    with no monitor for the driver there is the complaint only. *)
Theorem do_command_t_unique_match (E : externals) (line : list ascii)
    (s : gpsmon) (forcetype : gps_type_t) :
  peek line 0 = "t"%char ->
  serial s = true ->
  0 < length (c_str line (command_arg line)) ->
  filter (fun d => strstr (type_name d) (c_str line (command_arg line)) = true)
    (gpsd_drivers E) = [forcetype] ->
  exists s',
    do_command E line s = Ret true s'
    /\ match find_monitor (monitor_objects E) (type_name forcetype) with
       | None =>
           added s s' = [Complain "No monitor matches %s." [AStr (type_name forcetype)]]
           /\ active s' = active s
       | Some m =>
           if too_small s m then
             added s s'
             = [Complain "%s requires %dx%d screen"
                  [AStr (type_name (driver m)); AInt (min_x m); AInt (min_y m + 1)];
                GpsdSwitchDriver (type_name forcetype)]
             /\ active s' = active s
           else
             added s s'
             = wrap_events (active s)
               ++ [Clearok; Clear; GpsdSwitchDriver (type_name forcetype)]
             /\ active s' = Some m
       end.
Proof.
  intros Hverb Hserial Harg Hmatch.
  rewrite (do_command_verb_t E line s Hverb).
  apply Nat.ltb_lt in Harg.
  unfold command_t, mbind, M_bind, get. cbv beta iota.
  rewrite Hserial, Harg, Hmatch. cbn [negb last length Nat.eqb].
  unfold switch_type, switch_type_with, record_call, too_small.
  destruct (find_monitor (monitor_objects E) (type_name forcetype)) as [m|]; run.
  - destruct ((LINES s <? min_y m + 1)%Z || (COLS s <? min_x m)%Z); run.
    + eexists. split; [reflexivity|]. split; [|reflexivity].
      apply added_app. cbn. rewrite <- app_assoc. reflexivity.
    + unfold wrap_events.
      destruct (active s) as [a|]; [destruct (wrap a) as [h|]|]; run;
        (eexists; split; [reflexivity|]; split; [|reflexivity]);
        apply added_app; cbn; rewrite <- ?app_assoc; reflexivity.
  - eexists. split; [reflexivity|]. split; [|reflexivity].
    apply added_app. reflexivity.
Qed.

Lemma do_command_t_unique_match_witness :
  exists s',
    do_command sample_externals (lit "tNMEA")
      sample_state = Ret true s'
    /\ match find_monitor (monitor_objects sample_externals) (type_name sample_nmea0183) with
       | None =>
           added sample_state s'
           = [Complain "No monitor matches %s." [AStr (type_name sample_nmea0183)]]
           /\ active s' = active sample_state
       | Some m =>
           if too_small sample_state m then
             added sample_state s'
             = [Complain "%s requires %dx%d screen"
                  [AStr (type_name (driver m)); AInt (min_x m); AInt (min_y m + 1)];
                GpsdSwitchDriver (type_name sample_nmea0183)]
             /\ active s' = active sample_state
           else
             added sample_state s'
             = wrap_events (active sample_state)
               ++ [Clearok; Clear; GpsdSwitchDriver (type_name sample_nmea0183)]
             /\ active s' = Some m
       end.
Proof.
  apply (do_command_t_unique_match sample_externals (lit "tNMEA")
           sample_state sample_nmea0183).
  - reflexivity.
  - reflexivity.
  - vm_compute. lia.
  - vm_compute. reflexivity.
Defined.

(** ** More on the packet path *)

Lemma select_packet_monitor_same_type (E : externals) (run_hook : hook -> M unit)
    (s : gpsmon) :
  lexer_type (session s) = last_type s ->
  select_packet_monitor_with E run_hook s = update_call run_hook s.
Proof.
  intros Hsame. unfold select_packet_monitor_with.
  unfold mbind at 1 2, M_bind at 1 2, get at 1. cbv beta iota.
  rewrite Hsame, Z.eqb_refl. reflexivity.
Qed.

Lemma update_call_keeps (run_hook : hook -> M unit) (s s' : gpsmon) :
  keeps_packet_type run_hook ->
  update_call run_hook s = Ret tt s' ->
  lexer_type (session s') = lexer_type (session s) /\ last_type s' = last_type s.
Proof.
  intros Hkeeps. unfold update_call. run.
  destruct (active s) as [a|]; [|intros [= <-]; auto].
  destruct (lexer_outbuflen (session s)); [intros [= <-]; auto|].
  destruct (update a) as [h|]; [|intros [= <-]; auto].
  intros Hrun. exact (Hkeeps h s s' Hrun).
Qed.

Lemma switch_type_with_keeps (E : externals) (run_hook : hook -> M unit)
    (devtype : gps_type_t) (s s' : gpsmon) (b : bool) :
  keeps_packet_type run_hook ->
  switch_type_with E run_hook devtype s = Ret b s' ->
  lexer_type (session s') = lexer_type (session s) /\ last_type s' = last_type s.
Proof.
  intros Hkeeps. unfold switch_type_with.
  destruct (find_monitor (monitor_objects E) (type_name devtype)) as [m|]; run;
    [|intros [= _ <-]; auto].
  destruct ((LINES s <? min_y m + 1)%Z || (COLS s <? min_x m)%Z); run;
    [intros [= _ <-]; auto|].
  destruct (active s) as [a|]; [destruct (wrap a) as [h|]|]; run;
    try (intros [= _ <-]; auto).
  destruct (run_hook h s) as [[] t|code t|t|] eqn:Hhook; try discriminate.
  intros [= _ <-]. exact (Hkeeps h s t Hhook).
Qed.

(** X13.  When the hooks leave the packet type and the type last seen
    alone, every return of [select_packet_monitor] leaves the two equal, so
    that the same packet offered again switches nothing: the second call is
    the call of the update hook of the active monitor and nothing else,
    whatever that hook then does, and also when the first call kept the
    active monitor because the screen was too small for the new one. *)
Theorem select_packet_monitor_settles (E : externals) (run_hook : hook -> M unit)
    (s s' : gpsmon) :
  keeps_packet_type run_hook ->
  select_packet_monitor_with E run_hook s = Ret tt s' ->
  lexer_type (session s') = last_type s'
  /\ select_packet_monitor_with E run_hook s' = update_call run_hook s'.
Proof.
  intros Hkeeps Hrun.
  assert (Hsame : lexer_type (session s') = last_type s').
  { revert Hrun. unfold select_packet_monitor_with.
    unfold mbind at 1 2, M_bind at 1 2, get at 1. cbv beta iota.
    destruct (Z.eqb_spec (lexer_type (session s)) (last_type s)) as [Heq|Hne];
      cbn [negb].
    - cbn. intros Hup.
      destruct (update_call_keeps run_hook s s' Hkeeps Hup) as [-> ->]. exact Heq.
    - destruct (device_type (session s)) as [dt|]; [|discriminate].
      unfold mbind at 1 2 3, M_bind at 1 2 3. cbv beta iota.
      destruct (switch_type_with E run_hook (lookup_target E (session s) dt) s)
        as [ok s1|code s1|s1|] eqn:Hsw; try discriminate.
      destruct ok; run; [|discriminate].
      intros Hup.
      destruct (update_call_keeps run_hook _ s' Hkeeps Hup) as [-> ->]. reflexivity. }
  split; [exact Hsame|].
  apply select_packet_monitor_same_type, Hsame.
Qed.

Lemma select_packet_monitor_settles_witness :
  exists s',
    select_packet_monitor_with sample_externals record_call sample_state = Ret tt s'
    /\ lexer_type (session s') = last_type s'
    /\ select_packet_monitor_with sample_externals record_call s'
       = update_call record_call s'.
Proof.
  eexists. split; [vm_compute; reflexivity|].
  apply (select_packet_monitor_settles sample_externals record_call sample_state).
  - intros h t t' [= <-]. split; reflexivity.
  - vm_compute. reflexivity.
Defined.

Lemma locks_held_app (l1 l2 : list event) :
  locks_held (l1 ++ l2) = (locks_held l1 + locks_held l2)%Z.
Proof.
  induction l1 as [|e l1 IH]; [reflexivity|].
  destruct e; cbn [app locks_held]; rewrite ?IH; lia.
Qed.

(** The report and what follows it: the lock is released on the way out,
    and held when the assertion on the log write fails. *)
Lemma hook_report_locks (E : externals) (what : string) (s : gpsmon) :
  match hook_report_and_latch E what s with
  | Ret _ s' =>
      log_write_ok E s = true
      /\ session s' = session s
      /\ exists evs, trace s' = trace s ++ evs /\ locks_held evs = 0%Z
  | Abort s' =>
      log_write_ok E s = false
      /\ session s' = session s
      /\ exists evs, trace s' = trace s ++ evs /\ locks_held evs = 1%Z
           /\ last evs
              = Some (Fwrite (take (lexer_outbuflen (session s))
                                (lexer_outbuffer (session s))))
  | _ => False
  end.
Proof.
  unfold hook_report_and_latch, log_write_ok. run.
  destruct (curses_active s); run;
    (destruct (logfile s); run;
     [destruct (lexer_outbuflen (session s)) eqn:Hlen; run;
      [|destruct (fwrite_count E _ >=? 1)%Z; run]|]);
    try (destruct (0 >=? tv_sec (newdata_time (session s)))%Z; run;
         [|destruct (tv_sec (newdata_time (session s))
                     <=? tv_sec (real (fix_in (session s))))%Z; run]);
    (split; [reflexivity|]); (split; [reflexivity|]);
    eexists; (split; [rewrite <- ?app_assoc; reflexivity|]);
    try split; reflexivity.
Qed.

Lemma gpsmon_hook_cases (E : externals) (s : gpsmon) :
  match gpsmon_hook E s with
  | Ret _ s' =>
      pps_bookkeeping E s s'
      /\ exists evs, trace s' = trace s ++ evs /\ locks_held evs = 0%Z
  | Abort s' =>
      pps_bookkeeping E s s'
      /\ log_write_ok E s = false
      /\ exists evs, trace s' = trace s ++ evs /\ locks_held evs = 1%Z
           /\ last evs
              = Some (Fwrite (take (lexer_outbuflen (session s))
                                (lexer_outbuffer (session s))))
  | _ => False
  end.
Proof.
  unfold gpsmon_hook, pps_bookkeeping, pps_accepted.
  unfold mbind at 1, M_bind at 1, get at 1. cbv beta iota.
  destruct (toff_event E s) eqn:Htoff.
  { unfold hook_toff. run.
    destruct (fst (json_toff_read E (outbuffer_text s)) =? 0)%Z; run;
      [destruct (curses_active s); run|];
      (split; [split; [cbn; lia | reflexivity]|]);
      eexists; (split; [first [rewrite <- ?app_assoc; reflexivity
                              | symmetry; apply app_nil_r]|]); reflexivity. }
  cbn [negb andb].
  destruct (pps_event E s) eqn:Hpps.
  - unfold hook_pps.
    remember (hook_report_and_latch E "PPS offset") as R eqn:HR.
    run. destruct (fst (json_pps_read E (outbuffer_text s)) =? 0)%Z; run.
    + subst R.
      destruct (curses_active s) eqn:Hcurses; run.
      * set (s1 := with_session _ s).
        pose proof (hook_report_locks E "PPS offset" s1) as H.
        destruct (hook_report_and_latch E "PPS offset" s1) as [[] s'|code s'|s'|];
          [| exact H | | exact H].
        -- destruct H as (_ & Hsess & evs & Htrace & Hlocks).
           rewrite Hsess. split; [split; [try subst s1; cbn; lia | try subst s1; reflexivity]|]. exists evs. auto.
        -- destruct H as (Hlog & Hsess & evs & Htrace & Hlocks & Hlast).
           rewrite Hsess. split; [split; [try subst s1; cbn; lia | try subst s1; reflexivity]|]. split; [exact Hlog|].
           exists evs. auto.
      * set (s1 := with_session _ _).
        pose proof (hook_report_locks E "PPS offset" s1) as H.
        destruct (hook_report_and_latch E "PPS offset" s1) as [[] s'|code s'|s'|];
          [| exact H | | exact H].
        -- destruct H as (_ & Hsess & evs & Htrace & Hlocks).
           rewrite Hsess. split; [split; [try subst s1; cbn; lia | try subst s1; reflexivity]|].
           eexists. split; [rewrite Htrace; cbn; rewrite <- app_assoc; reflexivity|].
           cbn. exact Hlocks.
        -- destruct H as (Hlog & Hsess & evs & Htrace & Hlocks & Hlast).
           rewrite Hsess. split; [split; [try subst s1; cbn; lia | try subst s1; reflexivity]|]. split; [exact Hlog|].
           eexists. split; [rewrite Htrace; cbn; rewrite <- app_assoc; reflexivity|].
           split; [cbn; exact Hlocks|].
           destruct evs as [|e evs]; [discriminate Hlast | exact Hlast].
    + split; [split; [try subst s1; cbn; lia | try subst s1; reflexivity]|]. eexists. split; reflexivity.
  - pose proof (hook_report_locks E "packet dump" s) as H.
    destruct (hook_report_and_latch E "packet dump" s) as [[] s'|code s'|s'|];
      [| exact H | | exact H].
    + destruct H as (_ & Hsess & evs & Htrace & Hlocks).
      rewrite Hsess. split; [split; [try subst s1; cbn; lia | try subst s1; reflexivity]|]. exists evs. auto.
    + destruct H as (Hlog & Hsess & evs & Htrace & Hlocks & Hlast).
      rewrite Hsess. split; [split; [try subst s1; cbn; lia | try subst s1; reflexivity]|]. split; [exact Hlog|].
      exists evs. auto.
Qed.

(** X14.  [gpsmon_hook] takes and releases the reporting lock in pairs:
    on every return the lock is free again.  It never leaves by [longjmp]
    or bad access, and when it stops on its assertion the write to the log
    was the last call made, it returned no item, and the lock is still
    held. *)
Theorem gpsmon_hook_lock_balance (E : externals) (s : gpsmon) :
  match gpsmon_hook E s with
  | Ret _ s' => locks_held (added s s') = 0%Z
  | Abort s' =>
      log_write_ok E s = false
      /\ locks_held (added s s') = 1%Z
      /\ last (added s s')
         = Some (Fwrite (take (lexer_outbuflen (session s))
                           (lexer_outbuffer (session s))))
  | _ => False
  end.
Proof.
  pose proof (gpsmon_hook_cases E s) as H.
  destruct (gpsmon_hook E s) as [[] s'|code s'|s'|]; [| exact H | | exact H].
  - destruct H as (_ & evs & Htrace & Hlocks).
    rewrite (added_app s s' evs Htrace). exact Hlocks.
  - destruct H as (_ & Hlog & evs & Htrace & Hlocks & Hlast).
    rewrite (added_app s s' evs Htrace). auto.
Qed.

(** X15.  [session.pps_thread.ppsout_count] counts the PPS reports of the
    daemon that [json_pps_read] accepts: a packet raises it by one and
    stores the parsed pair in [pps_out] when it is such a report (also when
    the write to the log then fails), and any other packet, a TOFF report
    or an ill-formed PPS report among them, leaves both as they were. *)
Theorem gpsmon_hook_counts_pps (E : externals) (s : gpsmon) :
  match gpsmon_hook E s with
  | Ret _ s' | Abort s' =>
      ppsout_count (session s')
      = (ppsout_count (session s) + (if pps_accepted E s then 1 else 0))%Z
      /\ pps_out (session s')
         = (if pps_accepted E s then snd (json_pps_read E (outbuffer_text s))
            else pps_out (session s))
  | _ => False
  end.
Proof.
  pose proof (gpsmon_hook_cases E s) as H.
  destruct (gpsmon_hook E s) as [[] s'|code s'|s'|]; [| exact H | | exact H].
  - destruct H as (Hbook & _). exact Hbook.
  - destruct H as (Hbook & _). exact Hbook.
Qed.

Example gpsmon_hook_log_write_fails :
  exists s',
    gpsmon_hook sample_failing_io (with_logfile (Some (lit "log")) sample_state)
    = Abort s'
    /\ trace s' = [ReportLock; Stdout "packet dump"; Fwrite (lit "$GPGGA,1")].
Proof. eexists. split; vm_compute; reflexivity. Qed.

(** ** Signals and options *)

Lemma existsb_app_false {A : Type} (f : A -> bool) (l1 l2 : list A) :
  existsb f l1 = false -> existsb f l2 = false -> existsb f (l1 ++ l2) = false.
Proof. intros H1 H2. rewrite existsb_app, H1, H2. reflexivity. Qed.

(** X16.  Where a signal takes [main]: [SIGABRT] (a failed assertion) lands
    in the block that closes the log, prints the assertion message and
    exits with [EXIT_FAILURE], without giving back the device, the PPS
    thread or the terminal; any other signal lands at [quit] with
    [TERM_SIGNAL], which closes the device, restores the terminal when
    curses is off, prints nothing and exits with [EXIT_SUCCESS]. *)
Theorem signal_landing (SIGABRT sig : Z) (s : gpsmon) :
  exists s',
    landing (onsig SIGABRT sig) s = Ret tt s'
    /\ if (sig =? SIGABRT)%Z then
         added s s'
         = match logfile s with Some p => [Fclose p] | None => [] end
           ++ [Stderr ("gpsmon: assertion failure, probable I/O error" ++ newline)%string;
               Exit EXIT_FAILURE]
         /\ existsb releases (added s s') = false
       else
         last (added s s') = Some (Exit EXIT_SUCCESS)
         /\ stderr_texts (added s s') = []
         /\ In GpsdClose (added s s')
         /\ (curses_active s = false -> In TcsetattrCooked (added s s')).
Proof.
  unfold onsig. destruct (sig =? SIGABRT)%Z; cbn [landing].
  - unfold assertion_exit. run. destruct (logfile s) as [p|]; run;
      eexists; (split; [reflexivity|]);
      (split; [apply added_app; cbn; rewrite <- ?app_assoc; reflexivity|]).
    + unfold added. cbn. rewrite <- !app_assoc, drop_app_length. reflexivity.
    + unfold added. cbn. rewrite <- !app_assoc, drop_app_length. reflexivity.
  - unfold quit. run.
    destruct (serial s); run; (destruct (logfile s) as [p|]; run);
      (destruct (curses_active s); run);
      eexists; (split; [reflexivity|]);
      unfold added; cbn; rewrite <- ?app_assoc, drop_app_length; cbn;
      (split; [reflexivity|]); (split; [reflexivity|]);
      (split; [tauto|]); intros; try discriminate; tauto.
Qed.

Lemma option_t_loop_spec (optarg : list ascii) (objs : list monitor_object_t) :
  forall fallback matches,
    option_t_loop objs optarg fallback matches
    = (match last (filter (fun o => str_starts_with (type_name (driver o)) optarg = true)
                     objs) with
       | Some o => Some (driver o)
       | None => fallback
       end,
       (matches
        + Z.of_nat (length (filter (fun o => str_starts_with (type_name (driver o)) optarg
                                             = true) objs)))%Z).
Proof.
  induction objs as [|o objs IH]; intros fallback matches; cbn [option_t_loop].
  - cbn. rewrite Z.add_0_r. reflexivity.
  - rewrite filter_cons.
    destruct (str_starts_with (type_name (driver o)) optarg) eqn:Hm.
    + rewrite decide_True by reflexivity. rewrite IH, last_cons. cbn [length].
      f_equal; [|lia]. destruct (last _); reflexivity.
    + rewrite decide_False by (intros H; discriminate H). apply IH.
Qed.

(** X17.  Option [-t]: the first one is accepted exactly when one monitor
    object alone has a driver name that starts with the argument, and then
    [fallback] is that driver; with no such object it is refused with the
    message that no driver matched, with two or more with the message that
    more than one did.  [matches] is not reset between options, so a
    further [-t] is accepted exactly when it matches no object at all, and
    then it clears [fallback]; when it matches any object, it is refused
    with the message that more than one driver matched. *)
Theorem option_t_accepts (objs : list monitor_object_t) (optarg : list ascii)
    (fallback : option gps_type_t) (matches : Z) :
  (option_t objs optarg 0 = inr (fallback, matches)
   <-> exists o,
         filter (fun o => str_starts_with (type_name (driver o)) optarg = true) objs = [o]
         /\ fallback = Some (driver o) /\ matches = 1%Z)
  /\ (option_t objs optarg 1 = inr (fallback, matches)
      <-> filter (fun o => str_starts_with (type_name (driver o)) optarg = true) objs = []
          /\ fallback = None /\ matches = 1%Z)
  /\ (filter (fun o => str_starts_with (type_name (driver o)) optarg = true) objs = [] ->
      option_t objs optarg 0
      = inl ("-t option didn't match any driver." ++ newline)%string)
  /\ (2 <= length (filter (fun o => str_starts_with (type_name (driver o)) optarg = true)
                     objs) ->
      option_t objs optarg 0
      = inl ("-t option matched more than one driver." ++ newline)%string)
  /\ (filter (fun o => str_starts_with (type_name (driver o)) optarg = true) objs <> [] ->
      option_t objs optarg 1
      = inl ("-t option matched more than one driver." ++ newline)%string).
Proof.
  unfold option_t. rewrite !option_t_loop_spec. cbn [fst snd].
  set (matching := filter (fun o => str_starts_with (type_name (driver o)) optarg = true)
                     objs).
  destruct matching as [|o [|o' l]]; cbn [length last].
  - split; [split|split; [split|]].
    + discriminate.
    + intros (o & H & _). discriminate H.
    + cbn. intros [= <- <-]. auto.
    + intros (_ & -> & ->). reflexivity.
    + split; [reflexivity|]. split; [lia|]. intros H. contradiction H. reflexivity.
  - split; [split|split; [split|]].
    + cbn. intros [= <- <-]. exists o. auto.
    + intros (o1 & [= <-] & -> & ->). reflexivity.
    + cbn. discriminate.
    + intros (H & _). discriminate H.
    + split; [discriminate|]. split; [lia|]. reflexivity.
  - assert (Hmany : forall m, (0 <= m)%Z ->
              (m + Z.of_nat (length (o :: o' :: l)) >? 1)%Z = true).
    { intros m Hm. apply Z.gtb_lt. cbn [length]. lia. }
    rewrite !Hmany by lia. split; [split|split; [split|]].
    + discriminate.
    + intros (o1 & H & _). discriminate H.
    + discriminate.
    + intros (H & _). discriminate H.
    + split; [discriminate|]. split; reflexivity.
Qed.

Example option_t_samples :
  option_t (monitor_objects sample_externals) (lit "NMEA") 0
  = inr (Some sample_nmea0183, 1%Z)
  /\ option_t (monitor_objects sample_externals) (lit "") 0
     = inl ("-t option matched more than one driver." ++ newline)%string
  /\ option_t (monitor_objects sample_externals) (lit "u-blox") 0
     = inl ("-t option didn't match any driver." ++ newline)%string
  /\ option_t (monitor_objects sample_externals) (lit "JSON") 1
     = inl ("-t option matched more than one driver." ++ newline)%string
  /\ option_t (monitor_objects sample_externals) (lit "u-blox") 1 = inr (None, 1%Z).
Proof. repeat split. Qed.

(** ** More on the NMEA handler *)

Lemma sat_cmp_value (a b : satellite_t) :
  is_short (PRN a) = true -> is_short (PRN b) = true ->
  sat_cmp a b
  = if Bool.eqb (used a) (used b) then (PRN a - PRN b)%Z
    else if used a then (-1)%Z else 1%Z.
Proof.
  unfold is_short, sat_cmp. intros Ha Hb.
  apply andb_true_iff in Ha as [Ha1 Ha2]. apply andb_true_iff in Hb as [Hb1 Hb2].
  apply Z.leb_le in Ha1, Ha2, Hb1, Hb2.
  rewrite (to_int_small (PRN a - PRN b)) by lia.
  destruct (used a), (used b); reflexivity.
Qed.

(** X18.  [sat_cmp] orders satellites with used ones first and by PRN
    among equals: it is negative exactly when the first is used and the
    second is not, or both agree and the first has the smaller PRN; zero
    exactly when both agree in [used] and PRN; antisymmetric; and
    transitive, as [qsort] needs it. *)
Theorem sat_cmp_orders (a b c : satellite_t) :
  is_short (PRN a) = true -> is_short (PRN b) = true -> is_short (PRN c) = true ->
  ((sat_cmp a b < 0)%Z
   <-> (used a = true /\ used b = false)
       \/ (used a = used b /\ (PRN a < PRN b)%Z))
  /\ (sat_cmp a b = 0%Z <-> used a = used b /\ PRN a = PRN b)
  /\ sat_cmp b a = (- sat_cmp a b)%Z
  /\ ((sat_cmp a b <= 0)%Z -> (sat_cmp b c <= 0)%Z -> (sat_cmp a c <= 0)%Z).
Proof.
  intros Ha Hb Hc.
  rewrite (sat_cmp_value a b Ha Hb), (sat_cmp_value b a Hb Ha),
    (sat_cmp_value b c Hb Hc), (sat_cmp_value a c Ha Hc).
  destruct (used a), (used b), (used c); cbn [Bool.eqb];
    repeat split; try lia; try tauto; intros;
    repeat match goal with
           | H : _ \/ _ |- _ => destruct H
           | H : _ /\ _ |- _ => destruct H
           end; try discriminate; try lia; auto.
Qed.

Lemma sat_cmp_orders_witness :
  ((sat_cmp {| PRN := 7; used := true |} {| PRN := 3; used := false |} < 0)%Z
   <-> (used {| PRN := 7; used := true |} = true
        /\ used {| PRN := 3; used := false |} = false)
       \/ (used {| PRN := 7; used := true |} = used {| PRN := 3; used := false |}
           /\ (PRN {| PRN := 7; used := true |} < PRN {| PRN := 3; used := false |})%Z))
  /\ (sat_cmp {| PRN := 7; used := true |} {| PRN := 3; used := false |} = 0%Z
      <-> used {| PRN := 7; used := true |} = used {| PRN := 3; used := false |}
          /\ PRN {| PRN := 7; used := true |} = PRN {| PRN := 3; used := false |})
  /\ sat_cmp {| PRN := 3; used := false |} {| PRN := 7; used := true |}
     = (- sat_cmp {| PRN := 7; used := true |} {| PRN := 3; used := false |})%Z
  /\ ((sat_cmp {| PRN := 7; used := true |} {| PRN := 3; used := false |} <= 0)%Z ->
      (sat_cmp {| PRN := 3; used := false |} {| PRN := 9; used := false |} <= 0)%Z ->
      (sat_cmp {| PRN := 7; used := true |} {| PRN := 9; used := false |} <= 0)%Z).
Proof.
  apply (sat_cmp_orders {| PRN := 7; used := true |} {| PRN := 3; used := false |}
           {| PRN := 9; used := false |}); reflexivity.
Defined.

(** ** The sentence tags *)

(** X19.  A tag that is new to [sentences] and fits below [xmax - 2] is
    appended behind a blank (also the first one, so that the line starts
    with a blank), inside the array; and the same sentence seen again
    changes nothing. *)
Theorem note_sentence_appends (xmax : Z) (tag pre post : list ascii) :
  Forall nonnul pre -> Forall nonnul tag ->
  strstr pre tag = false ->
  (Z.of_nat (length pre + length tag) < xmax - 2)%Z ->
  (xmax <= 2 ^ 31)%Z ->
  length tag < SENTENCES_SIZE ->
  length tag + 1 <= length post ->
  exists out,
    note_sentence xmax tag (pre ++ NUL :: post) = Some out
    /\ c_str out 0 = pre ++ SPACE :: tag
    /\ length out = length (pre ++ NUL :: post)
    /\ note_sentence xmax tag out = Some out.
Proof.
  intros Hpre Htag Hnew Hfits Hx Hsize Hroom.
  rewrite (note_sentence_append_run xmax tag pre post Hpre Hnew Hfits) by lia.
  assert (Hnn : Forall nonnul (pre ++ SPACE :: tag)).
  { apply Forall_app. split; [exact Hpre|]. constructor; [discriminate | exact Htag]. }
  assert (Hc : c_str ((pre ++ SPACE :: tag) ++ NUL :: drop (length tag + 1) post) 0
               = pre ++ SPACE :: tag).
  { unfold c_str. rewrite drop_0. apply until_nul_app, Hnn. }
  eexists. split; [reflexivity|]. split; [exact Hc|]. split.
  - rewrite !length_app. cbn [length]. rewrite length_drop. lia.
  - unfold note_sentence. rewrite Hc.
    replace (pre ++ SPACE :: tag) with ((pre ++ [SPACE]) ++ tag ++ [])
      by (rewrite app_nil_r, <- app_assoc; reflexivity).
    rewrite strstr_middle. reflexivity.
Qed.

Lemma note_sentence_appends_witness :
  exists out,
    note_sentence 80 (lit "GPRMC") (lit " GPGGA" ++ NUL :: replicate 125 NUL) = Some out
    /\ c_str out 0 = lit " GPGGA" ++ SPACE :: lit "GPRMC"
    /\ length out = length (lit " GPGGA" ++ NUL :: replicate 125 NUL)
    /\ note_sentence 80 (lit "GPRMC") out = Some out.
Proof.
  apply (note_sentence_appends 80 (lit "GPRMC") (lit " GPGGA") (replicate 125 NUL)).
  - repeat constructor; discriminate.
  - repeat constructor; discriminate.
  - reflexivity.
  - vm_compute. reflexivity.
  - vm_compute. discriminate.
  - vm_compute. lia.
  - vm_compute. lia.
Defined.



Section TagFacts.

Variable TS_SUB : timespec -> timespec -> timespec.
Variable TS_GZ : timespec -> bool.
Variable TS_GT : timespec -> timespec -> bool.


End TagFacts.


(** ** Edge cases of the dump and of the commands *)

Lemma strlen_from_none (b : list ascii) : Forall nonnul b -> strlen_from b = None.
Proof.
  induction 1 as [|c b Hc _ IH]; [reflexivity|]. cbn [strlen_from].
  rewrite decide_False by exact Hc. rewrite IH. reflexivity.
Qed.

(** X22.  [packet_dump] hands [cond_hexdump] an array that was never
    written.  For a packet of printable and white-space bytes, three or
    more, that starts with a white-space byte other than a blank, the first
    escape is placed by the length of the string the array happens to
    hold: when the array holds no terminator, the scan for it leaves the
    array. *)
Theorem packet_dump_reads_stack (textual : bool) (stack : list ascii)
    (c : ascii) (rest : list ascii) :
  isspace c = true -> isprint c = false ->
  all_printable (c :: rest) (length (c :: rest)) = true ->
  2 <= length rest ->
  (N.of_nat (length (c :: rest) * 2) < SIZE_MOD)%N ->
  Forall nonnul stack ->
  packet_dump textual stack (c :: rest) (length (c :: rest)) = None.
Proof.
  intros Hsp Hnp Hall Hlen Hsize Hstack.
  unfold packet_dump, cond_hexdump. rewrite Hall.
  replace (N.to_nat ((N.of_nat (length (c :: rest)) * 2) mod SIZE_MOD))
    with (length (c :: rest) * 2) by (rewrite N.mod_small by lia; lia).
  cbn [length] in *. cbn [printable_loop].
  rewrite size_sub_1 by lia.
  destruct (N.ltb_spec (N.of_nat 0) (N.of_nat (S (length rest) * 2 - 1))) as [_|H]; [|lia].
  change (peek (c :: rest) 0) with c. rewrite Hnp.
  rewrite (last_index (S (length rest)) 0 (length rest)) by (first [reflexivity | lia]).
  rewrite (last_but_one_index (S (length rest)) 0 (length rest))
    by (first [reflexivity | lia]).
  replace (length rest =? 0) with false by (symmetry; apply Nat.eqb_neq; lia).
  replace (length rest =? 1) with false by (symmetry; apply Nat.eqb_neq; lia).
  rewrite !andb_false_r. cbn [andb].
  unfold strlen. rewrite drop_0, strlen_from_none by exact Hstack. reflexivity.
Qed.

Lemma packet_dump_reads_stack_witness :
  packet_dump true (replicate 16 "Z"%char) (TAB :: lit "$GP")
    (length (TAB :: lit "$GP")) = None.
Proof.
  apply (packet_dump_reads_stack true (replicate 16 "Z"%char) TAB (lit "$GP")).
  - reflexivity.
  - reflexivity.
  - reflexivity.
  - simpl. lia.
  - vm_compute. reflexivity.
  - repeat constructor; discriminate.
Defined.

(** X23.  A mode specification cut short is accepted by ['s']: the
    terminator counts as a member of each of the sets the three bytes
    behind the colon are looked up in, so that with terminators there the
    speed switcher is called, with NUL as parity and [-48] as stop bits. *)
Theorem do_command_s_cut_short (E : externals) (line : list ascii) (s : gpsmon)
    (dt : gps_type_t) (f : Z -> ascii -> Z -> bool) (k : nat) :
  peek line 0 = "s"%char ->
  device_type (session s) = Some dt ->
  serial s = true ->
  speed_switcher (pick_switcher has_speed_switcher s dt) = Some f ->
  index_of ":" (c_str line (command_arg line)) = Some k ->
  peek line (command_arg line + k + 1) = NUL ->
  peek line (command_arg line + k + 2) = NUL ->
  peek line (command_arg line + k + 3) = NUL ->
  exists s' evs,
    do_command E line s = Ret true s'
    /\ added s s'
       = SpeedSwitcher (type_name (pick_switcher has_speed_switcher s dt))
           (to_unsigned (atoi (c_str line (command_arg line)))) NUL (-48)
         :: evs.
Proof.
  intros Hverb Hdt Hserial Hf Hcolon H1 H2 H3.
  rewrite (do_command_verb_s E line s Hverb).
  rewrite (command_s_with_modespec line s dt k Hdt Hserial Hcolon)
    by (first [rewrite H1 | rewrite H2 | rewrite H3]; reflexivity).
  rewrite H2, H3.
  destruct (speed_switch_calls line s (pick_switcher has_speed_switcher s dt) NUL
              (to_unsigned (Z.of_nat (chr NUL) - 48)) f Hf) as (s' & evs & Hrun & Hadded).
  exists s', evs. rewrite Hrun. split; [reflexivity | exact Hadded].
Qed.

Lemma do_command_s_cut_short_witness :
  exists s' evs,
    do_command sample_externals (lit "s9600:") sample_state = Ret true s'
    /\ added sample_state s'
       = SpeedSwitcher (type_name (pick_switcher has_speed_switcher sample_state sample_sticky))
           (to_unsigned (atoi (c_str (lit "s9600:") (command_arg (lit "s9600:"))))) NUL (-48)
         :: evs.
Proof.
  apply (do_command_s_cut_short sample_externals (lit "s9600:") sample_state
           sample_sticky (fun _ _ _ => true) 4); reflexivity.
Defined.

(** The same with a number beyond [long]: the speed handed on is the
    [unsigned] of [-1]. *)
Example do_command_s_cut_short_overflow :
  exists s' evs,
    do_command sample_externals (lit "s99999999999999999999:") sample_state
    = Ret true s'
    /\ added sample_state s'
       = SpeedSwitcher (type_name sample_sticky) 4294967295 NUL (-48) :: evs.
Proof. do 2 eexists. split; vm_compute; reflexivity. Qed.

Lemma do_command_verb_X (E : externals) (line : list ascii) (s : gpsmon) :
  peek line 0 = "X"%char ->
  do_command E line s = and_continue (command_X E line s).
Proof. intros H. unfold do_command. rewrite H. reflexivity. Qed.

(** X24.  Command ['X'] with a well-formed hex string writes the packed
    bytes to the device and complains unless the write returned their
    number and that number is positive: an empty packet is always reported
    as failed, whatever the write returned. *)
Theorem do_command_X_reports (E : externals) (line : list ascii) (s : gpsmon) :
  peek line 0 = "X"%char ->
  serial s = true ->
  (0 <= fst (gpsd_hexpack E (c_str line (command_arg line))))%Z ->
  Z.to_nat (fst (gpsd_hexpack E (c_str line (command_arg line))))
  <= length (snd (gpsd_hexpack E (c_str line (command_arg line)))) ->
  let len := fst (gpsd_hexpack E (c_str line (command_arg line))) in
  let bytes := take (Z.to_nat len) (snd (gpsd_hexpack E (c_str line (command_arg line)))) in
  exists s',
    do_command E line s = Ret true s'
    /\ added s s'
       = GpsdWrite bytes
         :: (if (0 <? len)%Z && (gpsd_write E bytes =? len)%Z then []
             else [Complain "Raw send failed." []])
    /\ (len = 0%Z -> added s s' = [GpsdWrite []; Complain "Raw send failed." []]).
Proof.
  intros Hverb Hserial Hpos Hbuf len bytes.
  rewrite (do_command_verb_X E line s Hverb).
  unfold command_X, monitor_raw_send. run. rewrite Hserial. cbn [negb].
  fold len. destruct (Z.ltb_spec len 0) as [Hneg|_]; [lia|]. run. fold bytes.
  assert (Hlen : Z.of_nat (length bytes) = len).
  { subst bytes. rewrite length_take. fold len in Hbuf. lia. }
  rewrite Hlen.
  assert (Hsame : (0 <? gpsd_write E bytes)%Z && (gpsd_write E bytes =? len)%Z
                  = (0 <? len)%Z && (gpsd_write E bytes =? len)%Z).
  { destruct (Z.eqb_spec (gpsd_write E bytes) len) as [->|]; [reflexivity|].
    rewrite !andb_false_r. reflexivity. }
  rewrite Hsame.
  destruct ((0 <? len)%Z && (gpsd_write E bytes =? len)%Z) eqn:Hok; run.
  - eexists. split; [reflexivity|]. split; [apply added_app; reflexivity|].
    intros H0. rewrite H0 in Hok. discriminate Hok.
  - eexists. split; [reflexivity|].
    split; [apply added_app; cbn; rewrite <- app_assoc; reflexivity|].
    intros H0. apply added_app. cbn. rewrite <- app_assoc.
    subst bytes. rewrite H0. reflexivity.
Qed.

Lemma do_command_X_reports_witness :
  exists s',
    do_command sample_failing_io (lit "X") sample_state = Ret true s'
    /\ added sample_state s'
       = GpsdWrite []
         :: (if (0 <? 0)%Z && (gpsd_write sample_failing_io [] =? 0)%Z then []
             else [Complain "Raw send failed." []])
    /\ (0%Z = 0%Z ->
        added sample_state s' = [GpsdWrite []; Complain "Raw send failed." []]).
Proof.
  apply (do_command_X_reports sample_failing_io (lit "X") sample_state).
  - reflexivity.
  - reflexivity.
  - cbn. lia.
  - cbn. lia.
Defined.

